(** * BDBox inventory manager: a model of [extractData.py]

  The development embeds the ledger-maintenance and analytics code of
  [InventoryManager] (file [src/extractData.py]) and proves the
  properties stated for it.

  Modelling conventions.
  - Python [float] is IEEE binary64, given by [SpecFloat] with
    [prec = 53] and [emax = 1024]; every arithmetic operation is the
    correctly rounded one of that library.
  - A spreadsheet cell holds [None], a string or a number.  Excel stores
    every number as a binary64 value and the code only ever applies
    [float(...)], truthiness and [==] to the numbers it reads, so numbers
    are carried as floats ([VNum]); Python's [int 0] default in
    [update_predictions] is the float zero.
  - An openpyxl worksheet is its cell dictionary, keyed by (row, column);
    [max_row] and [max_column] are computed from the keys as openpyxl
    does.  Reading a missing cell yields [None]; openpyxl also
    materialises an empty cell on such a read, always inside the current
    bounding box in this code, and drops it again on save, so reads are
    modelled as pure lookups.
  - The persisted workbook keeps exactly the cells whose value is not
    [None]; numbers and strings round-trip unchanged.
  - A Python [dict] is an insertion-ordered association list whose keys
    are compared as Python compares dictionary keys; all NaN keys are
    taken to be the one object [numpy.nan]. *)

From Stdlib Require Import ZArith Zpower String Ascii List Lia Floats.SpecFloat.
From stdpp Require Import base option list gmap strings pretty.

Local Open Scope string_scope.
Local Open Scope list_scope.
Local Open Scope nat_scope.

(** ** Python builtins used by the source *)
Module Py.

(** *** binary64 arithmetic *)
Definition prec : Z := 53.
Definition emax : Z := 1024.

Abbreviation float := spec_float.

(** [float(n)] for an integer [n], and the implicit int-to-float
    conversion of mixed arithmetic. *)
Definition float_of_Z (z : Z) : float := binary_normalize prec emax z 0 false.

Definition fadd : float → float → float := SFadd prec emax.
Definition fsub : float → float → float := SFsub prec emax.
Definition fmul : float → float → float := SFmul prec emax.
Definition fdiv : float → float → float := SFdiv prec emax.

(** [a >= b] and [a < b] on floats (false as soon as one side is NaN). *)
Definition fge (a b : float) : bool := SFleb b a.
Definition flt (a b : float) : bool := SFltb a b.

Definition is_nan (x : float) : bool :=
  match x with S754_nan => true | _ => false end.

(** The exact quotient [m / d] of two positive integers, rounded once to
    the nearest binary64 value. *)
Definition float_of_ratio (s : bool) (m d : positive) : float :=
  fdiv (S754_finite s m 0) (S754_finite false d 0).

(** [m * 2^e * 100] rounded to the nearest integer, ties to even. *)
Definition hundredths (m : positive) (e : Z) : Z :=
  match e with
  | Zneg p =>
      let num := (Zpos m * 100)%Z in
      let den := Z.pow_pos 2 p in
      let q := (num / den)%Z in
      let r := (num mod den)%Z in
      match (2 * r ?= den)%Z with
      | Lt => q
      | Gt => (q + 1)%Z
      | Eq => if Z.even q then q else (q + 1)%Z
      end
  | _ => (Zpos m * 2 ^ e * 100)%Z
  end.

(** [round(x, 2)]: the decimal with two fractional digits nearest to the
    exact value of [x] (ties to even), converted back to binary64. *)
Definition round2 (x : float) : float :=
  match x with
  | S754_finite s m e =>
      match hundredths m e with
      | Zpos n => float_of_ratio s n 100
      | _ => S754_zero s
      end
  | _ => x
  end.

(** *** exceptions and results *)
Inductive exn :=
| FileNotFoundError
| KeyError
| IndexError
| AttributeError
| TypeError
| OverflowError
| ValueError (args : list string).

Inductive result (A : Type) :=
| Ok (a : A)
| Raise (e : exn).
Arguments Ok {A} a.
Arguments Raise {A} e.

#[export] Instance result_ret : MRet result := λ A a, Ok a.
#[export] Instance result_bind : MBind result := λ A B k r,
  match r with Ok a => k a | Raise e => Raise e end.

(** A loop whose body may raise. *)
Definition foldM {A S} (body : S → A → result S) (s : S) (l : list A) : result S :=
  foldl (λ r a, s' ← r; body s' a) (Ok s) l.

(** [except (ValueError, TypeError)]. *)
Definition is_value_or_type_error (e : exn) : bool :=
  match e with ValueError _ | TypeError => true | _ => false end.

(** [int(x)] for a float: truncation toward zero. *)
Definition int_of_float (x : float) : result Z :=
  match x with
  | S754_zero _ => Ok 0%Z
  | S754_finite s m e =>
      let a := match e with
               | Zneg p => (Zpos m / Z.pow_pos 2 p)%Z
               | _ => (Zpos m * 2 ^ e)%Z
               end in
      Ok (if s then (- a)%Z else a)
  | S754_infinity _ => Raise OverflowError
  | S754_nan => Raise (ValueError [])
  end.

(** *** cell values *)
Inductive value :=
| VStr (s : string)
| VNum (x : float).

#[export] Instance float_eq_dec : EqDecision spec_float.
Proof. solve_decision. Defined.

#[export] Instance value_eq_dec : EqDecision value.
Proof. solve_decision. Defined.

(** Truthiness: the empty string and the zeros are falsy. *)
Definition truthy (v : value) : bool :=
  match v with
  | VStr s => negb (String.eqb s "")
  | VNum (S754_zero _) => false
  | VNum _ => true
  end.

(** [a == b]. *)
Definition eqb (a b : value) : bool :=
  match a, b with
  | VStr s, VStr t => String.eqb s t
  | VNum x, VNum y => SFeqb x y
  | _, _ => false
  end.

(** Equality of dictionary keys: identity first, then [==].  NaN is
    taken to be one object, so two NaN keys are one key; NaN objects
    that differ (the blank cells of a column, as pandas returns them) are
    different keys in Python.  The model is exact for keys without NaN. *)
Definition key_eqb (a b : value) : bool :=
  match a, b with
  | VNum S754_nan, VNum S754_nan => true
  | _, _ => eqb a b
  end.

(** *** strings *)
Definition startswith (s p : string) : bool := String.prefix p s.

(** [s.replace(old, new)] for a non-empty [old]: occurrences are replaced
    left to right without overlap.  [skip] counts the characters of a
    match still to be consumed. *)
Fixpoint replace_go (old new : string) (skip : nat) (s : string) : string :=
  match s with
  | EmptyString => EmptyString
  | String c s' =>
      match skip with
      | S k => replace_go old new k s'
      | O =>
          if String.prefix old s
          then (new ++ replace_go old new (String.length old - 1) s')%string
          else String c (replace_go old new 0 s')
      end
  end.

Definition replace (s old new : string) : string := replace_go old new 0 s.

Definition is_space (c : ascii) : bool :=
  match nat_of_ascii c with
  | 9 | 10 | 11 | 12 | 13 | 32 => true
  | _ => false
  end.

Fixpoint lstrip (l : list ascii) : list ascii :=
  match l with
  | c :: l' => if is_space c then lstrip l' else l
  | [] => []
  end.

Definition strip (l : list ascii) : list ascii :=
  rev (lstrip (rev (lstrip l))).

Definition digit_of (c : ascii) : option Z :=
  let n := nat_of_ascii c in
  if (48 <=? n)%nat && (n <=? 57)%nat then Some (Z.of_nat (n - 48)) else None.

Definition is_underscore (c : ascii) : bool := Nat.eqb (nat_of_ascii c) 95.

(** A run of decimal digits in which single underscores may separate
    digits: its value and its number of digits. *)
Fixpoint digits_go (acc : Z) (count : nat) (after_digit : bool)
    (l : list ascii) : option (Z * nat) :=
  match l with
  | [] => if after_digit then Some (acc, count) else None
  | c :: l' =>
      match digit_of c with
      | Some d => digits_go (10 * acc + d)%Z (S count) true l'
      | None =>
          if is_underscore c && after_digit
          then digits_go acc count false l'
          else None
      end
  end.

Definition digits (l : list ascii) : option (Z * nat) := digits_go 0%Z 0 false l.

(** An optional sign in front of the rest. *)
Definition split_sign (l : list ascii) : bool * list ascii :=
  match l with
  | c :: l' =>
      if Nat.eqb (nat_of_ascii c) 45 then (true, l')
      else if Nat.eqb (nat_of_ascii c) 43 then (false, l')
      else (false, l)
  | [] => (false, [])
  end.

(** [int(s)] for a string, base ten (ASCII digits and whitespace). *)
Definition int_of_string (s : string) : result Z :=
  let '(neg, body) := split_sign (strip (list_ascii_of_string s)) in
  match digits body with
  | Some (n, _) => Ok (if neg then (- n)%Z else n)
  | None => Raise (ValueError [s])
  end.

(** [str(n)] for an integer, as an f-string renders it. *)
Definition str_of_Z (z : Z) : string := pretty z.

Definition lower (c : ascii) : ascii :=
  let n := nat_of_ascii c in
  if (65 <=? n)%nat && (n <=? 90)%nat then ascii_of_nat (n + 32) else c.

(** The part of [l] before the first character satisfying [p], and the
    part after it when there is one. *)
Fixpoint split_at (p : ascii → bool) (l : list ascii)
    : list ascii * option (list ascii) :=
  match l with
  | [] => ([], None)
  | c :: l' =>
      if p c then ([], Some l')
      else let '(a, b) := split_at p l' in (c :: a, b)
  end.

Definition is_dot (c : ascii) : bool := Nat.eqb (nat_of_ascii c) 46.
Definition is_e (c : ascii) : bool :=
  Nat.eqb (nat_of_ascii c) 101 || Nat.eqb (nat_of_ascii c) 69.

(** Digits that may be absent altogether. *)
Definition digits_opt (l : list ascii) : option (Z * nat) :=
  match l with [] => Some (0%Z, 0) | _ => digits l end.

(** The value [m * 10^e] rounded once to binary64. *)
Definition float_of_decimal (neg : bool) (m e : Z) : float :=
  match m with
  | Zpos p =>
      match e with
      | Zneg k => float_of_ratio neg p (Pos.pow 10 k)
      | _ => binary_normalize prec emax (Zpos p * 10 ^ e) 0 neg
      end
  | _ => S754_zero neg
  end.

(** [float(s)] for a string: decimal literals with optional fraction and
    exponent, and the spellings of infinity and NaN. *)
Definition float_of_string (s : string) : result float :=
  let '(neg, body) := split_sign (strip (list_ascii_of_string s)) in
  let low := string_of_list_ascii (map lower body) in
  if String.eqb low "inf" || String.eqb low "infinity" then Ok (S754_infinity neg)
  else if String.eqb low "nan" then Ok S754_nan
  else
    let '(mant, expo) := split_at is_e body in
    let '(ipart, fpart) := split_at is_dot mant in
    let parsed :=
      i ← digits_opt ipart;
      f ← digits_opt (default [] fpart);
      x ← match expo with
          | None => Some 0%Z
          | Some el =>
              let '(eneg, ebody) := split_sign el in
              '(n, _) ← digits ebody;
              Some (if eneg then (- n)%Z else n)
          end;
      if Nat.eqb (i.2 + f.2) 0 then None
      else Some (float_of_decimal neg (i.1 * 10 ^ Z.of_nat f.2 + f.1)
                                  (x - Z.of_nat f.2)) in
    match parsed with
    | Some x => Ok x
    | None => Raise (ValueError [s])
    end.

(** [float(v)] for a cell value. *)
Definition to_float (v : value) : result float :=
  match v with
  | VNum x => Ok x
  | VStr s => float_of_string s
  end.

(** *** formatting *)
Definition hex_digit (n : Z) : ascii :=
  ascii_of_nat (Z.to_nat (if (n <? 10)%Z then 48 + n else 55 + n)%Z).

Fixpoint hex_go (fuel : nat) (n : Z) (acc : string) : string :=
  match fuel with
  | O => acc
  | S fuel' =>
      let acc' := String (hex_digit (n mod 16)) acc in
      if (n <? 16)%Z then acc' else hex_go fuel' (n / 16) acc'
  end.

Definition hex_upper (n : Z) : string := hex_go (S (Z.to_nat (Z.log2 n))) n "".

(** The format spec [02X]: upper-case hexadecimal, zero-padded to width
    two, the sign counting toward the width. *)
Definition format_02X (z : Z) : string :=
  if (z <? 0)%Z then ("-" ++ hex_upper (- z))%string
  else if (z <? 16)%Z then ("0" ++ hex_upper z)%string
  else hex_upper z.

(** *** dictionaries *)
Definition dict (V : Type) : Type := list (value * V).

Fixpoint dict_get {V} (d : dict V) (k : value) : option V :=
  match d with
  | [] => None
  | (k', v) :: d' => if key_eqb k' k then Some v else dict_get d' k
  end.

(** [d[k] = v]: an existing key keeps its position (and its key object). *)
Fixpoint dict_set {V} (d : dict V) (k : value) (v : V) : dict V :=
  match d with
  | [] => [(k, v)]
  | (k', v') :: d' =>
      if key_eqb k' k then (k', v) :: d' else (k', v') :: dict_set d' k v
  end.

(** [dict(pairs)] and dictionary comprehensions: successive stores. *)
Definition dict_of {V} (kvs : list (value * V)) : dict V :=
  foldl (λ d kv, dict_set d kv.1 kv.2) [] kvs.

Definition dict_keys {V} (d : dict V) : list value := d.*1.

(** [enumerate(l, start)]. *)
Definition enumerate {A} (start : nat) (l : list A) : list (nat * A) :=
  zip (seq start (length l)) l.

End Py.

(** ** Worksheets *)
Module Sheet.
Import Py.

Abbreviation cell := (option value).
(** A worksheet in memory: a present cell may hold [None]. *)
Abbreviation worksheet := (gmap (nat * nat) (option value)).
(** A worksheet on disk: only cells with a value. *)
Abbreviation stored := (gmap (nat * nat) value).

Definition max_row {A} (ws : gmap (nat * nat) A) : nat :=
  max_list_with (λ kv, kv.1.1) (map_to_list ws) `max` 1.

Definition max_column {A} (ws : gmap (nat * nat) A) : nat :=
  max_list_with (λ kv, kv.1.2) (map_to_list ws) `max` 1.

(** [ws[coordinate].value]. *)
Definition cell_value (ws : worksheet) (row col : nat) : cell :=
  mjoin (ws !! (row, col)).

(** [ws[coordinate] = v] and [ws[coordinate].value = v].  openpyxl
    refuses a text that holds a control character
    ([IllegalCharacterError]); the model takes every text, so it is exact
    for texts without such a character. *)
Definition set_cell (ws : worksheet) (row col : nat) (v : cell) : worksheet :=
  <[(row, col) := v]> ws.

(** [ws['A'][1:]]: the values of column A below the first row. *)
Definition column_A_below_header (ws : worksheet) : list cell :=
  (λ row, cell_value ws row 1) <$> seq 2 (max_row ws - 1).

(** [ws.delete_rows(idx, amount)]: the rows go, the rows below move up. *)
Definition delete_rows (idx amount : nat) (ws : worksheet) : worksheet :=
  list_to_map
    (omap (λ kv : nat * nat * cell,
             let '((row, col), v) := kv in
             if (row <? idx)%nat then Some ((row, col), v)
             else if (row <? idx + amount)%nat then None
             else Some ((row - amount, col), v))
          (map_to_list ws)).

(** [load_workbook] and [wb.save] on one sheet.  [save] keeps every
    value as it is.  openpyxl writes a number with 16 significant digits
    and leaves an empty text, a NaN and an infinity out of the file, so
    the model is exact for texts that are not empty and numbers that
    these digits give back: [Notions.storable] describes such values. *)
Definition load (s : stored) : worksheet := Some <$> s.
Definition save (ws : worksheet) : stored := omap id ws.

End Sheet.

(** ** The methods of [InventoryManager] *)
Module Inventory.
Import Py Sheet.

(** A workbook in memory; [fills] holds the fill colour of the status
    cells of the predictions sheet, the only styled cells. *)
Record workbook := {
  sheets : gmap string (gmap (nat * nat) (option value));
  fills : gmap (nat * nat) string
}.

(** The output file. *)
Record file := {
  file_sheets : gmap string (gmap (nat * nat) value);
  file_fills : gmap (nat * nat) string
}.

(** [None]: the output file does not exist. *)
Abbreviation store := (option file).

Definition load_workbook (f : file) : workbook :=
  {| sheets := load <$> file_sheets f; fills := file_fills f |}.

Definition save_workbook (wb : workbook) : file :=
  {| file_sheets := save <$> sheets wb; file_fills := fills wb |}.

Definition set_sheet (wb : workbook) (name : string) (ws : worksheet) : workbook :=
  {| sheets := <[name := ws]> (sheets wb); fills := fills wb |}.

(** [self.sheet_names]. *)
Definition sheet_names (key : string) : string :=
  if String.eqb key "history" then "Inventory History"
  else if String.eqb key "differences" then "Sales Differences"
  else if String.eqb key "average" then "Average Use"
  else "Current Inventory & Predictions".

(** *** extraction *)

(** A pandas data frame: the header names and the rows below them; a
    cell a row lacks reads as NaN. *)
Record DataFrame := {
  df_columns : list string;
  df_rows : list (list value)
}.

(** The position of the column named [col]. *)
Definition column_index (df : DataFrame) (col : string) : option nat :=
  fst <$> list_find (λ c, String.eqb col c = true) (df_columns df).

Definition row_cell (row : list value) (pos : nat) : value :=
  default (VNum S754_nan) (row !! pos).

(** [df[col].tolist()]. *)
Definition df_tolist (df : DataFrame) (col : string) : result (list value) :=
  match column_index df col with
  | Some pos => Ok ((λ row, row_cell row pos) <$> df_rows df)
  | None => Raise KeyError
  end.

Definition str_in (x : string) (l : list string) : bool :=
  existsb (String.eqb x) l.

(** [{col: ... for col in column_headers}]: a repeated key keeps its
    first position and takes the last value. *)
Definition str_dict_set {V} (d : list (string * V)) (k : string) (v : V)
    : list (string * V) :=
  if str_in k d.*1
  then (λ kv : string * V, if String.eqb kv.1 k then (kv.1, v) else kv) <$> d
  else d ++ [(k, v)].

(** [extract_columns], after [pd.read_excel] has produced [df]. *)
Definition extract_from (df : DataFrame) (column_headers : list string)
    : result (list (string * list value)) :=
  let missing_columns :=
    filter (λ col, str_in col (df_columns df) = false) column_headers in
  if negb (Nat.eqb (length missing_columns) 0)
  then Raise (ValueError missing_columns)
  else
    foldM (λ extracted_data col,
             vs ← df_tolist df col;
             Ok (str_dict_set extracted_data col vs))
          [] column_headers.

(** [data[col]] on the extracted dictionary. *)
Definition data_get (d : list (string * list value)) (col : string)
    : result (list value) :=
  match list_find (λ kv : string * list value, String.eqb kv.1 col = true) d with
  | Some (_, kv) => Ok kv.2
  | None => Raise KeyError
  end.

(** *** the ledger *)

Definition _get_or_create_sheet (wb : workbook) (sheet_name : string) : worksheet :=
  default ∅ (sheets wb !! sheet_name).

Definition _load_or_create_workbook (st : store) : workbook :=
  match st with
  | Some f => load_workbook f
  | None => {| sheets := ∅; fills := ∅ |}
  end.

Definition desired_order : list string :=
  [sheet_names "predictions"; sheet_names "history";
   sheet_names "differences"; sheet_names "average"].

(** [_organize_sheets]: sheets outside the four known names are removed
    (the display order of the rest is not modelled). *)
Definition _organize_sheets (wb : workbook) : workbook :=
  {| sheets := filter (λ kv, str_in kv.1 desired_order = true) (sheets wb);
     fills := fills wb |}.

(** The guard of the label comprehension:
    [cell.value and cell.value != 'Label']. *)
Definition label_guard (c : cell) : bool :=
  match c with
  | Some v => truthy v && negb (eqb v (VStr "Label"))
  | None => false
  end.

Definition _get_existing_labels (ws : worksheet) : list value :=
  omap (λ c : cell, if label_guard c then c else None) (column_A_below_header ws).

(** [list(dict.fromkeys(existing_labels + new_labels))]; exact for
    labels without NaN (see [key_eqb]). *)
Definition _merge_labels (existing_labels new_labels : list value) : list value :=
  dict_keys (dict_of ((λ l, (l, tt)) <$> (existing_labels ++ new_labels))).

Definition _write_labels_to_column (ws : worksheet) (labels : list value) : worksheet :=
  let ws := set_cell ws 1 1 (Some (VStr "Label")) in
  foldl (λ ws il, set_cell ws il.1 1 (Some il.2)) ws (enumerate 2 labels).

Definition _add_inventory_column (ws : worksheet) (all_labels : list value)
    (label_to_stock : dict value) (column_header : string) : worksheet :=
  let next_col := if (0 <? max_column ws)%nat then max_column ws + 1 else 2 in
  let ws := set_cell ws 1 next_col (Some (VStr column_header)) in
  foldl (λ ws il,
           match dict_get label_to_stock il.2 with
           | Some stock => set_cell ws il.1 next_col (Some stock)
           | None => ws
           end)
        ws (enumerate 2 all_labels).

(** The body of the loop over columns in [_realign_existing_columns]. *)
Definition realign_column (existing_labels : list value)
    (label_to_new_row : dict nat) (ws : worksheet) (col : nat) : result worksheet :=
  let values_to_move :=
    foldl (λ (d : dict value) il,
             match cell_value ws il.1 col with
             | Some cell_value => dict_set d il.2 cell_value
             | None => d
             end)
          [] (enumerate 2 existing_labels) in
  let ws := foldl (λ ws row, set_cell ws row col None) ws (seq 2 (max_row ws - 1)) in
  foldM (λ ws lv,
           match dict_get label_to_new_row lv.1 with
           | Some new_row => Ok (set_cell ws new_row col (Some lv.2))
           | None => Raise KeyError
           end)
        ws values_to_move.

Definition _realign_existing_columns (ws : worksheet)
    (existing_labels all_labels : list value) : result worksheet :=
  let label_to_new_row :=
    dict_of ((λ il : nat * value, (il.2, il.1 + 2)) <$> enumerate 0 all_labels) in
  foldM (realign_column existing_labels label_to_new_row) ws
        (seq 2 (max_column ws - 1)).

Definition _update_inventory_history_internal (labels stock_values : list value)
    (column_header : string) (st : store) : result store :=
  let wb := _load_or_create_workbook st in
  let ws := _get_or_create_sheet wb (sheet_names "history") in
  let existing_labels :=
    if (0 <? max_row ws)%nat then _get_existing_labels ws else [] in
  let all_labels := _merge_labels existing_labels labels in
  ws ← (if (length existing_labels <? length all_labels)%nat
        then _realign_existing_columns ws existing_labels all_labels
        else Ok ws);
  let ws := _write_labels_to_column ws all_labels in
  let label_to_stock := dict_of (zip labels stock_values) in
  let ws := _add_inventory_column ws all_labels label_to_stock column_header in
  let wb := _organize_sheets (set_sheet wb (sheet_names "history") ws) in
  Ok (Some (save_workbook wb)).

Definition update_inventory_history (labels stock_values : list value)
    (sale_number : string) : store → result store :=
  _update_inventory_history_internal labels stock_values ("Sale " ++ sale_number)%string.

Definition _update_inventory_history_restock (labels stock_values : list value)
    : store → result store :=
  _update_inventory_history_internal labels stock_values "Restock".

(** *** sales differences *)

(** The kind and sale number recorded with each inventory column. *)
Inductive entry :=
| Sale (sale_num : Z)
| Restock.

Record inventory_column := {
  col : nat;
  header : string;
  kind : entry
}.

(** The parse of one header cell; [Ok None] leaves the column out. *)
Definition parse_header (col : nat) (header : cell) : result (option inventory_column) :=
  match header with
  | Some (VStr header) =>
      if startswith header "Sale " then
        sale_num ← int_of_string (replace header "Sale " "");
        Ok (Some {| col := col; header := header; kind := Sale sale_num |})
      else if startswith header "Restock" then
        Ok (Some {| col := col; header := header; kind := Restock |})
      else Ok None
  | _ => Raise AttributeError
  end.

Definition read_inventory_columns (history_ws : worksheet) : result (list inventory_column) :=
  foldM (λ inventory_columns col,
           c ← parse_header col (cell_value history_ws 1 col);
           Ok (inventory_columns ++ option_list c))
        [] (seq 2 (max_column history_ws - 1)).

(** [should_calc_diff] and [diff_header] for an adjacent pair: [None]
    when no difference is to be calculated. *)
Definition diff_header_of (c1 c2 : inventory_column) : option string :=
  match kind c1, kind c2 with
  | Sale sale_num1, Sale sale_num2 =>
      if (sale_num2 - sale_num1 =? 1)%Z
      then Some ("Difference Sale " ++ str_of_Z sale_num1 ++ " - Sale "
                   ++ str_of_Z sale_num2)%string
      else None
  | Restock, Sale sale_num2 =>
      Some ("Difference Restock - Sale " ++ str_of_Z sale_num2)%string
  | _, _ => None
  end.

(** One difference cell: [Ok None] leaves the cell unwritten. *)
Definition difference_of (val1 val2 : cell) : result (option float) :=
  match val1, val2 with
  | Some v1, Some v2 =>
      match (x ← to_float v1; y ← to_float v2; Ok (fsub x y)) with
      | Ok diff => Ok (Some diff)
      | Raise e => if is_value_or_type_error e then Ok None else Raise e
      end
  | _, _ => Ok None
  end.

(** The body of the loop over [range(len(inventory_columns) - 1)]. *)
Definition difference_step (history_ws : worksheet) (labels : list value)
    (inventory_columns : list inventory_column)
    (state : worksheet * nat) (i : nat) : result (worksheet * nat) :=
  let '(diff_ws, diff_col_counter) := state in
  match inventory_columns !! i, inventory_columns !! (i + 1) with
  | Some c1, Some c2 =>
      match diff_header_of c1 c2 with
      | None => Ok (diff_ws, diff_col_counter)
      | Some diff_header =>
          let diff_ws := set_cell diff_ws 1 diff_col_counter (Some (VStr diff_header)) in
          diff_ws ← foldM (λ diff_ws il,
                             let val1 := cell_value history_ws il.1 (col c1) in
                             let val2 := cell_value history_ws il.1 (col c2) in
                             diff ← difference_of val1 val2;
                             Ok match diff with
                                | Some diff =>
                                    set_cell diff_ws il.1 diff_col_counter (Some (VNum diff))
                                | None => diff_ws
                                end)
                          diff_ws (enumerate 2 labels);
          Ok (diff_ws, diff_col_counter + 1)
      end
  | _, _ => Raise IndexError
  end.

(** [wb[name]]. *)
Definition get_sheet (wb : workbook) (name : string) : result worksheet :=
  match sheets wb !! name with
  | Some ws => Ok ws
  | None => Raise KeyError
  end.

(** The sheet of that name emptied by [delete_rows(1, max_row)], or a
    new sheet. *)
Definition cleared_sheet (wb : workbook) (name : string) : worksheet :=
  match sheets wb !! name with
  | Some ws => delete_rows 1 (max_row ws) ws
  | None => ∅
  end.

Definition update_sales_differences (st : store) : result store :=
  match st with
  | None => Raise FileNotFoundError
  | Some f =>
      let wb := load_workbook f in
      history_ws ← get_sheet wb (sheet_names "history");
      let labels := _get_existing_labels history_ws in
      inventory_columns ← read_inventory_columns history_ws;
      let diff_ws := cleared_sheet wb (sheet_names "differences") in
      let diff_ws := _write_labels_to_column diff_ws labels in
      '(diff_ws, _) ← foldM (difference_step history_ws labels inventory_columns)
                            (diff_ws, 2) (seq 0 (length inventory_columns - 1));
      let wb := _organize_sheets (set_sheet wb (sheet_names "differences") diff_ws) in
      Ok (Some (save_workbook wb))
  end.

(** *** average use *)

(** The list [differences] collected for the row [idx]. *)
Definition collect_differences (diff_ws : worksheet) (idx : nat) : result (list float) :=
  foldM (λ differences col,
           match cell_value diff_ws idx col with
           | Some val =>
               match to_float val with
               | Ok diff_value =>
                   Ok (if fge diff_value (float_of_Z 0)
                       then differences ++ [diff_value] else differences)
               | Raise e => if is_value_or_type_error e then Ok differences else Raise e
               end
           | None => Ok differences
           end)
        [] (seq 2 (max_column diff_ws - 1)).

(** [sum(differences)]: left-to-right addition from zero. *)
Definition sum (differences : list float) : float :=
  foldl fadd (float_of_Z 0) differences.

Definition update_average_use (st : store) : result store :=
  match st with
  | None => Raise FileNotFoundError
  | Some f =>
      let wb := load_workbook f in
      diff_ws ← get_sheet wb (sheet_names "differences");
      let labels := _get_existing_labels diff_ws in
      let avg_ws := cleared_sheet wb (sheet_names "average") in
      let avg_ws := _write_labels_to_column avg_ws labels in
      let avg_ws := set_cell avg_ws 1 2 (Some (VStr "Average Use")) in
      avg_ws ← foldM (λ avg_ws il,
                        differences ← collect_differences diff_ws il.1;
                        Ok match differences with
                           | [] => avg_ws
                           | _ =>
                               let avg_use :=
                                 fdiv (sum differences)
                                      (float_of_Z (Z.of_nat (length differences))) in
                               set_cell avg_ws il.1 2 (Some (VNum (round2 avg_use)))
                           end)
                     avg_ws (enumerate 2 labels);
      let wb := _organize_sheets (set_sheet wb (sheet_names "average") avg_ws) in
      Ok (Some (save_workbook wb))
  end.

(** *** predictions *)

(** [min(a, b)] of two arguments. *)
Definition min (a b : float) : float := if flt b a then b else a.

Definition _get_shortage_color (shortage : float) : result string :=
  if fge shortage (float_of_Z 15) then Ok "FFC7CE"
  else
    let ratio := min (fdiv shortage (float_of_Z 15)) (float_of_Z 1) in
    let '(r_start, g_start, b_start) := (198, 239, 206)%Z in
    let '(r_end, g_end, b_end) := (255, 199, 206)%Z in
    r ← int_of_float (fadd (float_of_Z r_start) (fmul (float_of_Z (r_end - r_start)) ratio));
    g ← int_of_float (fadd (float_of_Z g_start) (fmul (float_of_Z (g_end - g_start)) ratio));
    b ← int_of_float (fadd (float_of_Z b_start) (fmul (float_of_Z (b_end - b_start)) ratio));
    Ok (format_02X r ++ format_02X g ++ format_02X b)%string.

(** The cells and fill written for one label once [current] is known:
    the body of the [if avg_use is not None] block. *)
Definition predict_row (idx : nat) (current : float) (avg_use : cell)
    (state : worksheet * gmap (nat * nat) string)
    : result (worksheet * gmap (nat * nat) string) :=
  let '(pred_ws, fills) := state in
  match avg_use with
  | Some avg_use =>
      match to_float avg_use with
      | Ok a =>
          let prediction := fmul a (float_of_Z 7) in
          let pred_ws := set_cell pred_ws idx 3 (Some (VNum (round2 prediction))) in
          if fge current prediction then
            Ok (set_cell pred_ws idx 4 (Some (VStr "Adequate Stock")),
                <[(idx, 4) := "00B050"]> fills)
          else
            let shortage := fsub prediction current in
            let pred_ws := set_cell pred_ws idx 4 (Some (VNum (round2 shortage))) in
            match _get_shortage_color shortage with
            | Ok color => Ok (pred_ws, <[(idx, 4) := color]> fills)
            | Raise e =>
                if is_value_or_type_error e then Ok (pred_ws, fills) else Raise e
            end
      | Raise e =>
          if is_value_or_type_error e then Ok (pred_ws, fills) else Raise e
      end
  | None => Ok (pred_ws, fills)
  end.

Definition read_current_stock (history_ws : worksheet) (latest_col : nat)
    (labels : list value) : result (dict float) :=
  foldM (λ current_stock_map il,
           match cell_value history_ws il.1 latest_col with
           | Some stock =>
               match to_float stock with
               | Ok x => Ok (dict_set current_stock_map il.2 x)
               | Raise e =>
                   if is_value_or_type_error e then Ok current_stock_map else Raise e
               end
           | None => Ok current_stock_map
           end)
        [] (enumerate 2 labels).

Definition update_predictions (st : store) : result store :=
  match st with
  | None => Raise FileNotFoundError
  | Some f =>
      let wb := load_workbook f in
      avg_ws ← get_sheet wb (sheet_names "average");
      history_ws ← get_sheet wb (sheet_names "history");
      let labels := _get_existing_labels avg_ws in
      let latest_col := max_column history_ws in
      current_stock_map ← read_current_stock history_ws latest_col labels;
      let pred_ws := cleared_sheet wb (sheet_names "predictions") in
      let pred_ws := set_cell pred_ws 1 1 (Some (VStr "Label")) in
      let pred_ws := set_cell pred_ws 1 2 (Some (VStr "Current Stock")) in
      let pred_ws := set_cell pred_ws 1 3 (Some (VStr "Weekly Prediction")) in
      let pred_ws := set_cell pred_ws 1 4 (Some (VStr "Status")) in
      '(pred_ws, fills) ←
        foldM (λ (state : worksheet * gmap (nat * nat) string) il,
                 let '(pred_ws, fills) := state in
                 let pred_ws := set_cell pred_ws il.1 1 (Some il.2) in
                 let current :=
                   default (float_of_Z 0) (dict_get current_stock_map il.2) in
                 let pred_ws := set_cell pred_ws il.1 2 (Some (VNum current)) in
                 let avg_use := cell_value avg_ws il.1 2 in
                 predict_row il.1 current avg_use (pred_ws, fills))
              (pred_ws, ∅) (enumerate 2 labels);
      let wb := set_sheet wb (sheet_names "predictions") pred_ws in
      let wb := _organize_sheets {| sheets := sheets wb; fills := fills |} in
      Ok (Some (save_workbook wb))
  end.

(** *** entry points *)

(** The readable input files and the output file. *)
Record world := {
  tables : gmap string DataFrame;
  output : option file
}.

(** A computation that reads and writes files and may raise; what was
    written before an exception stays written. *)
Definition io (A : Type) : Type := world → result A * world.

Definition io_ret {A} (a : A) : io A := λ w, (Ok a, w).

Definition io_bind {A B} (m : io A) (k : A → io B) : io B :=
  λ w, match m w with
       | (Ok a, w') => k a w'
       | (Raise e, w') => (Raise e, w')
       end.

Definition io_raise {A} (e : exn) : io A := λ w, (Raise e, w).

Definition io_of_result {A} (r : result A) : io A := λ w, (r, w).

(** A method that loads the output file and saves it at its end. *)
Definition on_output (op : store → result store) : io unit :=
  λ w, match op (output w) with
       | Ok st => (Ok tt, {| tables := tables w; output := st |})
       | Raise e => (Raise e, w)
       end.

Definition extract_columns (file_path : string) (column_headers : list string)
    : io (list (string * list value)) :=
  λ w, match tables w !! file_path with
       | Some df => (extract_from df column_headers, w)
       | None => (Raise FileNotFoundError, w)
       end.

Definition input_exists (input_file : string) : io bool :=
  λ w, (Ok (bool_decide (is_Some (tables w !! input_file))), w).

Definition process_inventory (input_file sale_number : string)
    (label_column stock_column : string) : io unit :=
  io_bind (input_exists input_file) (λ found,
  if negb found then io_raise FileNotFoundError else
  io_bind (extract_columns input_file [label_column; stock_column]) (λ data,
  io_bind (io_of_result (data_get data label_column)) (λ labels,
  io_bind (io_of_result (data_get data stock_column)) (λ stock,
  io_bind (on_output (update_inventory_history labels stock sale_number)) (λ _,
  io_bind (on_output update_sales_differences) (λ _,
  io_bind (on_output update_average_use) (λ _,
  on_output update_predictions))))))).

Definition process_restock (input_file : string)
    (label_column stock_column : string) : io unit :=
  io_bind (input_exists input_file) (λ found,
  if negb found then io_raise FileNotFoundError else
  io_bind (extract_columns input_file [label_column; stock_column]) (λ data,
  io_bind (io_of_result (data_get data label_column)) (λ labels,
  io_bind (io_of_result (data_get data stock_column)) (λ stock,
  io_bind (on_output (_update_inventory_history_restock labels stock)) (λ _,
  io_bind (on_output update_sales_differences) (λ _,
  io_bind (on_output update_average_use) (λ _,
  on_output update_predictions))))))).

(** The three calls in the [try] block of [ExcelLoaderGUI.recompute]:
    an exception of one of them leaves the block.  The handler around
    them is [ExcelLoaderGUI.recompute] below. *)
Definition recompute : io unit :=
  io_bind (on_output update_sales_differences) (λ _,
  io_bind (on_output update_average_use) (λ _,
  on_output update_predictions)).

End Inventory.

(** ** The window *)
Module ExcelLoaderGUI.
Import Py Inventory.

(** The dialog a method ends with: [messagebox.showinfo(title, message)]
    or [messagebox.showerror(title, ...)], the latter with the exception
    whose text the message shows. *)
Inductive messagebox :=
| showinfo (title message : string)
| showerror (title : string) (e : exn).

(** [recompute]: the three calls under [try], [except Exception] around
    them; the method itself never raises. *)
Definition recompute : io messagebox :=
  λ w, match Inventory.recompute w with
       | (Ok _, w') =>
           (Ok (showinfo "Success" "Analysis sheets recomputed successfully!"), w')
       | (Raise e, w') => (Ok (showerror "Error" e), w')
       end.

End ExcelLoaderGUI.

(** ** The specification's own definitions

  Each definition here follows the words of the specification, not the
  code; the theorems compare the two. *)
Module Spec.
Import Py Sheet Inventory.

(** One channel of the severity colour: the start value plus the
    difference to the end value times the ratio, truncated. *)
Definition channel (start stop : Z) (ratio : float) : result Z :=
  int_of_float (fadd (float_of_Z start) (fmul (float_of_Z (stop - start)) ratio)).

(** Severity colour: the severe endpoint from 15 on, else the linear
    interpolation with ratio [shortage / 15]. *)
Definition severity_color (shortage : float) : result string :=
  if fge shortage (float_of_Z 15) then Ok "FFC7CE"
  else
    let ratio := fdiv shortage (float_of_Z 15) in
    r ← channel 198 255 ratio;
    g ← channel 239 199 ratio;
    b ← channel 206 206 ratio;
    Ok (format_02X r ++ format_02X g ++ format_02X b)%string.

(** A present, numeric cell and its number. *)
Definition numeric (c : cell) : option float :=
  v ← c; match to_float v with Ok x => Some x | Raise _ => None end.

(** The arithmetic mean: the sum divided by the count. *)
Definition mean (l : list float) : float :=
  fdiv (foldl fadd (float_of_Z 0) l) (float_of_Z (Z.of_nat (length l))).

(** Average entry of a label from its delta cells: the mean, rounded to
    two decimals, of the present numeric deltas that are at least 0;
    absent when there is none. *)
Definition average_entry (deltas : list cell) : option float :=
  match filter (λ d, fge d (float_of_Z 0) = true) (omap numeric deltas) with
  | [] => None
  | kept => Some (round2 (mean kept))
  end.

(** Difference cell of a label for a qualifying pair: the first value
    minus the second when both are present and numeric, else absent. *)
Definition difference_cell (value1 value2 : cell) : option float :=
  x ← numeric value1; y ← numeric value2; Some (fsub x y).

(** The consecutiveness policy for an adjacent pair of events: two sales
    whose numbers differ by exactly one, or a restock followed by a sale. *)
Definition consecutive (first second : entry) : Prop :=
  match first, second with
  | Sale a, Sale b => (b - a = 1)%Z
  | Restock, Sale _ => True
  | _, _ => False
  end.

(** The adjacent pairs of a sequence, left to right. *)
Definition adjacent_pairs {A} (l : list A) : list (A * A) := zip l (tail l).

(** The pairs of inventory columns that yield a difference column, with
    the header of that column, in order of discovery. *)
Definition emitted (inventory_columns : list inventory_column)
    : list (inventory_column * inventory_column * string) :=
  omap (λ p : inventory_column * inventory_column,
          (λ diff_header, (p, diff_header)) <$> diff_header_of p.1 p.2)
       (adjacent_pairs inventory_columns).

(** The cells of row [idx] in the difference columns (B onwards). *)
Definition delta_cells (d : gmap (nat * nat) value) (idx : nat) : list cell :=
  (λ col, d !! (idx, col)) <$> seq 2 (max_column d - 1).

(** The kinds of event and the append operation of the ledger. *)
Inductive event_kind :=
| SaleEvent (sale_number : string)
| RestockEvent.

Record event := {
  ev_labels : list value;
  ev_quantities : list value;
  ev_kind : event_kind
}.

Definition appendEvent (ev : event) (st : store) : result store :=
  match ev_kind ev with
  | SaleEvent sale_number =>
      update_inventory_history (ev_labels ev) (ev_quantities ev) sale_number st
  | RestockEvent =>
      _update_inventory_history_restock (ev_labels ev) (ev_quantities ev) st
  end.

(** A sequence of appends, stopping at the first that raises. *)
Definition appendEvents (evs : list event) (st : store) : result store :=
  foldM (λ st ev, appendEvent ev st) st evs.

(** The persisted ledger sheet (empty when there is none yet). *)
Definition ledger (st : store) : gmap (nat * nat) value :=
  default ∅ (f ← st; file_sheets f !! sheet_names "history").

(** The headers of the event columns, left to right. *)
Definition event_headers (st : store) : list (option value) :=
  (λ c, ledger st !! (1, c)) <$> seq 2 (max_column (ledger st) - 1).

(** The label set of the ledger, as every operation reads it back. *)
Definition ledger_labels (st : store) : list value :=
  _get_existing_labels (load (ledger st)).

(** The value recorded for a label in the event column [c]: the cell in
    the row of the label's first occurrence in column A. *)
Definition recorded (st : store) (label : value) (c : nat) : option value :=
  '(i, _) ← list_find (λ v, v = Some label)
               ((λ r, ledger st !! (r, 1)) <$> seq 2 (max_row (ledger st) - 1));
  ledger st !! (i + 2, c).

(** The order-preserving union of a label set with the labels of an
    event: the prior labels as they stand, then every label not yet
    present, in the order it is first seen.  Labels are compared as
    dictionary keys. *)
Definition ordered_union (prior new : list value) : list value :=
  foldl (λ acc label,
           if existsb (key_eqb label) acc then acc else acc ++ [label])
        prior new.

End Spec.

(** ** Notions used in the proofs *)
Module Notions.
Import Py Sheet Inventory.

(** Keys that are equal as dictionary keys have the same normal form:
    the two zeros are one key. *)
Definition key_norm (v : value) : value :=
  match v with
  | VNum (S754_zero _) => VNum (S754_zero false)
  | _ => v
  end.

(** The keys of a dictionary after one more key was stored. *)
Definition add_key (ks : list value) (k : value) : list value :=
  if decide (key_norm k ∈ key_norm <$> ks) then ks else ks ++ [k].

(** What a realignment may change: it keeps every cell present, adds
    cells only below the header row in the event columns, and a value
    it changes is emptied or lies in one of the first [N] rows. *)
Definition touched (cmax N : nat) (ws ws' : worksheet) : Prop :=
  (∀ r c, is_Some (ws !! (r, c)) → is_Some (ws' !! (r, c))) ∧
  (∀ r c, is_Some (ws' !! (r, c)) →
          is_Some (ws !! (r, c)) ∨ (2 ≤ r ∧ 2 ≤ c ≤ cmax)) ∧
  (∀ r c, cell_value ws' r c = cell_value ws r c ∨
          (2 ≤ r ∧ 2 ≤ c ∧ (cell_value ws' r c = None ∨ r ≤ N))).

(** A label that the read-back of column A keeps: truthy and not the
    header text. *)
Definition accepted (label : value) : Prop := label_guard (Some label) = true.

(** Column A of the ledger lists [labels] below the header, and the
    sheet has no row beyond them. *)
Definition lists_labels (h : stored) (labels : list value) : Prop :=
  (∀ i label, labels !! i = Some label → h !! (i + 2, 1) = Some label) ∧
  max_row h ≤ length labels + 1.

(** Zero, or a finite value of magnitude at most [2 ^ k]. *)
Definition finite_below (k : Z) (x : float) : Prop :=
  match x with
  | S754_zero _ => True
  | S754_finite _ m e => (e ≤ k)%Z ∧ (Z.pos m ≤ 2 ^ (k - e))%Z
  | _ => False
  end.

(** A cell value that is no number, or a well-formed binary64 number. *)
Definition well_formed (v : value) : bool :=
  match to_float v with
  | Ok x => valid_binary prec emax x
  | Raise _ => true
  end.

(** A sheet whose numbers are all well-formed. *)
Definition well_formed_cells (s : stored) : Prop :=
  map_Forall (λ _ v, well_formed v = true) s.

(** The status cell of a label: the text when the stock covers the
    product, else the shortage rounded to two decimals. *)
Definition status (current prediction : float) : value :=
  if fge current prediction then VStr "Adequate Stock"
  else VNum (round2 (fsub prediction current)).

(** The cells one pass of the loop over the labels writes in its row. *)
Definition prediction_cells (current_stock_map : dict float)
    (avg_ws ws : worksheet) (il : nat * value) : worksheet :=
  let current := default (float_of_Z 0) (dict_get current_stock_map il.2) in
  let ws := set_cell ws il.1 1 (Some il.2) in
  let ws := set_cell ws il.1 2 (Some (VNum current)) in
  match Spec.numeric (cell_value avg_ws il.1 2) with
  | Some a =>
      let prediction := fmul a (float_of_Z 7) in
      set_cell (set_cell ws il.1 3 (Some (VNum (round2 prediction))))
        il.1 4 (Some (status current prediction))
  | None => ws
  end.

(** What one iteration of the loop over adjacent pairs does. *)
Definition pair_step (h : stored) (labels : list value) (state : worksheet * nat)
    (p : inventory_column * inventory_column) : worksheet * nat :=
  match diff_header_of p.1 p.2 with
  | None => state
  | Some diff_header =>
      (foldl (λ ws (il : nat * value),
                match (λ x, Some (VNum x)) <$>
                      Spec.difference_cell (h !! (il.1, col p.1)) (h !! (il.1, col p.2)) with
                | Some v => set_cell ws il.1 state.2 v
                | None => ws
                end)
             (set_cell state.1 1 state.2 (Some (VStr diff_header)))
             (enumerate 2 labels),
       state.2 + 1)
  end.

(** The content of the difference column of an emitted pair at row [r],
    over a cell that held [old]. *)
Definition pair_cell (h : stored) (labels : list value)
    (e : inventory_column * inventory_column * string)
    (r : nat) (old : option value) : option value :=
  if decide (r = 1) then Some (VStr e.2)
  else match labels !! (r - 2) with
       | Some _ =>
           if decide (2 ≤ r)
           then default old ((λ x, Some (VNum x)) <$>
                    Spec.difference_cell (h !! (r, col e.1.1)) (h !! (r, col e.1.2)))
           else old
       | None => old
       end.
(** An operation that rewrites the sheet named by [key] and no other:
    the new file keeps every other sheet of the four known names as it
    was, and has no sheet of another name. *)
Definition rewrites_only (key : string) (st st' : store) : Prop :=
  ∃ f', st' = Some f' ∧
        is_Some (file_sheets f' !! sheet_names key) ∧
        ∀ name, name ≠ sheet_names key →
                file_sheets f' !! name =
                if str_in name desired_order
                then f ← st; file_sheets f !! name
                else None.

(** A character of a text as a cell stores it: printable ASCII. *)
Definition printable (c : ascii) : bool :=
  let n := nat_of_ascii c in (32 <=? n) && (n <=? 126).

(** A text that a cell takes and a saved sheet gives back as it is.
    openpyxl raises [IllegalCharacterError] on a control character (none
    of which is printable), cuts a text after 32767 characters, and drops
    the escape mark [x005F_] from a text it reads. *)
Definition legal_text (s : string) : bool :=
  forallb printable (list_ascii_of_string s) &&
  (Z.of_nat (String.length s) <=? 32767)%Z &&
  String.eqb (replace s "x005F_" "") s.

(** A number that a saved sheet gives back exactly: a whole number of
    at most 15 digits (16 significant digits are written). *)
Definition whole (x : float) : Prop :=
  ∃ n : Z, (Z.abs n < 10 ^ 15)%Z ∧ x = float_of_Z n.

(** A value that a saved sheet gives back as it was written: a legal
    text that is not empty (the empty text is stored as an empty cell),
    or a whole number (NaN and the infinities are stored as an empty
    cell, other numbers rounded to 16 significant digits). *)
Definition storable (v : value) : Prop :=
  match v with
  | VStr s => s ≠ "" ∧ legal_text s = true
  | VNum x => whole x
  end.

(** A label that the ledger stores as it is and that the read-back of
    column A keeps. *)
Definition proper_label (label : value) : Prop :=
  storable label ∧ accepted label.

(** An event whose labels, quantities and header the ledger stores as
    they are. *)
Definition storable_event (ev : Spec.event) : Prop :=
  Forall storable (Spec.ev_labels ev) ∧
  Forall storable (Spec.ev_quantities ev) ∧
  match Spec.ev_kind ev with
  | Spec.SaleEvent sale_number => legal_text ("Sale " ++ sale_number) = true
  | Spec.RestockEvent => True
  end.

(** Such an event whose labels the read-back of column A keeps. *)
Definition plain_event (ev : Spec.event) : Prop :=
  storable_event ev ∧ Forall accepted (Spec.ev_labels ev).

(** A list of labels without NaN. *)
Definition nan_free (labels : list value) : Prop :=
  Forall (λ label, label ≠ VNum S754_nan) labels.
End Notions.

(** ** Concrete ledgers and events *)
Module Examples.
Import Py Sheet Inventory.

(** The ledger with events Sale 1, Sale 3, Sale 4 and one item. *)
Definition ledger_1_3_4 : gmap (nat * nat) value :=
  {[ (1, 1) := VStr "Label"; (1, 2) := VStr "Sale 1"; (1, 3) := VStr "Sale 3";
     (1, 4) := VStr "Sale 4"; (2, 1) := VStr "A"; (2, 2) := VNum (float_of_Z 10);
     (2, 3) := VNum (float_of_Z 8); (2, 4) := VNum (float_of_Z 5) ]}.

(** The output file that holds just that ledger. *)
Definition file_1_3_4 : file :=
  {| file_sheets := {[ sheet_names "history" := ledger_1_3_4 ]}; file_fills := ∅ |}.

(** Sale 1 with the items [A] and [Label]. *)
Definition sale_A_Label : Spec.event :=
  {| Spec.ev_labels := [VStr "A"; VStr "Label"];
     Spec.ev_quantities := [VNum (float_of_Z 1); VNum (float_of_Z 2)];
     Spec.ev_kind := Spec.SaleEvent "1" |}.

(** Sale 1 with the items [Label] and [A]. *)
Definition sale_Label_A : Spec.event :=
  {| Spec.ev_labels := [VStr "Label"; VStr "A"];
     Spec.ev_quantities := [VNum (float_of_Z 1); VNum (float_of_Z 2)];
     Spec.ev_kind := Spec.SaleEvent "1" |}.

(** Sale 2 with the item [B]. *)
Definition sale_B : Spec.event :=
  {| Spec.ev_labels := [VStr "B"];
     Spec.ev_quantities := [VNum (float_of_Z 5)];
     Spec.ev_kind := Spec.SaleEvent "2" |}.

(** An average sheet with the average use 0.1 for [A]. *)
Definition average_tenth : gmap (nat * nat) value :=
  {[ (1, 1) := VStr "Label"; (1, 2) := VStr "Average Use";
     (2, 1) := VStr "A"; (2, 2) := VNum (float_of_ratio false 1 10) ]}.

(** A ledger with the stock 0.7 of [A] in its only event. *)
Definition ledger_seven_tenths : gmap (nat * nat) value :=
  {[ (1, 1) := VStr "Label"; (1, 2) := VStr "Sale 1";
     (2, 1) := VStr "A"; (2, 2) := VNum (float_of_ratio false 7 10) ]}.

(** The output file with these two sheets. *)
Definition file_tenths : file :=
  {| file_sheets := {[ sheet_names "average" := average_tenth;
                       sheet_names "history" := ledger_seven_tenths ]};
     file_fills := ∅ |}.

(** Sales 1 and 2 with the stocks 0.8 and 0.7 of [A]. *)
Definition sale_eight_tenths : Spec.event :=
  {| Spec.ev_labels := [VStr "A"];
     Spec.ev_quantities := [VNum (float_of_ratio false 8 10)];
     Spec.ev_kind := Spec.SaleEvent "1" |}.

Definition sale_seven_tenths : Spec.event :=
  {| Spec.ev_labels := [VStr "A"];
     Spec.ev_quantities := [VNum (float_of_ratio false 7 10)];
     Spec.ev_kind := Spec.SaleEvent "2" |}.

(** Sale 3 with the items [A] and [B]. *)
Definition sale_A_B : Spec.event :=
  {| Spec.ev_labels := [VStr "A"; VStr "B"];
     Spec.ev_quantities := [VNum (float_of_Z 8); VNum (float_of_Z 3)];
     Spec.ev_kind := Spec.SaleEvent "3" |}.

(** Sale 2 with the item [A] alone. *)
Definition sale_A : Spec.event :=
  {| Spec.ev_labels := [VStr "A"];
     Spec.ev_quantities := [VNum (float_of_Z 3)];
     Spec.ev_kind := Spec.SaleEvent "2" |}.

(** A ledger with the label 0 in the row above the label [C]. *)
Definition ledger_zero_above : gmap (nat * nat) value :=
  {[ (1, 1) := VStr "Label"; (1, 2) := VStr "Sale 1"; (1, 3) := VStr "Sale 2";
     (2, 1) := VNum (float_of_Z 0); (2, 2) := VNum (float_of_Z 9);
     (2, 3) := VNum (float_of_Z 4);
     (3, 1) := VStr "C"; (3, 2) := VNum (float_of_Z 100);
     (3, 3) := VNum (float_of_Z 50) ]}.

Definition file_zero_above : file :=
  {| file_sheets := {[ sheet_names "history" := ledger_zero_above ]};
     file_fills := ∅ |}.

(** The output file with the average use 0.1 for [A] and the ledger of
    the events Sale 1, Sale 3, Sale 4. *)
Definition file_average_1_3_4 : file :=
  {| file_sheets := {[ sheet_names "average" := average_tenth;
                       sheet_names "history" := ledger_1_3_4 ]};
     file_fills := ∅ |}.
End Examples.

Import Notions Examples.

(** * Properties *)

(** ** The extractor *)
Section Extractor.
Import Py Sheet Inventory.
Implicit Types (df : DataFrame) (col : string) (w : world).

Lemma str_in_true x (l : list string) : str_in x l = true ↔ x ∈ l.
Proof.
  unfold str_in. rewrite existsb_exists. split.
  - intros (y & Hy & Heq). apply String.eqb_eq in Heq. subst. by apply list_elem_of_In.
  - intros Hx. exists x. split; [by apply list_elem_of_In | apply String.eqb_refl].
Qed.

Lemma str_in_false x (l : list string) : str_in x l = false ↔ x ∉ l.
Proof.
  rewrite <- str_in_true. destruct (str_in x l); split; congruence.
Qed.

Lemma column_index_Some df col :
  col ∈ df_columns df → ∃ pos, column_index df col = Some pos ∧ df_columns df !! pos = Some col.
Proof.
  intros Hin. unfold column_index.
  destruct (list_find (λ c, String.eqb col c = true) (df_columns df)) as [[pos c]|] eqn:Hf.
  - apply list_find_Some in Hf as (Hl & Hc & _). apply String.eqb_eq in Hc. subst.
    eauto.
  - apply list_find_None in Hf. rewrite Forall_forall in Hf.
    specialize (Hf col Hin). rewrite String.eqb_refl in Hf. done.
Qed.

Lemma column_index_first df col pos :
  column_index df col = Some pos →
  df_columns df !! pos = Some col ∧ ∀ j, j < pos → df_columns df !! j ≠ Some col.
Proof.
  unfold column_index.
  destruct (list_find _ _) as [[p c]|] eqn:Hf; [|done].
  intros [= <-]. apply list_find_Some in Hf as (Hl & Hc & Hlt).
  apply String.eqb_eq in Hc. subst. split; [done|].
  intros j Hj Hlj. specialize (Hlt j c Hlj Hj). rewrite String.eqb_refl in Hlt. done.
Qed.

Lemma df_tolist_Some df col pos :
  column_index df col = Some pos →
  df_tolist df col = Ok ((λ row, row_cell row pos) <$> df_rows df).
Proof. unfold df_tolist. by intros ->. Qed.

Lemma data_get_two (k1 k2 : string) (v1 v2 : list value) :
  let d := str_dict_set (str_dict_set [] k1 v1) k2 v2 in
  data_get d k2 = Ok v2 ∧ data_get d k1 = Ok (if String.eqb k1 k2 then v2 else v1).
Proof.
  unfold str_dict_set, data_get, str_in. simpl.
  destruct (String.eqb k2 k1) eqn:E; simpl.
  - apply String.eqb_eq in E. subst. rewrite String.eqb_refl. simpl.
    rewrite !decide_True by apply String.eqb_refl. done.
  - assert (E' : String.eqb k1 k2 = false) by (by rewrite String.eqb_sym).
    rewrite E', !String.eqb_refl.
    rewrite decide_False by done.
    rewrite !decide_True by done. done.
Qed.

(** C9.  Given a tabular source, [extract_columns] leaves every file as
    it was; when both named columns are in the header it returns, under
    the two names, the two columns as equally long sequences whose i-th
    entries come from the i-th row; when one of them is absent it raises
    the [ValueError] naming exactly the absent ones. *)
Theorem extract_columns_contract w (file_path label_column stock_column : string) df :
  tables w !! file_path = Some df →
  let run := extract_columns file_path [label_column; stock_column] w in
  run.2 = w ∧
  ((label_column ∈ df_columns df ∧ stock_column ∈ df_columns df) →
     ∃ data labels stock pl ps,
       run.1 = Ok data ∧
       data_get data label_column = Ok labels ∧
       data_get data stock_column = Ok stock ∧
       column_index df label_column = Some pl ∧
       column_index df stock_column = Some ps ∧
       length labels = length (df_rows df) ∧
       length stock = length (df_rows df) ∧
       ∀ i row, df_rows df !! i = Some row →
                labels !! i = Some (row_cell row pl) ∧
                stock !! i = Some (row_cell row ps)) ∧
  ((label_column ∉ df_columns df ∨ stock_column ∉ df_columns df) →
     ∃ missing,
       run.1 = Raise (ValueError missing) ∧
       missing ≠ [] ∧
       ∀ c, c ∈ missing ↔ c ∈ [label_column; stock_column] ∧ c ∉ df_columns df).
Proof.
  intros Hdf. unfold extract_columns. rewrite Hdf. simpl.
  split; [done|]. split.
  - intros [Hl Hs].
    destruct (column_index_Some df _ Hl) as (pl & Hpl & _).
    destruct (column_index_Some df _ Hs) as (ps & Hps & _).
    unfold extract_from.
    assert (Hnil : filter (λ col, str_in col (df_columns df) = false)
                     [label_column; stock_column] = []).
    { rewrite !filter_cons, filter_nil.
      rewrite !decide_False; [done| |]; rewrite str_in_false; tauto. }
    rewrite Hnil. simpl. unfold foldM. simpl.
    rewrite (df_tolist_Some _ _ _ Hpl). simpl.
    rewrite (df_tolist_Some _ _ _ Hps). simpl.
    pose proof (data_get_two label_column stock_column
                  ((λ row, row_cell row pl) <$> df_rows df)
                  ((λ row, row_cell row ps) <$> df_rows df)) as [Hg2 Hg1].
    simpl in Hg1, Hg2.
    eexists _, _, _, pl, ps. split; [reflexivity|].
    split; [exact Hg1|]. split; [exact Hg2|].
    split; [done|]. split; [done|].
    destruct (String.eqb label_column stock_column) eqn:E.
    + apply String.eqb_eq in E. subst stock_column.
      assert (pl = ps) by congruence. subst ps.
      rewrite !length_fmap. split; [done|]. split; [done|].
      intros i row Hrow. rewrite !list_lookup_fmap, Hrow. done.
    + rewrite !length_fmap. split; [done|]. split; [done|].
      intros i row Hrow. rewrite !list_lookup_fmap, Hrow. done.
  - intros Hmiss. unfold extract_from.
    set (missing := filter _ _).
    assert (Hchar : ∀ c, c ∈ missing ↔
              c ∈ [label_column; stock_column] ∧ c ∉ df_columns df).
    { intros c. unfold missing. rewrite list_elem_of_filter, str_in_false. tauto. }
    assert (Hne : missing ≠ []).
    { intros Hnil.
      destruct Hmiss as [H|H].
      - assert (label_column ∈ missing) as Hin.
        { apply Hchar. split; [repeat constructor | done]. }
        rewrite Hnil in Hin. by apply elem_of_nil in Hin.
      - assert (stock_column ∈ missing) as Hin.
        { apply Hchar. split; [repeat constructor | done]. }
        rewrite Hnil in Hin. by apply elem_of_nil in Hin. }
    destruct missing as [|m0 ms] eqn:Hm; [done|]. simpl.
    exists (m0 :: ms). split; [done|]. split; [done|]. exact Hchar.
Qed.

Lemma extract_columns_contract_witness :
  let w := {| tables := {[ "in.xlsx" := {| df_columns := ["Label"; "Stock"];
                                           df_rows := [[VStr "A"; VNum (float_of_Z 10)]] |} ]};
              output := None |} in
  (extract_columns "in.xlsx" ["Label"; "Stock"] w).2 = w.
Proof.
  intros w.
  exact (proj1 (extract_columns_contract w "in.xlsx" "Label" "Stock" _ eq_refl)).
Defined.
End Extractor.

(** ** Rounding in binary64 *)
Section Binary64.
Import Py.
Local Open Scope Z_scope.

Lemma digits2_pos_size p : digits2_pos p = Pos.size p.
Proof. induction p; simpl; congruence. Qed.

Lemma Zdigits2_upper m : 0 ≤ m → m < 2 ^ Zdigits2 m.
Proof.
  destruct m as [|p|p]; simpl; [lia| |lia]. intros _.
  rewrite digits2_pos_size.
  pose proof (Pos.size_gt p) as H.
  apply Pos2Z.pos_lt_pos in H. rewrite Pos2Z.inj_pow in H. exact H.
Qed.

Lemma Zdigits2_lt m k : 0 ≤ m → 0 ≤ k → m < 2 ^ k → Zdigits2 m ≤ k.
Proof.
  destruct m as [|p|p]; cbn [Zdigits2]; [lia| |lia]. intros _ Hk Hm.
  rewrite digits2_pos_size.
  pose proof (Pos.size_le p) as H.
  apply Pos2Z.pos_le_pos in H. rewrite Pos2Z.inj_pow in H.
  destruct (Z_lt_le_dec k (Z.pos (Pos.size p))) as [Hlt|]; [|done].
  assert (H0 : 2 ^ (k + 1) ≤ 2 ^ Z.pos (Pos.size p)) by (apply Z.pow_le_mono_r; lia).
  rewrite Z.pow_add_r in H0 by lia. change (2 ^ 1) with 2 in H0. lia.
Qed.

Lemma shr_1_m r : 0 ≤ shr_m r → shr_m (shr_1 r) = shr_m r / 2.
Proof.
  destruct r as [m rb sb]. simpl. intros Hm.
  destruct m as [|[p|p|]|p]; cbn [shr_1 shr_m]; try lia; try done.
  - apply Z.div_unique with 1; lia.
  - apply Z.div_unique with 0; lia.
Qed.

Lemma shr_1_nonneg r : 0 ≤ shr_m r → 0 ≤ shr_m (shr_1 r).
Proof. intros H. rewrite shr_1_m by done. apply Z.div_pos; lia. Qed.

Lemma iter_shr_1_m p r :
  0 ≤ shr_m r →
  0 ≤ shr_m (SpecFloat.iter_pos shr_1 p r) ∧
  shr_m (SpecFloat.iter_pos shr_1 p r) = shr_m r / 2 ^ Z.pos p.
Proof.
  revert r. induction p as [p IH|p IH|]; intros r Hr; cbn [SpecFloat.iter_pos].
  - pose proof (shr_1_nonneg r Hr) as H1.
    destruct (IH _ H1) as [H2 E2]. destruct (IH _ H2) as [H3 E3].
    split; [done|]. rewrite E3, E2, shr_1_m by done.
    assert (Hp : 0 < 2 ^ Z.pos p) by (apply Z.pow_pos_nonneg; lia).
    assert (E : 2 ^ Z.pos p~1 = 2 * (2 ^ Z.pos p * 2 ^ Z.pos p)).
    { replace (Z.pos p~1) with (1 + Z.pos p + Z.pos p) by lia.
      rewrite !Z.pow_add_r by lia. change (2 ^ 1) with 2. lia. }
    rewrite E. rewrite !Z.div_div by lia. done.
  - destruct (IH _ Hr) as [H2 E2]. destruct (IH _ H2) as [H3 E3].
    split; [done|]. rewrite E3, E2.
    assert (Hp : 0 < 2 ^ Z.pos p) by (apply Z.pow_pos_nonneg; lia).
    assert (E : 2 ^ Z.pos p~0 = 2 ^ Z.pos p * 2 ^ Z.pos p).
    { replace (Z.pos p~0) with (Z.pos p + Z.pos p) by lia.
      rewrite !Z.pow_add_r by lia. done. }
    rewrite E. rewrite !Z.div_div by lia. done.
  - split; [by apply shr_1_nonneg|]. rewrite shr_1_m by done. done.
Qed.

Lemma shr_record_of_loc_m m l : shr_m (shr_record_of_loc m l) = m.
Proof. by destruct l as [|[]]. Qed.

(** The mantissa and exponent after the shift to the exponent of the
    format. *)
Lemma shr_fexp_spec m e l :
  0 ≤ m →
  let n := fexp prec emax (Zdigits2 m + e) - e in
  let '(mrs, e') := shr_fexp prec emax m e l in
  0 ≤ shr_m mrs ∧
  ((0 < n ∧ shr_m mrs = m / 2 ^ n ∧ e' = e + n) ∨ (n ≤ 0 ∧ shr_m mrs = m ∧ e' = e)).
Proof.
  intros Hm n. unfold shr_fexp, shr. fold n.
  destruct n as [|p|p] eqn:Hn.
  - rewrite shr_record_of_loc_m. split; [done|]. right. done.
  - destruct (iter_shr_1_m p (shr_record_of_loc m l)) as [H1 H2].
    { by rewrite shr_record_of_loc_m. }
    rewrite shr_record_of_loc_m in H2. split; [done|]. left. split; [lia|]. done.
  - rewrite shr_record_of_loc_m. split; [done|]. right. split; [lia|done].
Qed.

Lemma round_nearest_even_bounds m l :
  m ≤ round_nearest_even m l ≤ m + 1.
Proof. destruct l as [|[]]; simpl; try lia. destruct (Z.even m); lia. Qed.

(** A value below one rounds to at most one. *)
Lemma binary_round_le_one mx ex lx :
  0 ≤ mx → ex ≤ -53 → mx < 2 ^ (- ex) →
  flt (float_of_Z 1) (binary_round_aux prec emax false mx ex lx) = false.
Proof.
  intros Hmx Hex Hlt. unfold binary_round_aux.
  pose proof (shr_fexp_spec mx ex lx Hmx) as H1. simpl in H1.
  destruct (shr_fexp prec emax mx ex lx) as [mrs1 e1].
  destruct H1 as [Hm1 H1].
  assert (Hd : Zdigits2 mx + ex ≤ 0).
  { pose proof (Zdigits2_lt mx (- ex) Hmx). lia. }
  assert (He1 : e1 ≤ -53 ∧ shr_m mrs1 < 2 ^ (- e1)).
  { unfold fexp, emin, prec, emax in H1.
    destruct H1 as [(Hn & -> & ->)|(Hn & -> & ->)]; [|done].
    split; [lia|].
    apply Z.div_lt_upper_bound; [apply Z.pow_pos_nonneg; lia|].
    rewrite <- Z.pow_add_r by lia.
    replace (_ + _) with (- ex) by lia. done. }
  clear H1. destruct He1 as [He1 Hlt1].
  set (m2 := round_nearest_even _ _).
  assert (Hm2 : 0 ≤ m2 ≤ 2 ^ (- e1)).
  { pose proof (round_nearest_even_bounds (shr_m mrs1) (loc_of_shr_record mrs1)) as H.
    fold m2 in H. lia. }
  pose proof (shr_fexp_spec m2 e1 loc_Exact (proj1 Hm2)) as H2. simpl in H2.
  destruct (shr_fexp prec emax m2 e1 loc_Exact) as [mrs3 e3].
  destruct H2 as [Hm3 H2].
  assert (Hd2 : Zdigits2 m2 + e1 ≤ 1).
  { pose proof (Zdigits2_lt m2 (- e1 + 1) (proj1 Hm2)) as H.
    rewrite Z.pow_add_r in H by lia. change (2 ^ 1) with 2 in H. lia. }
  assert (He3 : e3 ≤ -52 ∧ shr_m mrs3 ≤ 2 ^ (- e3)).
  { unfold fexp, emin, prec, emax in H2.
    destruct H2 as [(Hn & -> & ->)|(Hn & -> & ->)]; [|split; lia].
    split; [lia|].
    apply Z.div_le_upper_bound; [apply Z.pow_pos_nonneg; lia|].
    rewrite <- Z.pow_add_r by lia.
    replace (_ + _) with (- e1) by lia. lia. }
  clear H2. destruct He3 as [He3 Hle3].
  destruct (shr_m mrs3) as [|p|p] eqn:E3; [done| |lia].
  unfold emax, prec.
  rewrite (proj2 (Z.leb_le e3 (1024 - 53))) by lia.
  change (float_of_Z 1) with (S754_finite false 4503599627370496 (-52)).
  unfold flt, SFltb, SFcompare.
  destruct (Z.compare_spec (-52) e3) as [Heq|Hl|Hg]; [|lia|done].
  subst e3. change (2 ^ (- (-52))) with 4503599627370496 in Hle3.
  change (PosDef.Pos.compare_cont Eq 4503599627370496 p)
    with (Pos.compare 4503599627370496 p).
  destruct (Pos.compare_spec 4503599627370496 p) as [?|Hl|?]; [done| |done].
  exfalso. apply Pos2Z.pos_lt_pos in Hl. lia.
Qed.

(** The exact quotient by fifteen of a positive value below fifteen, as
    the division hands it to the rounding. *)
Lemma SFdiv_core_lt_fifteen m e :
  canonical_mantissa prec emax m e = true →
  fge (S754_finite false m e) (float_of_Z 15) = false →
  let '(mz, ez, lz) := SFdiv_core_binary prec emax (Z.pos m) e 8444249301319680 (-49) in
  0 ≤ mz ∧ ez ≤ -53 ∧ mz < 2 ^ (- ez).
Proof.
  intros Hcan Hlt.
  unfold canonical_mantissa, fexp, emin, prec, emax in Hcan.
  apply Z.eqb_eq in Hcan.
  assert (Hm : Z.pos m < 2 ^ 53).
  { pose proof (Zdigits2_upper (Z.pos m) ltac:(lia)) as Hu. simpl in Hu.
    eapply Z.lt_le_trans; [exact Hu|]. apply Z.pow_le_mono_r; lia. }
  assert (Hs : e < -49 ∨ (e = -49 ∧ Z.pos m < 8444249301319680)).
  { change (float_of_Z 15) with (S754_finite false 8444249301319680 (-49)) in Hlt.
    unfold fge, SFleb, SFcompare in Hlt.
    destruct (Z.compare_spec (-49) e) as [Heq|Hl|Hg]; [|done|left; lia].
    right. split; [done|].
    change (PosDef.Pos.compare_cont Eq 8444249301319680 m)
      with (Pos.compare 8444249301319680 m) in Hlt.
    destruct (Pos.compare_spec 8444249301319680 m) as [?|Hl|?]; [done|done|].
    by apply Pos2Z.pos_lt_pos. }
  unfold SFdiv_core_binary.
  change (Zdigits2 8444249301319680) with 53.
  set (d1 := Zdigits2 (Z.pos m)).
  assert (Hd1 : d1 + e ≤ 4).
  { unfold d1. simpl. lia. }
  set (e' := Z.min _ _).
  assert (He' : e' ≤ -53 ∧ e' ≤ e + 49).
  { unfold e', fexp, emin, prec, emax. lia. }
  set (s := e - -49 - e').
  assert (Hs0 : 0 ≤ s) by (unfold s; lia).
  set (m' := match s with 0 => Z.pos m | Z.pos _ => Z.shiftl (Z.pos m) s | Z.neg _ => 0 end).
  assert (Hm' : m' = Z.pos m * 2 ^ s).
  { unfold m'. destruct s eqn:Es; [simpl; lia| |lia].
    by rewrite Z.shiftl_mul_pow2. }
  clearbody m'. subst m'.
  change (IntDef.Z.div_eucl (Z.pos m * 2 ^ s) 8444249301319680)
    with (Z.div_eucl (Z.pos m * 2 ^ s) 8444249301319680).
  pose proof (Z_div_mod (Z.pos m * 2 ^ s) 8444249301319680 ltac:(lia)) as Hdiv.
  destruct (Z.div_eucl (Z.pos m * 2 ^ s) 8444249301319680) as [q r].
  destruct Hdiv as [Hq Hr].
  assert (Hps : 0 < 2 ^ s) by (apply Z.pow_pos_nonneg; lia).
  assert (Hq0 : 0 ≤ q) by nia.
  split; [done|]. split; [lia|].
  assert (E : 2 ^ (- e') = 2 ^ s * 2 ^ (- e - 49)).
  { rewrite <- Z.pow_add_r by lia. f_equal. unfold s. lia. }
  rewrite E.
  assert (Hb : Z.pos m < 8444249301319680 * 2 ^ (- e - 49)).
  { destruct Hs as [Hs|[-> Hs]]; [|simpl; lia].
    assert (H : 2 ^ 1 ≤ 2 ^ (- e - 49)) by (apply Z.pow_le_mono_r; lia).
    change (2 ^ 1) with 2 in H. change (2 ^ 53) with 9007199254740992 in Hm. lia. }
  nia.
Qed.

Lemma binary_round_aux_sign sx mx ex lx :
  match binary_round_aux prec emax sx mx ex lx with
  | S754_zero s | S754_infinity s | S754_finite s _ _ => s = sx
  | S754_nan => True
  end.
Proof.
  unfold binary_round_aux.
  destruct (shr_fexp prec emax mx ex lx) as [mrs1 e1].
  destruct (shr_fexp prec emax _ e1 loc_Exact) as [mrs3 e3].
  destruct (shr_m mrs3); [done| |done].
  by destruct (e3 <=? emax - prec).
Qed.

(** Dividing a binary64 value below fifteen by fifteen never exceeds
    one. *)
Lemma div_fifteen_le_one x :
  valid_binary prec emax x = true →
  fge x (float_of_Z 15) = false →
  flt (float_of_Z 1) (fdiv x (float_of_Z 15)) = false.
Proof.
  intros Hv Hlt. destruct x as [s|s| |s m e]; try done.
  - by destruct s.
  - change (float_of_Z 15) with (S754_finite false 8444249301319680 (-49)).
    destruct s; cbn [fdiv SFdiv xorb].
    + pose proof (binary_round_aux_sign true
        (SFdiv_core_binary prec emax (Z.pos m) e 8444249301319680 (-49)).1.1
        (SFdiv_core_binary prec emax (Z.pos m) e 8444249301319680 (-49)).1.2
        (SFdiv_core_binary prec emax (Z.pos m) e 8444249301319680 (-49)).2) as Hsg.
      destruct (SFdiv_core_binary prec emax (Z.pos m) e 8444249301319680 (-49))
        as [[mz ez] lz]. simpl in Hsg.
      destruct (binary_round_aux prec emax true mz ez lz); try done; by subst.
    + simpl in Hv. apply andb_true_iff in Hv as [Hcan _].
      pose proof (SFdiv_core_lt_fifteen m e Hcan Hlt) as Hcore.
      destruct (SFdiv_core_binary prec emax (Z.pos m) e 8444249301319680 (-49))
        as [[mz ez] lz].
      destruct Hcore as (H0 & H1 & H2).
      by apply binary_round_le_one.
Qed.
End Binary64.

(** ** The severity colour *)
Section ShortageColor.
Import Py Inventory.

(** The clamp of the ratio at 1 never applies below fifteen. *)
Lemma shortage_color_unclamped (shortage : float) :
  valid_binary prec emax shortage = true →
  _get_shortage_color shortage = Spec.severity_color shortage.
Proof.
  intros Hv. unfold _get_shortage_color, Spec.severity_color.
  destruct (fge shortage (float_of_Z 15)) eqn:Hge; [done|].
  unfold min. rewrite (div_fifteen_le_one shortage Hv Hge). done.
Qed.

(** C6.  For every binary64 shortage the colour computed by the code is
    the one the specification defines: ["FFC7CE"] from 15 on, and below
    15 the three channels [start + (end - start) * (shortage / 15)]
    truncated and written as two upper-case hexadecimal digits each (the
    clamp of the ratio at 1 in the code never applies there).  Shortage 0
    gives ["C6EFCE"]; shortages 15 and 30 give ["FFC7CE"]. *)
Theorem shortage_color_spec (shortage : float) :
  valid_binary prec emax shortage = true →
  _get_shortage_color shortage = Spec.severity_color shortage ∧
  _get_shortage_color (float_of_Z 0) = Ok "C6EFCE" ∧
  _get_shortage_color (float_of_Z 15) = Ok "FFC7CE" ∧
  _get_shortage_color (float_of_Z 30) = Ok "FFC7CE".
Proof.
  intros Hv. split; [by apply shortage_color_unclamped|by vm_compute].
Qed.

Lemma shortage_color_spec_witness :
  _get_shortage_color (float_of_Z 14) = Spec.severity_color (float_of_Z 14).
Proof.
  exact (proj1 (shortage_color_spec (float_of_Z 14) eq_refl)).
Defined.

(** Shortage 14 is close to the severe endpoint. *)
Example shortage_color_14 : _get_shortage_color (float_of_Z 14) = Ok "FBC9CE".
Proof. by vm_compute. Qed.
End ShortageColor.

(** ** Well-formed binary64 values *)
Section Validity.
Import Py.
Local Open Scope Z_scope.

Lemma Zdigits2_lower m : 0 < m → 2 ^ (Zdigits2 m - 1) ≤ m.
Proof.
  destruct m as [|p|p]; cbn [Zdigits2]; [lia| |lia]. intros _.
  rewrite digits2_pos_size.
  pose proof (Pos.size_le p) as H.
  apply Pos2Z.pos_le_pos in H. rewrite Pos2Z.inj_pow in H.
  replace (Z.pos (Pos.size p)) with (Z.pos (Pos.size p) - 1 + 1) in H by lia.
  rewrite Z.pow_add_r in H by lia. change (2 ^ 1) with 2 in H. lia.
Qed.

Lemma Zdigits2_pos m : 0 < m → 0 < Zdigits2 m.
Proof. destruct m; cbn [Zdigits2]; lia. Qed.

Lemma Zdigits2_unique m j : 2 ^ (j - 1) ≤ m < 2 ^ j → 0 < m → Zdigits2 m = j.
Proof.
  intros [Hlo Hhi] Hm.
  assert (Hj : 0 < j).
  { destruct (Z_lt_le_dec 0 j) as [|Hle]; [done|].
    destruct (Z.eq_dec j 0) as [->|]; [change (2 ^ 0) with 1 in Hhi; lia|].
    rewrite Z.pow_neg_r in Hhi by lia. lia. }
  pose proof (Zdigits2_lt m j ltac:(lia) ltac:(lia) Hhi) as H1.
  pose proof (Zdigits2_upper m ltac:(lia)) as H2.
  pose proof (Zdigits2_pos m Hm) as H3.
  destruct (Z_lt_le_dec (Zdigits2 m) j) as [Hlt|]; [|lia].
  assert (2 ^ Zdigits2 m ≤ 2 ^ (j - 1)) by (apply Z.pow_le_mono_r; lia). lia.
Qed.

Lemma Zdigits2_mono m m' : 0 ≤ m ≤ m' → Zdigits2 m ≤ Zdigits2 m'.
Proof.
  intros [H0 Hle]. pose proof (Zdigits2_upper m' ltac:(lia)).
  apply Zdigits2_lt; [done| |lia]. destruct m'; cbn [Zdigits2]; lia.
Qed.

Lemma Zdigits2_div m n :
  0 < m → 0 ≤ n < Zdigits2 m → Zdigits2 (m / 2 ^ n) = Zdigits2 m - n.
Proof.
  intros Hm Hn.
  pose proof (Zdigits2_lower m Hm) as Hlo.
  pose proof (Zdigits2_upper m ltac:(lia)) as Hhi.
  assert (Hp : 0 < 2 ^ n) by (apply Z.pow_pos_nonneg; lia).
  assert (Hq : 2 ^ (Zdigits2 m - n - 1) ≤ m / 2 ^ n).
  { apply Z.div_le_lower_bound; [done|].
    rewrite <- Z.pow_add_r by lia.
    replace (n + (Zdigits2 m - n - 1)) with (Zdigits2 m - 1) by lia. done. }
  apply Zdigits2_unique.
  - split; [done|]. apply Z.div_lt_upper_bound; [done|].
    rewrite <- Z.pow_add_r by lia.
    replace (n + (Zdigits2 m - n)) with (Zdigits2 m) by lia. done.
  - assert (0 < 2 ^ (Zdigits2 m - n - 1)) by (apply Z.pow_pos_nonneg; lia). lia.
Qed.

Lemma Zdigits2_mul m n :
  0 < m → 0 ≤ n → Zdigits2 (m * 2 ^ n) = Zdigits2 m + n.
Proof.
  intros Hm Hn.
  pose proof (Zdigits2_lower m Hm) as Hlo.
  pose proof (Zdigits2_upper m ltac:(lia)) as Hhi.
  pose proof (Zdigits2_pos m Hm) as Hd.
  assert (Hp : 0 < 2 ^ n) by (apply Z.pow_pos_nonneg; lia).
  apply Zdigits2_unique; [|nia].
  replace (Zdigits2 m + n - 1) with (Zdigits2 m - 1 + n) by lia.
  rewrite !Z.pow_add_r by lia. nia.
Qed.

Lemma fexp_mono a b : a ≤ b → fexp prec emax a ≤ fexp prec emax b.
Proof. unfold fexp. lia. Qed.

Lemma fexp_emin a : emin prec emax ≤ fexp prec emax a.
Proof. unfold fexp. lia. Qed.

(** The shift to the exponent of the format leaves a mantissa that is
    canonical at its exponent, or none at the least exponent. *)
Lemma shr_fexp_canonical m e l :
  0 < m → e ≤ fexp prec emax (Zdigits2 m + e) →
  let '(mrs, e') := shr_fexp prec emax m e l in
  0 ≤ shr_m mrs ∧
  (0 < shr_m mrs → fexp prec emax (Zdigits2 (shr_m mrs) + e') = e') ∧
  (shr_m mrs = 0 → e' = emin prec emax).
Proof.
  intros Hm He.
  pose proof (shr_fexp_spec m e l ltac:(lia)) as H. cbn zeta in H.
  destruct (shr_fexp prec emax m e l) as [mrs e'].
  destruct H as [H0 [(Hn & Hq & ->)|(Hn & Hq & ->)]]; (split; [done|]).
  - set (n := fexp prec emax (Zdigits2 m + e) - e) in *.
    destruct (Z_lt_le_dec n (Zdigits2 m)) as [Hlt|Hge].
    + split.
      * intros _. rewrite Hq, Zdigits2_div by lia.
        replace (Zdigits2 m - n + (e + n)) with (Zdigits2 m + e) by lia.
        unfold n. lia.
      * intros Hz. rewrite Hq in Hz.
        pose proof (Zdigits2_lower m Hm).
        assert (2 ^ n ≤ m).
        { etrans; [|done]. apply Z.pow_le_mono_r; lia. }
        assert (0 < 2 ^ n) by (apply Z.pow_pos_nonneg; lia).
        assert (1 ≤ m / 2 ^ n) by (apply Z.div_le_lower_bound; lia). lia.
    + assert (Hz : shr_m mrs = 0).
      { rewrite Hq. apply Z.div_small. split; [lia|].
        pose proof (Zdigits2_upper m ltac:(lia)).
        assert (2 ^ Zdigits2 m ≤ 2 ^ n) by (apply Z.pow_le_mono_r; lia). lia. }
      split; [lia|]. intros _.
      unfold n in *. unfold fexp, emin, prec, emax in *. lia.
  - rewrite Hq. split; [intros _; lia|lia].
Qed.

(** Rounding a mantissa that carries no more precision than the format
    asks for gives a well-formed value. *)
Lemma binary_round_aux_valid sx mx ex lx :
  0 < mx → ex ≤ fexp prec emax (Zdigits2 mx + ex) →
  valid_binary prec emax (binary_round_aux prec emax sx mx ex lx) = true.
Proof.
  intros Hmx Hex. unfold binary_round_aux.
  pose proof (shr_fexp_canonical mx ex lx Hmx Hex) as H1.
  destruct (shr_fexp prec emax mx ex lx) as [mrs1 e1].
  destruct H1 as (H0 & Hcan1 & Hzero1).
  set (m2 := round_nearest_even _ _).
  pose proof (round_nearest_even_bounds (shr_m mrs1) (loc_of_shr_record mrs1)) as Hm2.
  fold m2 in Hm2.
  destruct (Z.eq_dec m2 0) as [E2|N2].
  { rewrite E2. unfold shr_fexp at 1. cbn [Zdigits2 shr_record_of_loc].
    unfold shr. destruct (fexp prec emax (0 + e1) - e1) as [|p|p] eqn:En; [done| |done].
    cbn [fst snd].
    pose proof (iter_shr_1_m p {| shr_m := 0; shr_r := false; shr_s := false |}
                  ltac:(simpl; lia)) as [_ Hq].
    cbn [shr_m] in Hq. rewrite Z.div_0_l in Hq by (apply Z.pow_nonzero; lia).
    by rewrite Hq. }
  assert (He1 : e1 ≤ fexp prec emax (Zdigits2 m2 + e1)).
  { destruct (Z.eq_dec (shr_m mrs1) 0) as [Ez|Nz].
    - rewrite (Hzero1 Ez). apply fexp_emin.
    - rewrite <- (Hcan1 ltac:(lia)) at 1. apply fexp_mono.
      pose proof (Zdigits2_mono (shr_m mrs1) m2 ltac:(lia)). lia. }
  pose proof (shr_fexp_canonical m2 e1 loc_Exact ltac:(lia) He1) as H3.
  destruct (shr_fexp prec emax m2 e1 loc_Exact) as [mrs3 e3].
  destruct H3 as (H30 & Hcan3 & _).
  destruct (shr_m mrs3) as [|p|p] eqn:E3; [done| |done].
  destruct (e3 <=? emax - prec) eqn:Hle; [|done].
  cbn [valid_binary]. unfold bounded, canonical_mantissa.
  rewrite Hle, andb_true_r. apply Z.eqb_eq.
  apply (Hcan3 ltac:(lia)).
Qed.

Lemma shl_align_spec mx ex ex' :
  let '(mz, ez) := shl_align mx ex ex' in
  ez = Z.min ex ex' ∧ Z.pos mz = Z.pos mx * 2 ^ (ex - ez).
Proof.
  unfold shl_align. destruct (ex' - ex) as [|d|d] eqn:E.
  - split; [lia|]. rewrite Z.sub_diag. simpl. lia.
  - split; [lia|]. rewrite Z.sub_diag. simpl. lia.
  - split; [lia|]. replace (ex - ex') with (Z.pos d) by lia.
    change (Pos.iter xO mx d) with (Zpower.shift_pos d mx).
    rewrite Zpower.shift_pos_correct, Z.pow_pos_fold. lia.
Qed.
Lemma binary_round_valid sx mx ex :
  valid_binary prec emax (binary_round prec emax sx mx ex) = true.
Proof.
  unfold binary_round.
  pose proof (shl_align_spec mx ex (fexp prec emax (Z.pos (digits2_pos mx) + ex))) as H.
  destruct (shl_align mx ex _) as [mz ez]. destruct H as [Hez Hmz].
  apply binary_round_aux_valid; [lia|].
  rewrite Hmz, Zdigits2_mul by lia. cbn [Zdigits2].
  replace (Z.pos (digits2_pos mx) + (ex - ez) + ez)
    with (Z.pos (digits2_pos mx) + ex) by lia. lia.
Qed.

Lemma binary_normalize_valid m e szero :
  valid_binary prec emax (binary_normalize prec emax m e szero) = true.
Proof. destruct m; [done|apply binary_round_valid..]. Qed.

Lemma fsub_valid x y :
  valid_binary prec emax x = true → valid_binary prec emax y = true →
  valid_binary prec emax (fsub x y) = true.
Proof.
  intros Hx Hy. destruct x as [sx|sx| |sx mx ex], y as [sy|sy| |sy my ey];
    try done; try (by destruct sx, sy).
  apply binary_normalize_valid.
Qed.

(** What being canonical says of a mantissa and its exponent. *)
Lemma canonical_mantissa_spec m e :
  canonical_mantissa prec emax m e = true →
  Z.pos m < 2 ^ 53 ∧ -1074 ≤ e ∧ (-1074 < e → 2 ^ 52 ≤ Z.pos m).
Proof.
  unfold canonical_mantissa, fexp, emin, prec, emax. intros H%Z.eqb_eq.
  pose proof (Zdigits2_upper (Z.pos m) ltac:(lia)) as Hhi.
  pose proof (Zdigits2_lower (Z.pos m) ltac:(lia)) as Hlo.
  cbn [Zdigits2] in Hhi, Hlo.
  split; [|split; [lia|]].
  - assert (2 ^ Z.pos (digits2_pos m) ≤ 2 ^ 53) by (apply Z.pow_le_mono_r; lia). lia.
  - intros He. replace (Z.pos (digits2_pos m) - 1) with 52 in Hlo by lia. done.
Qed.

(** Multiplying by a normal number keeps a value well-formed. *)
Lemma fmul_normal_valid x sy my ey :
  2 ^ 52 ≤ Z.pos my →
  valid_binary prec emax (fmul x (S754_finite sy my ey)) = true.
Proof.
  intros Hmy. destruct x as [sx|sx| |sx mx ex]; try done.
  cbn [fmul SFmul]. apply binary_round_aux_valid; [lia|].
  assert (Hd : 53 ≤ Zdigits2 (Z.pos (mx * my))).
  { destruct (Z_lt_le_dec (Zdigits2 (Z.pos (mx * my))) 53) as [Hlt|]; [|done].
    pose proof (Zdigits2_upper (Z.pos (mx * my)) ltac:(lia)) as Hhi.
    assert (2 ^ Zdigits2 (Z.pos (mx * my)) ≤ 2 ^ 52) by (apply Z.pow_le_mono_r; lia).
    rewrite Pos2Z.inj_mul in *. nia. }
  unfold fexp, emin, prec, emax. lia.
Qed.

(** The order of two well-formed positive values, on their mantissas
    brought to the lesser exponent. *)
Lemma finite_compare_Gt mx ex my ey :
  canonical_mantissa prec emax mx ex = true →
  canonical_mantissa prec emax my ey = true →
  match (ex ?= ey) with
  | Lt => Lt
  | Gt => Gt
  | Eq => PosDef.Pos.compare_cont Eq mx my
  end = Gt →
  Z.pos my * 2 ^ (ey - Z.min ex ey) < Z.pos mx * 2 ^ (ex - Z.min ex ey).
Proof.
  intros Hx%canonical_mantissa_spec Hy%canonical_mantissa_spec Hc.
  destruct (Z.compare_spec ex ey) as [->|Hlt|Hgt]; [|done|].
  - rewrite Z.min_id, Z.sub_diag. change (2 ^ 0) with 1.
    change (PosDef.Pos.compare_cont Eq mx my) with (Pos.compare mx my) in Hc.
    apply Pos.compare_gt_iff in Hc. lia.
  - rewrite Z.min_r by lia. rewrite Z.sub_diag. change (2 ^ 0) with 1.
    assert (2 ^ 1 ≤ 2 ^ (ex - ey)) by (apply Z.pow_le_mono_r; lia).
    change (2 ^ 1) with 2 in *. change (2 ^ 52) with 4503599627370496 in *.
    change (2 ^ 53) with 9007199254740992 in *. nia.
Qed.

(** A difference [x - y] taken when [y >= x] does not hold is not
    negative. *)
Lemma fsub_sign x y :
  valid_binary prec emax x = true → valid_binary prec emax y = true →
  fge y x = false →
  match fsub x y with
  | S754_infinity s | S754_finite s _ _ => s = false
  | _ => True
  end.
Proof.
  intros Hx Hy Hge. unfold fge, SFleb in Hge.
  destruct x as [sx|sx| |sx mx ex], y as [sy|sy| |sy my ey];
    try done; try (by destruct sx, sy); try (by destruct sx); try (by destruct sy).
  cbn [valid_binary] in Hx, Hy. unfold bounded in Hx, Hy.
  apply andb_true_iff in Hx as [Hx _]. apply andb_true_iff in Hy as [Hy _].
  cbn [fsub SFsub].
  pose proof (shl_align_spec mx ex (Z.min ex ey)) as Ax.
  pose proof (shl_align_spec my ey (Z.min ex ey)) as Ay.
  destruct (shl_align mx ex _) as [mx' ex'], (shl_align my ey _) as [my' ey'].
  cbn [fst]. destruct Ax as [-> Ax], Ay as [-> Ay].
  replace (Z.min ex (Z.min ex ey)) with (Z.min ex ey) in Ax by lia.
  replace (Z.min ey (Z.min ex ey)) with (Z.min ex ey) in Ay by lia.
  assert (Hpos : 0 < cond_Zopp sx (Z.pos mx') - cond_Zopp sy (Z.pos my')).
  { cbn [SFcompare] in Hge. destruct sx, sy; cbn [cond_Zopp]; try done; try lia.
    - assert (Hc : match (ey ?= ex) with
                   | Lt => Lt
                   | Gt => Gt
                   | Eq => PosDef.Pos.compare_cont Eq my mx
                   end = Gt).
      { rewrite (Z.compare_antisym ex ey).
        destruct (ex ?= ey); cbn [CompOpp] in *; try done.
        change (PosDef.Pos.compare_cont Eq mx my) with (Pos.compare mx my) in Hge.
        change (PosDef.Pos.compare_cont Eq my mx) with (Pos.compare my mx).
        rewrite (Pos.compare_antisym mx my).
        by destruct (mx ?= my)%positive. }
      pose proof (finite_compare_Gt my ey mx ex Hy Hx Hc) as H.
      rewrite (Z.min_comm ey ex) in H. lia.
    - assert (Hc : match (ex ?= ey) with
                   | Lt => Lt
                   | Gt => Gt
                   | Eq => PosDef.Pos.compare_cont Eq mx my
                   end = Gt).
      { destruct (ex ?= ey); try done.
        by destruct (PosDef.Pos.compare_cont Eq mx my). }
      pose proof (finite_compare_Gt mx ex my ey Hx Hy Hc) as H. lia. }
  destruct (cond_Zopp sx (Z.pos mx') - cond_Zopp sy (Z.pos my')) as [|p|p];
    [done| |lia].
  cbn [binary_normalize]. unfold binary_round.
  destruct (shl_align p _ _) as [mz ez].
  pose proof (binary_round_aux_sign false (Z.pos mz) ez loc_Exact) as Hs.
  by destruct (binary_round_aux prec emax false (Z.pos mz) ez loc_Exact).
Qed.

Lemma finite_below_mono k k' x : k ≤ k' → finite_below k x → finite_below k' x.
Proof.
  intros Hk. destruct x as [| | |s m e]; try done. intros [He Hm].
  split; [lia|]. etrans; [done|]. apply Z.pow_le_mono_r; lia.
Qed.

Lemma finite_below_int k x : finite_below k x → ∃ z, int_of_float x = Ok z.
Proof. destruct x; try done; intros _; by eexists. Qed.

Lemma scaled_le m a b c :
  0 ≤ m ≤ 2 ^ a → 0 ≤ a → 0 ≤ b → a + b ≤ c → m * 2 ^ b ≤ 2 ^ c.
Proof.
  intros Hm Ha Hb Hc. transitivity (2 ^ a * 2 ^ b).
  - apply Z.mul_le_mono_nonneg_r; [apply Z.pow_nonneg; lia|lia].
  - rewrite <- Z.pow_add_r by lia. apply Z.pow_le_mono_r; lia.
Qed.

(** Rounding keeps a magnitude below [2 ^ k] at most [2 ^ k]. *)
Lemma binary_round_aux_below sx mx ex lx k :
  0 ≤ mx → mx < 2 ^ (k - ex) → ex ≤ k → -1074 ≤ k ≤ 971 →
  finite_below k (binary_round_aux prec emax sx mx ex lx).
Proof.
  intros Hmx Hlt Hex Hk. unfold binary_round_aux.
  pose proof (shr_fexp_spec mx ex lx Hmx) as H1. cbn zeta in H1.
  destruct (shr_fexp prec emax mx ex lx) as [mrs1 e1].
  destruct H1 as [Hm1 H1].
  assert (Hd : Zdigits2 mx ≤ k - ex) by (apply Zdigits2_lt; lia).
  assert (He1 : e1 ≤ k ∧ shr_m mrs1 < 2 ^ (k - e1)).
  { unfold fexp, emin, prec, emax in H1.
    destruct H1 as [(Hn & -> & ->)|(Hn & -> & ->)]; [|done].
    split; [lia|].
    apply Z.div_lt_upper_bound; [apply Z.pow_pos_nonneg; lia|].
    rewrite <- Z.pow_add_r by lia.
    replace (_ + _) with (k - ex) by lia. done. }
  clear H1. destruct He1 as [He1 Hlt1].
  set (m2 := round_nearest_even _ _).
  assert (Hm2 : 0 ≤ m2 ≤ 2 ^ (k - e1)).
  { pose proof (round_nearest_even_bounds (shr_m mrs1) (loc_of_shr_record mrs1)) as H.
    fold m2 in H. lia. }
  pose proof (shr_fexp_spec m2 e1 loc_Exact (proj1 Hm2)) as H2. cbn zeta in H2.
  destruct (shr_fexp prec emax m2 e1 loc_Exact) as [mrs3 e3].
  destruct H2 as [Hm3 H2].
  assert (Hd2 : Zdigits2 m2 ≤ k - e1 + 1).
  { apply Zdigits2_lt; [lia..|].
    rewrite Z.pow_add_r by lia. change (2 ^ 1) with 2. lia. }
  assert (He3 : e3 ≤ k ∧ shr_m mrs3 ≤ 2 ^ (k - e3)).
  { unfold fexp, emin, prec, emax in H2.
    destruct H2 as [(Hn & -> & ->)|(Hn & -> & ->)]; [|split; lia].
    split; [lia|].
    apply Z.div_le_upper_bound; [apply Z.pow_pos_nonneg; lia|].
    rewrite <- Z.pow_add_r by lia.
    replace (_ + _) with (k - e1) by lia. lia. }
  clear H2. destruct He3 as [He3 Hle3].
  destruct (shr_m mrs3) as [|p|p] eqn:E3; [done| |lia].
  unfold emax, prec.
  rewrite (proj2 (Z.leb_le e3 (1024 - 53))) by lia. done.
Qed.

Lemma binary_round_below sx mx ex k :
  Z.pos mx < 2 ^ (k - ex) → ex ≤ k → -1074 ≤ k ≤ 971 →
  finite_below k (binary_round prec emax sx mx ex).
Proof.
  intros Hlt Hex Hk. unfold binary_round.
  pose proof (shl_align_spec mx ex (fexp prec emax (Z.pos (digits2_pos mx) + ex))) as H.
  destruct (shl_align mx ex _) as [mz ez]. destruct H as [Hez Hmz].
  apply binary_round_aux_below; [lia| |lia|done].
  rewrite Hmz. replace (k - ez) with (k - ex + (ex - ez)) by lia.
  rewrite Z.pow_add_r by lia.
  assert (0 < 2 ^ (ex - ez)) by (apply Z.pow_pos_nonneg; lia). nia.
Qed.

Lemma fmul_below ka kb x y :
  finite_below ka x → finite_below kb y → -1074 ≤ ka + kb + 1 ≤ 971 →
  finite_below (ka + kb + 1) (fmul x y).
Proof.
  intros Hx Hy Hk. destruct x as [sx| | |sx mx ex], y as [sy| | |sy my ey]; try done.
  destruct Hx as [Hex Hmx], Hy as [Hey Hmy]. cbn [fmul SFmul].
  apply binary_round_aux_below; [lia| |lia|done].
  replace (ka + kb + 1 - (ex + ey)) with ((ka - ex) + (kb - ey) + 1) by lia.
  rewrite !Z.pow_add_r by lia. change (2 ^ 1) with 2.
  assert (0 < 2 ^ (ka - ex)) by (apply Z.pow_pos_nonneg; lia).
  assert (0 < 2 ^ (kb - ey)) by (apply Z.pow_pos_nonneg; lia).
  rewrite Pos2Z.inj_mul. nia.
Qed.

Lemma fadd_below ka kb x y :
  finite_below ka x → finite_below kb y → -1074 ≤ Z.max ka kb + 2 ≤ 971 →
  finite_below (Z.max ka kb + 2) (fadd x y).
Proof.
  intros Hx Hy Hk. destruct x as [sx| | |sx mx ex], y as [sy| | |sy my ey]; try done.
  - by destruct sx, sy.
  - apply (finite_below_mono kb); [lia|done].
  - apply (finite_below_mono ka); [lia|done].
  - destruct Hx as [Hex Hmx], Hy as [Hey Hmy]. cbn [fadd SFadd].
    pose proof (shl_align_spec mx ex (Z.min ex ey)) as Ax.
    pose proof (shl_align_spec my ey (Z.min ex ey)) as Ay.
    destruct (shl_align mx ex _) as [mx' ex'], (shl_align my ey _) as [my' ey'].
    cbn [fst]. destruct Ax as [-> Ax], Ay as [-> Ay].
    replace (Z.min ex (Z.min ex ey)) with (Z.min ex ey) in Ax by lia.
    replace (Z.min ey (Z.min ex ey)) with (Z.min ex ey) in Ay by lia.
    set (ez := Z.min ex ey) in *. set (K := Z.max ka kb) in *.
    assert (Hx' : Z.pos mx' ≤ 2 ^ (K - ez)).
    { rewrite Ax. apply (scaled_le _ (ka - ex)); lia. }
    assert (Hy' : Z.pos my' ≤ 2 ^ (K - ez)).
    { rewrite Ay. apply (scaled_le _ (kb - ey)); lia. }
    assert (Hsum : Z.abs (cond_Zopp sx (Z.pos mx') + cond_Zopp sy (Z.pos my'))
                   < 2 ^ (K + 2 - ez)).
    { replace (K + 2 - ez) with (K - ez + 2) by lia.
      rewrite Z.pow_add_r by lia. change (2 ^ 2) with 4.
      destruct sx, sy; cbn [cond_Zopp]; lia. }
    destruct (cond_Zopp sx (Z.pos mx') + cond_Zopp sy (Z.pos my')) as [|p|p];
      [done|..]; cbn [binary_normalize];
      (apply binary_round_below; [lia|lia|done]).
Qed.

(** A well-formed value from 0 up to 15, divided by 15, is at most 1. *)
Lemma fdiv_fifteen_below m e :
  canonical_mantissa prec emax m e = true →
  fge (S754_finite false m e) (float_of_Z 15) = false →
  finite_below 0 (fdiv (S754_finite false m e) (float_of_Z 15)).
Proof.
  intros Hcan Hlt.
  change (float_of_Z 15) with (S754_finite false 8444249301319680 (-49)) in *.
  cbn [fdiv SFdiv xorb].
  pose proof (SFdiv_core_lt_fifteen m e Hcan Hlt) as Hcore.
  destruct (SFdiv_core_binary prec emax (Z.pos m) e 8444249301319680 (-49))
    as [[mz ez] lz].
  destruct Hcore as (H0 & H1 & H2).
  apply binary_round_aux_below; [done| |lia|lia].
  by rewrite Z.sub_0_l.
Qed.

(** A channel of the severity colour is an integer when the ratio is at
    most 1. *)
Lemma channel_total start stop ratio :
  finite_below 0 ratio →
  finite_below 8 (float_of_Z start) → finite_below 6 (float_of_Z (stop - start)) →
  ∃ z, Spec.channel start stop ratio = Ok z.
Proof.
  intros Hr Hs Hd. unfold Spec.channel.
  apply (finite_below_int (Z.max 8 (6 + 0 + 1) + 2)).
  apply fadd_below; [done| |lia]. apply fmul_below; [done|done|lia].
Qed.

(** No shortage makes the colour computation fail on a number too
    large: it yields a colour, or finds no number at all. *)
Lemma shortage_color_total x y :
  valid_binary prec emax x = true → valid_binary prec emax y = true →
  fge y x = false →
  (∃ color, Inventory._get_shortage_color (fsub x y) = Ok color) ∨
  Inventory._get_shortage_color (fsub x y) = Raise (ValueError []).
Proof.
  intros Hx Hy Hge.
  pose proof (fsub_valid x y Hx Hy) as Hv.
  pose proof (fsub_sign x y Hx Hy Hge) as Hs.
  destruct (fsub x y) as [s|s| |s m e] eqn:E.
  - left. destruct s; eexists; by vm_compute.
  - subst s. left. eexists. by vm_compute.
  - right. by vm_compute.
  - subst s. left. rewrite shortage_color_unclamped by done.
    unfold Spec.severity_color.
    destruct (fge (S754_finite false m e) (float_of_Z 15)) eqn:H15; [by eexists|].
    cbn [valid_binary] in Hv. unfold bounded in Hv.
    apply andb_true_iff in Hv as [Hcan _].
    pose proof (fdiv_fifteen_below m e Hcan H15) as Hr.
    destruct (channel_total 198 255 _ Hr) as [r ->];
      [vm_compute; split; congruence..|].
    destruct (channel_total 239 199 _ Hr) as [g ->];
      [vm_compute; split; congruence..|].
    destruct (channel_total 206 206 _ Hr) as [b ->];
      [vm_compute; split; congruence|done|].
    cbn [mbind result_bind]. by eexists.
Qed.
End Validity.

(** ** Loops *)
Section Loops.
Import Py.
Context {A S : Type}.
Implicit Types (body : S → A → result S) (l : list A) (s : S).

Lemma foldM_raise body e l :
  foldl (λ r a, s' ← r; body s' a) (Raise e) l = Raise e.
Proof. induction l as [|a l IH]; [done|]. simpl. exact IH. Qed.

Lemma foldM_nil body s : foldM body s [] = Ok s.
Proof. done. Qed.

Lemma foldM_cons body s a l :
  foldM body s (a :: l) = (s' ← body s a; foldM body s' l).
Proof.
  unfold foldM. simpl. destruct (body s a) as [s'|e]; simpl; [done|].
  apply foldM_raise.
Qed.

Lemma foldM_app body s l1 l2 :
  foldM body s (l1 ++ l2) = (s' ← foldM body s l1; foldM body s' l2).
Proof.
  revert s. induction l1 as [|a l1 IH]; intros s; [done|].
  rewrite <- app_comm_cons, !foldM_cons.
  destruct (body s a) as [s'|e]; simpl; [apply IH|done].
Qed.

(** A loop whose body never raises is a plain fold. *)
Lemma foldM_pure body (g : S → A → S) s l :
  (∀ s a, a ∈ l → body s a = Ok (g s a)) →
  foldM body s l = Ok (foldl g s l).
Proof.
  revert s. induction l as [|a l IH]; intros s Hb; [done|].
  rewrite foldM_cons, Hb by left. simpl. apply IH.
  intros s' a' Ha'. apply Hb. by right.
Qed.

Lemma foldl_ext_in (g1 g2 : S → A → S) s l :
  (∀ s a, a ∈ l → g1 s a = g2 s a) → foldl g1 s l = foldl g2 s l.
Proof.
  revert s. induction l as [|a l IH]; intros s Hb; [done|].
  simpl. rewrite Hb by left. apply IH. intros s' a' Ha'. apply Hb. by right.
Qed.
End Loops.

Section Enumerate.
Import Py.
Context {A : Type}.
Implicit Types (l : list A).

Lemma enumerate_cons k a l : enumerate k (a :: l) = (k, a) :: enumerate (S k) l.
Proof. done. Qed.

Lemma enumerate_lookup k l i :
  enumerate k l !! i = (λ a, (k + i, a)) <$> l !! i.
Proof.
  revert k i. induction l as [|a l IH]; intros k i; [done|].
  rewrite enumerate_cons. destruct i as [|i]; simpl.
  - by rewrite Nat.add_0_r.
  - rewrite IH. by replace (S k + i) with (k + S i) by lia.
Qed.

Lemma elem_of_enumerate k l idx a :
  (idx, a) ∈ enumerate k l ↔ k ≤ idx ∧ l !! (idx - k) = Some a.
Proof.
  rewrite list_elem_of_lookup. split.
  - intros (i & Hi). rewrite enumerate_lookup in Hi.
    destruct (l !! i) as [a'|] eqn:E; [|done]. simpl in Hi.
    injection Hi as <- <-. split; [lia|]. by replace (k + i - k) with i by lia.
  - intros [Hk Hl]. exists (idx - k). rewrite enumerate_lookup, Hl. simpl.
    by replace (k + (idx - k)) with idx by lia.
Qed.
End Enumerate.

(** ** Worksheets *)
Section Worksheets.
Import Py Sheet.

Lemma max_list_with_le {B} (f : B → nat) (l : list B) n :
  (∀ x, x ∈ l → f x ≤ n) → max_list_with f l ≤ n.
Proof.
  induction l as [|x l IH]; simpl; intros H; [lia|].
  pose proof (H x ltac:(left)).
  assert (max_list_with f l ≤ n) by (apply IH; intros; apply H; by right). lia.
Qed.

Lemma max_list_with_ge {B} (f : B → nat) (l : list B) x :
  x ∈ l → f x ≤ max_list_with f l.
Proof.
  induction 1 as [|?? ? ? IH]; simpl; lia.
Qed.

Lemma max_list_with_attained {B} (f : B → nat) (l : list B) :
  l ≠ [] → ∃ x, x ∈ l ∧ f x = max_list_with f l.
Proof.
  induction l as [|x l IH]; [done|]. intros _. simpl.
  destruct l as [|y l'].
  - exists x. split; [left|simpl; lia].
  - destruct IH as (z & Hz & Ez); [done|].
    destruct (decide (f x ≤ max_list_with f (y :: l'))).
    + exists z. split; [by right|]. lia.
    + exists x. split; [left|]. lia.
Qed.

Context {C : Type}.
Implicit Types (m : gmap (nat * nat) C).

Lemma max_column_ge m r c : is_Some (m !! (r, c)) → c ≤ max_column m.
Proof.
  intros [v Hv]. unfold max_column.
  apply elem_of_map_to_list in Hv.
  pose proof (max_list_with_ge (λ kv : nat * nat * C, kv.1.2) _ _ Hv). simpl in *. lia.
Qed.

Lemma max_row_ge m r c : is_Some (m !! (r, c)) → r ≤ max_row m.
Proof.
  intros [v Hv]. unfold max_row.
  apply elem_of_map_to_list in Hv.
  pose proof (max_list_with_ge (λ kv : nat * nat * C, kv.1.1) _ _ Hv). simpl in *. lia.
Qed.

Lemma max_column_pos m : 1 ≤ max_column m.
Proof. unfold max_column. lia. Qed.

Lemma max_row_pos m : 1 ≤ max_row m.
Proof. unfold max_row. lia. Qed.

Lemma max_column_le m n :
  1 ≤ n → (∀ r c, is_Some (m !! (r, c)) → c ≤ n) → max_column m ≤ n.
Proof.
  intros Hn H. unfold max_column.
  assert (max_list_with (λ kv : nat * nat * C, kv.1.2) (map_to_list m) ≤ n); [|lia].
  apply max_list_with_le. intros [[r c] v] Hin. simpl.
  apply elem_of_map_to_list in Hin. apply (H r c). eauto.
Qed.

Lemma max_row_le m n :
  1 ≤ n → (∀ r c, is_Some (m !! (r, c)) → r ≤ n) → max_row m ≤ n.
Proof.
  intros Hn H. unfold max_row.
  assert (max_list_with (λ kv : nat * nat * C, kv.1.1) (map_to_list m) ≤ n); [|lia].
  apply max_list_with_le. intros [[r c] v] Hin. simpl.
  apply elem_of_map_to_list in Hin. apply (H r c). eauto.
Qed.

End Worksheets.

(** Sheets with the same cells present have the same dimensions. *)
Lemma max_column_same_keys {C D : Type} (m : gmap (nat * nat) C) (m' : gmap (nat * nat) D) :
(∀ k, is_Some (m !! k) ↔ is_Some (m' !! k)) → Sheet.max_column m = Sheet.max_column m'.
Proof.
intros H. apply Nat.le_antisymm.
- apply max_column_le; [apply max_column_pos|].
  intros r c Hs. apply (max_column_ge m' r c). by apply H.
- apply max_column_le; [apply max_column_pos|].
  intros r c Hs. apply (max_column_ge m r c). by apply H.
Qed.

Lemma max_row_same_keys {C D : Type} (m : gmap (nat * nat) C) (m' : gmap (nat * nat) D) :
(∀ k, is_Some (m !! k) ↔ is_Some (m' !! k)) → Sheet.max_row m = Sheet.max_row m'.
Proof.
intros H. apply Nat.le_antisymm.
- apply max_row_le; [apply max_row_pos|].
  intros r c Hs. apply (max_row_ge m' r c). by apply H.
- apply max_row_le; [apply max_row_pos|].
  intros r c Hs. apply (max_row_ge m r c). by apply H.
Qed.

Section LoadSave.
Import Py Sheet.
Implicit Types (s : gmap (nat * nat) value) (ws : gmap (nat * nat) (option value)).

Lemma cell_value_load s r c : cell_value (load s) r c = s !! (r, c).
Proof. unfold cell_value, load. rewrite lookup_fmap. by destruct (s !! (r, c)). Qed.

Lemma max_column_load s : max_column (load s) = max_column s.
Proof.
  apply max_column_same_keys. intros k. unfold load.
  rewrite lookup_fmap. by rewrite fmap_is_Some.
Qed.

Lemma max_row_load s : max_row (load s) = max_row s.
Proof.
  apply max_row_same_keys. intros k. unfold load.
  rewrite lookup_fmap. by rewrite fmap_is_Some.
Qed.

Lemma lookup_save ws r c : save ws !! (r, c) = cell_value ws r c.
Proof. unfold save, cell_value. rewrite lookup_omap. by destruct (ws !! (r, c)). Qed.

Lemma save_load s : save (load s) = s.
Proof.
  apply map_eq. intros [r c]. by rewrite lookup_save, cell_value_load.
Qed.

Lemma cell_value_set_cell ws r c v r' c' :
  cell_value (set_cell ws r c v) r' c' =
  if decide ((r, c) = (r', c')) then v else cell_value ws r' c'.
Proof.
  unfold cell_value, set_cell. rewrite lookup_insert.
  by case_decide.
Qed.

Lemma cell_value_empty r c : cell_value ∅ r c = None.
Proof. unfold cell_value. by rewrite lookup_empty. Qed.

(** Deleting every row leaves no cell in any row from 1 on. *)
Lemma cell_value_delete_all_rows ws r c :
  1 ≤ r → cell_value (delete_rows 1 (max_row ws) ws) r c = None.
Proof.
  intros Hr. unfold cell_value, delete_rows.
  rewrite (not_elem_of_list_to_map_1 _ (r, c)); [done|].
  rewrite list_elem_of_fmap. intros ([[r' c'] v] & Heq & Hin).
  simpl in Heq. apply list_elem_of_omap in Hin as ([[r0 c0] v0] & Hin & Hf).
  apply elem_of_map_to_list in Hin.
  pose proof (max_row_ge ws r0 c0 (mk_is_Some _ _ Hin)) as Hmax.
  destruct (r0 <? 1) eqn:E1.
  - apply Nat.ltb_lt in E1. injection Hf as <- <- <-. injection Heq as -> ->. lia.
  - destruct (r0 <? 1 + max_row ws) eqn:E2; [done|].
    apply Nat.ltb_ge in E2. lia.
Qed.
End LoadSave.

(** ** Loops that write one row per iteration *)
Section RowLoops.
Import Py Sheet.
Context {A : Type}.
Implicit Types (ws : gmap (nat * nat) (option value)) (l : list A).

(** The cell [(r, c)] after a loop over [enumerate(l, k)] whose body
    touches only its own row, in a way [F] describes. *)
Lemma cell_value_foldl_rows
    (step : gmap (nat * nat) (option value) → nat * A → gmap (nat * nat) (option value))
    (F : nat * A → nat → cell → cell) ws k l r c :
  (∀ ws il r c,
      cell_value (step ws il) r c =
      if decide (r = il.1) then F il c (cell_value ws r c) else cell_value ws r c) →
  cell_value (foldl step ws (enumerate k l)) r c =
  match l !! (r - k) with
  | Some a => if decide (k ≤ r) then F (r, a) c (cell_value ws r c) else cell_value ws r c
  | None => cell_value ws r c
  end.
Proof.
  intros Hstep. revert k ws. induction l as [|a l IH]; intros k ws; [done|].
  rewrite enumerate_cons. simpl. rewrite IH, Hstep. simpl.
  destruct (decide (r = k)) as [->|Hne].
  - replace (k - k) with 0 by lia. simpl.
    rewrite decide_True by lia.
    destruct (l !! (k - S k)); [|done]. by rewrite decide_False by lia.
  - destruct (decide (k ≤ r)) as [Hle|Hgt].
    + replace (r - k) with (S (r - S k)) by lia. simpl.
      destruct (l !! (r - S k)); [|done]. by rewrite decide_True by lia.
    + replace (r - k) with 0 by lia. simpl.
      destruct (l !! (r - S k)); [|done]. by rewrite decide_False by lia.
Qed.

(** A loop that writes, in column [c0], the cell [g il] of each row
    that has one. *)
Lemma cell_value_foldl_column (g : nat * A → option cell) (c0 : nat) ws k l r c :
  cell_value
    (foldl (λ ws il, match g il with
                     | Some v => set_cell ws il.1 c0 v
                     | None => ws
                     end) ws (enumerate k l)) r c =
  match l !! (r - k) with
  | Some a =>
      if decide (k ≤ r ∧ c = c0)
      then default (cell_value ws r c) (g (r, a))
      else cell_value ws r c
  | None => cell_value ws r c
  end.
Proof.
  rewrite (cell_value_foldl_rows _
             (λ il c old, if decide (c = c0) then default old (g il) else old)).
  - destruct (l !! (r - k)); [|done].
    destruct (decide (k ≤ r)), (decide (c = c0));
      try (rewrite decide_True by done); try (rewrite decide_False by tauto); done.
  - clear. intros ws [idx a] r c. simpl.
    destruct (g (idx, a)) as [v|] eqn:E; simpl.
    + rewrite cell_value_set_cell.
      destruct (decide (r = idx)) as [->|]; destruct (decide (c = c0)) as [->|];
        try (rewrite decide_True by done); try (rewrite decide_False by congruence); done.
    + by destruct (decide (r = idx)), (decide (c = c0)).
Qed.
End RowLoops.

(** ** Labels *)
Section Labels.
Import Py Sheet Inventory.
Implicit Types (ws : gmap (nat * nat) (option value)) (labels : list value).

Lemma cell_value_write_labels ws labels r c :
  cell_value (_write_labels_to_column ws labels) r c =
  if decide (c = 1) then
    if decide (r = 1) then Some (VStr "Label")
    else match labels !! (r - 2) with
         | Some label => if decide (2 ≤ r) then Some label else cell_value ws r c
         | None => cell_value ws r c
         end
  else cell_value ws r c.
Proof.
  unfold _write_labels_to_column.
  rewrite (cell_value_foldl_column (λ il, Some (Some il.2)) 1).
  rewrite cell_value_set_cell. simpl.
  destruct (labels !! (r - 2)) eqn:E; repeat case_decide; simplify_eq;
    try done; try lia; try tauto.
Qed.

(** The label of row [i + 2] after the labels were written. *)
Lemma cell_value_write_labels_row ws labels i label :
  labels !! i = Some label →
  cell_value (_write_labels_to_column ws labels) (i + 2) 1 = Some label.
Proof.
  intros H. rewrite cell_value_write_labels.
  rewrite decide_True by done. rewrite decide_False by lia.
  replace (i + 2 - 2) with i by lia. rewrite H. by rewrite decide_True by lia.
Qed.

Lemma cell_value_write_labels_other ws labels r c :
  c ≠ 1 → cell_value (_write_labels_to_column ws labels) r c = cell_value ws r c.
Proof. intros H. rewrite cell_value_write_labels. by rewrite decide_False. Qed.
End Labels.

(** ** Workbooks *)
Section Workbooks.
Import Py Sheet Inventory.

Lemma get_sheet_load f name s :
  file_sheets f !! name = Some s →
  get_sheet (load_workbook f) name = Ok (load s).
Proof. intros H. unfold get_sheet, load_workbook. simpl. by rewrite lookup_fmap, H. Qed.

Lemma get_sheet_load_None f name :
  file_sheets f !! name = None →
  get_sheet (load_workbook f) name = Raise KeyError.
Proof. intros H. unfold get_sheet, load_workbook. simpl. by rewrite lookup_fmap, H. Qed.

Lemma cell_value_cleared_sheet wb name r c :
  1 ≤ r → cell_value (cleared_sheet wb name) r c = None.
Proof.
  intros Hr. unfold cleared_sheet. destruct (sheets wb !! name).
  - by apply cell_value_delete_all_rows.
  - apply cell_value_empty.
Qed.

(** The sheets of the saved workbook after one known sheet was set. *)
Lemma saved_sheet_set wb key ws name :
  key ∈ ["predictions"; "history"; "differences"; "average"] →
  file_sheets (save_workbook (_organize_sheets (set_sheet wb (sheet_names key) ws)))
    !! name =
  if decide (name = sheet_names key) then Some (save ws)
  else if str_in name desired_order then save <$> sheets wb !! name else None.
Proof.
  intros Hkey. unfold save_workbook, _organize_sheets, set_sheet.
  cbn [file_sheets sheets].
  rewrite lookup_fmap, map_lookup_filter. cbn [fst].
  destruct (decide (name = sheet_names key)) as [->|Hne].
  - rewrite lookup_insert_eq. cbn [mbind option_bind].
    rewrite option_guard_True; [done|].
    repeat (apply elem_of_cons in Hkey as [->|Hkey]; [by vm_compute|]).
    by apply elem_of_nil in Hkey.
  - rewrite lookup_insert_ne by done.
    destruct (sheets wb !! name) as [w|]; cbn [mbind option_bind fmap option_fmap option_map].
    + case_guard as Hg; [by rewrite Hg|].
      by destruct (str_in name desired_order).
    + by destruct (str_in name desired_order).
Qed.
End Workbooks.

(** ** Average use *)
Section AverageUse.
Import Py Sheet Inventory.

(** [float(...)] on a cell value raises nothing but [ValueError]. *)
Lemma to_float_raise v e : to_float v = Raise e → is_value_or_type_error e = true.
Proof.
  destruct v as [s|x]; [|done]. unfold to_float, float_of_string.
  intros H. repeat case_match; by simplify_eq.
Qed.

Lemma numeric_Some v : Spec.numeric (Some v) =
  match to_float v with Ok x => Some x | Raise _ => None end.
Proof. done. Qed.

Lemma collect_differences_spec d idx :
  collect_differences (load d) idx =
  Ok (filter (λ x, fge x (float_of_Z 0) = true) (omap Spec.numeric (Spec.delta_cells d idx))).
Proof.
  unfold collect_differences, Spec.delta_cells. rewrite max_column_load.
  set (keep := λ x : float, fge x (float_of_Z 0) = true).
  rewrite (foldM_pure _
    (λ differences col,
       differences ++ filter keep (option_list (Spec.numeric (d !! (idx, col)))))).
  - f_equal. generalize (seq 2 (max_column d - 1)). intros l.
    change (filter keep (omap Spec.numeric ((λ col, d !! (idx, col)) <$> l)))
      with ([] ++ filter keep (omap Spec.numeric ((λ col, d !! (idx, col)) <$> l))).
    generalize (@nil float) as acc.
    induction l as [|col l IH]; intros acc; [by rewrite app_nil_r|].
    cbn [foldl fmap list_fmap omap list_omap].
    rewrite IH, <- app_assoc. f_equal.
    destruct (Spec.numeric (d !! (idx, col))) as [x|]; [|done].
    change (option_list (Some x)) with [x].
    rewrite !filter_cons, filter_nil.
    by destruct (decide (keep x)).
  - intros differences col _. rewrite cell_value_load.
    destruct (d !! (idx, col)) as [v|]; [|by rewrite app_nil_r].
    rewrite numeric_Some.
    destruct (to_float v) as [x|e] eqn:E.
    + change (option_list (Some x)) with [x].
      rewrite filter_cons, filter_nil. unfold keep at 1.
      case_decide as Hk.
      * by rewrite Hk.
      * apply not_true_is_false in Hk. rewrite Hk. by rewrite app_nil_r.
    + rewrite (to_float_raise _ _ E). by rewrite app_nil_r.
Qed.

(** C5.  When the differences sheet exists, [update_average_use]
    succeeds, and for every label (row [i + 2] of the sheets) the
    average cell is the specification's average entry of that row's
    delta cells: the mean, rounded to two decimals, of the present
    numeric deltas that are at least 0, and no cell at all when there is
    no such delta.  Deltas -3, 4, 6 give 5.0. *)
Theorem average_use_spec f d :
  file_sheets f !! sheet_names "differences" = Some d →
  (∃ f' avg,
      update_average_use (Some f) = Ok (Some f') ∧
      file_sheets f' !! sheet_names "average" = Some avg ∧
      ∀ i label,
        _get_existing_labels (load d) !! i = Some label →
        avg !! (i + 2, 1) = Some label ∧
        avg !! (i + 2, 2) = VNum <$> Spec.average_entry (Spec.delta_cells d (i + 2))) ∧
  Spec.average_entry
    [Some (VNum (float_of_Z (-3))); Some (VNum (float_of_Z 4)); Some (VNum (float_of_Z 6))]
  = Some (float_of_Z 5).
Proof.
  intros Hd. split; [|by vm_compute].
  unfold update_average_use.
  rewrite (get_sheet_load _ _ _ Hd). cbn [mbind result_bind].
  set (labels := _get_existing_labels (load d)).
  set (base := set_cell _ 1 2 _).
  set (g := λ il : nat * value,
         (λ x, Some (VNum x)) <$> Spec.average_entry (Spec.delta_cells d il.1)).
  rewrite (foldM_pure _
    (λ avg_ws il, match g il with
                  | Some v => set_cell avg_ws il.1 2 v
                  | None => avg_ws
                  end)).
  2:{ intros avg_ws il _. rewrite collect_differences_spec. cbn [mbind result_bind].
      unfold g, Spec.average_entry, Spec.mean, sum.
      by destruct (filter _ _). }
  cbn [mbind result_bind].
  eexists _, _. split; [reflexivity|].
  rewrite saved_sheet_set by (repeat constructor).
  rewrite decide_True by done. split; [reflexivity|].
  intros i label Hi.
  rewrite !lookup_save, !cell_value_foldl_column.
  replace (i + 2 - 2) with i by lia. fold labels. rewrite Hi.
  rewrite decide_False by lia.
  rewrite decide_True by lia.
  unfold base. rewrite !cell_value_set_cell.
  rewrite !decide_False by (intros [=]; lia).
  rewrite (cell_value_write_labels_row _ _ _ _ Hi).
  split; [done|].
  rewrite cell_value_write_labels_other by done.
  rewrite cell_value_cleared_sheet by lia.
  unfold g. simpl. by destruct (Spec.average_entry _).
Qed.

Lemma average_use_spec_witness :
  let d : gmap (nat * nat) value :=
    {[ (1, 1) := VStr "Label"; (2, 1) := VStr "A";
       (1, 2) := VStr "Difference Sale 1 - Sale 2"; (2, 2) := VNum (float_of_Z 3) ]} in
  let f := {| file_sheets := {[ sheet_names "differences" := d ]}; file_fills := ∅ |} in
  Spec.average_entry
    [Some (VNum (float_of_Z (-3))); Some (VNum (float_of_Z 4)); Some (VNum (float_of_Z 6))]
  = Some (float_of_Z 5).
Proof.
  intros d f. exact (proj2 (average_use_spec f d eq_refl)).
Defined.
End AverageUse.

(** ** Sales differences *)
Section Differences.
Import Py Sheet Inventory.
Implicit Types (h : gmap (nat * nat) value) (labels : list value)
               (ws : gmap (nat * nat) (option value)).

Lemma difference_of_spec v1 v2 :
  difference_of v1 v2 = Ok (Spec.difference_cell v1 v2).
Proof.
  destruct v1 as [a|]; [|done]. destruct v2 as [b|].
  2:{ unfold difference_of, Spec.difference_cell. rewrite numeric_Some.
      by destruct (to_float a). }
  unfold difference_of, Spec.difference_cell.
  rewrite !numeric_Some.
  destruct (to_float a) as [x|e] eqn:Ea; cbn [mbind result_bind option_bind].
  - destruct (to_float b) as [y|e] eqn:Eb; cbn [mbind result_bind option_bind]; [done|].
    by rewrite (to_float_raise _ _ Eb).
  - by rewrite (to_float_raise _ _ Ea).
Qed.

(** A loop over [range(k, k + len(l))] that reads [l] by index. *)
Lemma foldM_seq_lookup {A St} (f : St → nat → result St) (g : St → A → St)
    (l : list A) k s :
  (∀ i x s, l !! i = Some x → f s (k + i) = Ok (g s x)) →
  foldM f s (seq k (length l)) = Ok (foldl g s l).
Proof.
  revert k s. induction l as [|x l IH]; intros k s H; [done|].
  cbn [length seq foldl]. rewrite foldM_cons.
  pose proof (H 0 x s eq_refl) as H0. rewrite Nat.add_0_r in H0. rewrite H0.
  cbn [mbind result_bind]. apply IH.
  intros i y s' Hy. replace (S k + i) with (k + S i) by lia. by apply H.
Qed.

Lemma adjacent_pairs_lookup {A} (l : list A) i c1 c2 :
  Spec.adjacent_pairs l !! i = Some (c1, c2) ↔ l !! i = Some c1 ∧ l !! (i + 1) = Some c2.
Proof.
  unfold Spec.adjacent_pairs. rewrite lookup_zip_Some, lookup_tail.
  by replace (S i) with (i + 1) by lia.
Qed.

Lemma adjacent_pairs_length {A} (l : list A) :
  length (Spec.adjacent_pairs l) = length l - 1.
Proof.
  unfold Spec.adjacent_pairs. rewrite length_zip_with, length_tl. lia.
Qed.

Lemma difference_step_pair h labels inventory_columns state i c1 c2 :
  inventory_columns !! i = Some c1 →
  inventory_columns !! (i + 1) = Some c2 →
  difference_step (load h) labels inventory_columns state i =
  Ok (pair_step h labels state (c1, c2)).
Proof.
  intros H1 H2. unfold difference_step, pair_step. destruct state as [ws k].
  rewrite H1, H2. cbn [fst snd].
  destruct (diff_header_of c1 c2) as [hd|]; [|done].
  rewrite (foldM_pure _
    (λ ws (il : nat * value),
       match (λ x, Some (VNum x)) <$>
             Spec.difference_cell (h !! (il.1, col c1)) (h !! (il.1, col c2)) with
       | Some v => set_cell ws il.1 k v
       | None => ws
       end)); [done|].
  intros ws' il _. rewrite !cell_value_load, difference_of_spec.
  cbn [mbind result_bind]. by destruct (Spec.difference_cell _ _).
Qed.

Lemma difference_loop h labels inventory_columns state :
  foldM (difference_step (load h) labels inventory_columns) state
        (seq 0 (length inventory_columns - 1)) =
  Ok (foldl (pair_step h labels) state (Spec.adjacent_pairs inventory_columns)).
Proof.
  rewrite <- adjacent_pairs_length. apply foldM_seq_lookup.
  intros i [c1 c2] s Hp. apply adjacent_pairs_lookup in Hp as [H1 H2].
  by apply difference_step_pair.
Qed.

Lemma pair_step_emitted h labels ws k c1 c2 hd r c :
  diff_header_of c1 c2 = Some hd →
  (pair_step h labels (ws, k) (c1, c2)).2 = k + 1 ∧
  cell_value (pair_step h labels (ws, k) (c1, c2)).1 r c =
  if decide (c = k) then pair_cell h labels (c1, c2, hd) r (cell_value ws r c)
  else cell_value ws r c.
Proof.
  intros Hd. unfold pair_step. cbn [fst snd]. rewrite Hd. cbn [fst snd].
  split; [done|].
  rewrite (cell_value_foldl_column
             (λ il, (λ x, Some (VNum x)) <$>
                    Spec.difference_cell (h !! (il.1, col c1)) (h !! (il.1, col c2))) k).
  rewrite cell_value_set_cell. unfold pair_cell. cbn [fst snd].
  destruct (labels !! (r - 2)) eqn:E; repeat case_decide; simplify_eq;
    try done; try lia; try tauto.
Qed.

(** The sheet after the loop over the adjacent pairs: the columns from
    [k] on hold the emitted pairs in order. *)
Lemma difference_columns h labels pairs ws k r c :
  let emitted :=
    omap (λ p : inventory_column * inventory_column,
            (λ hd, (p, hd)) <$> diff_header_of p.1 p.2) pairs in
  let final := foldl (pair_step h labels) (ws, k) pairs in
  final.2 = k + length emitted ∧
  cell_value final.1 r c =
  match emitted !! (c - k) with
  | Some e => if decide (k ≤ c) then pair_cell h labels e r (cell_value ws r c)
              else cell_value ws r c
  | None => cell_value ws r c
  end.
Proof.
  revert ws k. induction pairs as [|[c1 c2] pairs IH]; intros ws k; cbn zeta.
  - split; [simpl; lia|done].
  - cbn [foldl omap list_omap fst snd].
    destruct (diff_header_of c1 c2) as [hd|] eqn:Hd.
    + destruct (pair_step_emitted h labels ws k c1 c2 hd r c Hd) as [Hk Hc].
      destruct (pair_step h labels (ws, k) (c1, c2)) as [ws1 k1]. cbn [fst snd] in *.
      subst k1. destruct (IH ws1 (k + 1)) as [IHk IHc]. cbn zeta in IHk, IHc.
      rewrite IHk, IHc, Hc. cbn [fmap option_fmap option_map length].
      split; [lia|].
      destruct (decide (c = k)) as [->|Hne].
      * replace (k - k) with 0 by lia. cbn [lookup list_lookup].
        rewrite decide_True by lia.
        destruct (_ !! (k - (k + 1))); [|done]. by rewrite decide_False by lia.
      * destruct (decide (k ≤ c)).
        -- replace (c - k) with (S (c - (k + 1))) by lia. cbn [lookup list_lookup].
           destruct (_ !! (c - (k + 1))); [|done]. by rewrite decide_True by lia.
        -- replace (c - k) with 0 by lia. cbn [lookup list_lookup].
           destruct (_ !! (c - (k + 1))); [|done]. by rewrite decide_False by lia.
    + assert (Hs : pair_step h labels (ws, k) (c1, c2) = (ws, k)).
      { unfold pair_step. cbn [fst snd]. by rewrite Hd. }
      rewrite Hs. cbn [fmap option_fmap option_map]. apply IH.
Qed.

(** The outcome of [update_sales_differences] on a ledger whose headers
    parse: the ledger is kept as it is, the label column is copied, and
    the difference columns follow from column B on. *)
Lemma update_sales_differences_run f h inventory_columns :
  file_sheets f !! sheet_names "history" = Some h →
  read_inventory_columns (load h) = Ok inventory_columns →
  ∃ f' d,
    update_sales_differences (Some f) = Ok (Some f') ∧
    file_sheets f' !! sheet_names "differences" = Some d ∧
    file_sheets f' !! sheet_names "history" = Some h ∧
    (∀ i label, _get_existing_labels (load h) !! i = Some label →
                d !! (i + 2, 1) = Some label) ∧
    (∀ r c, 1 ≤ r → 2 ≤ c →
            d !! (r, c) =
            e ← Spec.emitted inventory_columns !! (c - 2);
            pair_cell h (_get_existing_labels (load h)) e r None) ∧
    (∀ r, 2 ≤ r → d !! (r, 1) = _get_existing_labels (load h) !! (r - 2)).
Proof.
  intros Hh Hcols. unfold update_sales_differences.
  rewrite (get_sheet_load _ _ _ Hh). cbn [mbind result_bind].
  rewrite Hcols. cbn [mbind result_bind].
  rewrite difference_loop. cbn [mbind result_bind].
  set (labels := _get_existing_labels (load h)).
  set (base := _write_labels_to_column _ labels).
  pose proof (λ r c, difference_columns h labels
                (Spec.adjacent_pairs inventory_columns) base 2 r c) as Hloop.
  cbn zeta in Hloop.
  destruct (foldl (pair_step h labels) (base, 2) _) as [diff_ws k] eqn:Efinal.
  cbn [fst snd] in Hloop.
  eexists _, _. split; [reflexivity|].
  rewrite !saved_sheet_set by (repeat constructor).
  rewrite decide_True by done. split; [reflexivity|].
  rewrite decide_False by done.
  change (str_in (sheet_names "history") desired_order) with true. cbn match.
  unfold load_workbook. cbn [sheets]. rewrite lookup_fmap, Hh. cbn [fmap option_fmap option_map].
  rewrite save_load. split; [done|].
  split; [|split].
  - intros i label Hi. rewrite lookup_save.
    destruct (Hloop (i + 2) 1) as [_ ->].
    replace (1 - 2) with 0 by lia.
    assert (Hb : cell_value base (i + 2) 1 = Some label)
      by (by apply cell_value_write_labels_row).
    destruct (_ !! 0); [|done]. by rewrite decide_False by lia.
  - intros r c Hr Hc. rewrite lookup_save.
    destruct (Hloop r c) as [_ ->].
    assert (Hb : cell_value base r c = None).
    { unfold base. rewrite cell_value_write_labels_other by lia.
      by apply cell_value_cleared_sheet. }
    rewrite Hb. unfold Spec.emitted.
    destruct (_ !! (c - 2)); [|done]. by rewrite decide_True by lia.
  - intros r Hr. rewrite lookup_save.
    destruct (Hloop r 1) as [_ ->].
    assert (Hb : cell_value base r 1 = labels !! (r - 2)).
    { unfold base. rewrite cell_value_write_labels.
      rewrite decide_True by done. rewrite decide_False by lia.
      destruct (labels !! (r - 2)); [by rewrite decide_True|].
      apply cell_value_cleared_sheet. lia. }
    rewrite Hb. replace (1 - 2) with 0 by lia.
    destruct (_ !! 0); [|done]. by rewrite decide_False by lia.
Qed.

#[local] Instance consecutive_dec a b : Decision (Spec.consecutive a b).
Proof. destruct a, b; simpl; apply _. Defined.

Lemma diff_header_of_consecutive c1 c2 :
  is_Some (diff_header_of c1 c2) ↔ Spec.consecutive (kind c1) (kind c2).
Proof.
  unfold diff_header_of, Spec.consecutive.
  destruct (kind c1) as [n1|], (kind c2) as [n2|].
  - destruct (Z.eqb_spec (n2 - n1) 1) as [Heq|Hne].
    + split; [done|]. by eexists.
    + split; [by intros [??]|done].
  - split; [by intros [??]|done].
  - split; [done|]. by eexists.
  - split; [by intros [??]|done].
Qed.

Lemma emitted_pairs inventory_columns :
  (λ e : inventory_column * inventory_column * string, e.1)
    <$> Spec.emitted inventory_columns =
  filter (λ p, Spec.consecutive (kind p.1) (kind p.2))
         (Spec.adjacent_pairs inventory_columns).
Proof.
  unfold Spec.emitted. induction (Spec.adjacent_pairs inventory_columns) as [|p l IH]; [done|].
  cbn [omap list_omap]. rewrite filter_cons.
  pose proof (diff_header_of_consecutive p.1 p.2) as Hc.
  destruct (diff_header_of p.1 p.2) as [hd|]; cbn [fmap option_fmap option_map list_fmap].
  - rewrite decide_True by (apply Hc; by eexists). by rewrite <- IH.
  - rewrite decide_False; [done|]. intros H. apply Hc in H. by destruct H.
Qed.

(** C2.  For a ledger whose event headers parse, the difference engine
    succeeds, and the headers of its sheet from column B on are, in
    order, those of the adjacent pairs of events that are consecutive:
    two sales whose numbers differ by one, or a restock followed by a
    sale.  Every other adjacent pair yields no column.  For the events
    Sale 1, Sale 3, Sale 4 the only difference column is that of
    (Sale 3, Sale 4). *)
Theorem difference_columns_policy f h inventory_columns :
  file_sheets f !! sheet_names "history" = Some h →
  read_inventory_columns (load h) = Ok inventory_columns →
  (∀ c1 c2, is_Some (diff_header_of c1 c2) ↔ Spec.consecutive (kind c1) (kind c2)) ∧
  (λ e : inventory_column * inventory_column * string, e.1)
    <$> Spec.emitted inventory_columns =
  filter (λ p, Spec.consecutive (kind p.1) (kind p.2))
         (Spec.adjacent_pairs inventory_columns) ∧
  (∃ f' d,
      update_sales_differences (Some f) = Ok (Some f') ∧
      file_sheets f' !! sheet_names "differences" = Some d ∧
      ∀ c, 2 ≤ c →
           d !! (1, c) =
           (λ e : inventory_column * inventory_column * string, VStr e.2)
             <$> Spec.emitted inventory_columns !! (c - 2)) ∧
  (∃ cols, read_inventory_columns (load ledger_1_3_4) = Ok cols ∧
           kind <$> cols = [Sale 1; Sale 3; Sale 4] ∧
           (λ e : inventory_column * inventory_column * string,
              (kind e.1.1, kind e.1.2, e.2)) <$> Spec.emitted cols =
           [(Sale 3, Sale 4, "Difference Sale 3 - Sale 4")]).
Proof.
  intros Hh Hcols. split; [apply diff_header_of_consecutive|].
  split; [apply emitted_pairs|]. split.
  - destruct (update_sales_differences_run f h _ Hh Hcols)
      as (f' & d & Hrun & Hd & _ & _ & Hcells & _).
    exists f', d. split; [done|]. split; [done|].
    intros c Hc. rewrite (Hcells 1 c) by lia.
    destruct (_ !! (c - 2)) as [e|]; [|done]. cbn [mbind option_bind fmap option_fmap option_map].
    unfold pair_cell. by rewrite decide_True.
  - eexists. split; [by vm_compute|]. split; by vm_compute.
Qed.

Lemma difference_columns_policy_witness :
  ∃ f' d,
    update_sales_differences (Some file_1_3_4) = Ok (Some f') ∧
    file_sheets f' !! sheet_names "differences" = Some d ∧
    d !! (1, 2) = Some (VStr "Difference Sale 3 - Sale 4") ∧
    d !! (1, 3) = None.
Proof.
  assert (H1 : file_sheets file_1_3_4 !! sheet_names "history" = Some ledger_1_3_4)
    by (vm_compute; reflexivity).
  assert (H2 : read_inventory_columns (load ledger_1_3_4) =
               Ok [ {| col := 2; header := "Sale 1"; kind := Sale 1 |};
                    {| col := 3; header := "Sale 3"; kind := Sale 3 |};
                    {| col := 4; header := "Sale 4"; kind := Sale 4 |} ])
    by (vm_compute; reflexivity).
  destruct (difference_columns_policy file_1_3_4 ledger_1_3_4 _ H1 H2)
    as (_ & _ & (f' & d & Hrun & Hd & Hc) & _).
  exists f', d. split; [exact Hrun|]. split; [exact Hd|].
  split; [exact (Hc 2 (le_n 2)) | exact (Hc 3 (le_S _ _ (le_n 2)))].
Defined.
End Differences.

(** ** Dictionaries *)
Section Dicts.
Import Py.

Lemma SFeqb_true x y :
  SFeqb x y = true ↔
  x ≠ S754_nan ∧ key_norm (VNum x) = key_norm (VNum y).
Proof.
  unfold SFeqb, SFcompare.
  destruct x as [sx|sx| |sx mx ex], y as [sy|sy| |sy my ey]; cbn [key_norm].
  16:{ destruct sx, sy; try (split; [done | by intros [? ?]]).
       - destruct (Z.compare_spec ex ey) as [->|?|?];
           try (split; [done | intros [_ [=]]; lia]).
         change (PosDef.Pos.compare_cont Eq mx my) with (Pos.compare mx my).
         rewrite Pos.compare_antisym.
         destruct (Pos.compare_spec my mx) as [->|?|?]; cbn [CompOpp];
           try (split; [done | intros [_ [=]]; lia]).
       - destruct (Z.compare_spec ex ey) as [->|?|?];
           try (split; [done | intros [_ [=]]; lia]).
         change (PosDef.Pos.compare_cont Eq mx my) with (Pos.compare mx my).
         destruct (Pos.compare_spec mx my) as [->|?|?];
           try (split; [done | intros [_ [=]]; lia]). }
  all: repeat match goal with |- context [if ?b then _ else _] => destruct b end.
  all: split; [try done | intros [H1 H2]; try done; try congruence].
Qed.

Lemma key_eqb_norm a b : key_eqb a b = true ↔ key_norm a = key_norm b.
Proof.
  destruct a as [s|x], b as [t|y]; simpl.
  - rewrite String.eqb_eq. split; congruence.
  - split; [done|]. by destruct y.
  - destruct x; split; done.
  - destruct (decide (x = S754_nan)) as [->|Hx].
    + destruct y; simpl; split; done.
    + assert (key_eqb (VNum x) (VNum y) = SFeqb x y) as Hk by (by destruct x).
      simpl in Hk. rewrite Hk, SFeqb_true. tauto.
Qed.

Lemma key_eqb_refl a : key_eqb a a = true.
Proof. by apply key_eqb_norm. Qed.

Lemma key_eqb_false a b : key_eqb a b = false ↔ key_norm a ≠ key_norm b.
Proof. rewrite <- key_eqb_norm. by destruct (key_eqb a b). Qed.

Context {V : Type}.
Implicit Types (d : dict V) (k : value) (v : V).

Lemma dict_get_Some d k :
  is_Some (dict_get d k) ↔ key_norm k ∈ key_norm <$> dict_keys d.
Proof.
  unfold dict_keys. induction d as [|[k' v'] d IH]; cbn [dict_get fmap list_fmap fst].
  - split; [by intros [??]|]. by intros ?%elem_of_nil.
  - destruct (key_eqb k' k) eqn:E.
    + apply key_eqb_norm in E. rewrite E. split; [left|by eexists].
    + apply key_eqb_false in E. rewrite IH, elem_of_cons.
      split; [by right|]. intros [?|?]; [congruence|done].
Qed.

Lemma dict_get_None d k :
  dict_get d k = None ↔ key_norm k ∉ key_norm <$> dict_keys d.
Proof. rewrite <- dict_get_Some, eq_None_not_Some. done. Qed.

Lemma dict_keys_set d k v :
  dict_keys (dict_set d k v) =
  if decide (key_norm k ∈ key_norm <$> dict_keys d) then dict_keys d
  else dict_keys d ++ [k].
Proof.
  unfold dict_keys. induction d as [|[k' v'] d IH]; cbn [dict_set fmap list_fmap fst].
  - case_decide as H; [by apply elem_of_nil in H|reflexivity].
  - destruct (key_eqb k' k) eqn:E; cbn [fmap list_fmap fst].
    + apply key_eqb_norm in E. clear IH. rewrite decide_True; [done|].
      rewrite E. left.
    + apply key_eqb_false in E. rewrite IH. clear IH.
      destruct (decide (key_norm k ∈ key_norm <$> d.*1)) as [Hin|Hnin].
      * rewrite decide_True; [done|]. by right.
      * rewrite decide_False; [done|].
        intros [?|?]%elem_of_cons; [congruence|done].
Qed.

Lemma dict_get_set d k v k' :
  dict_get (dict_set d k v) k' =
  if decide (key_norm k = key_norm k') then Some v else dict_get d k'.
Proof.
  induction d as [|[k0 v0] d IH]; cbn [dict_set dict_get].
  - destruct (key_eqb k k') eqn:E.
    + apply key_eqb_norm in E. by rewrite decide_True.
    + apply key_eqb_false in E. by rewrite decide_False.
  - destruct (key_eqb k0 k) eqn:E0; cbn [dict_get].
    + apply key_eqb_norm in E0.
      destruct (key_eqb k0 k') eqn:E1.
      * apply key_eqb_norm in E1. rewrite decide_True; [done|congruence].
      * apply key_eqb_false in E1. rewrite decide_False; [done|congruence].
    + apply key_eqb_false in E0.
      destruct (key_eqb k0 k') eqn:E1; [|done].
      apply key_eqb_norm in E1. rewrite decide_False; [done|congruence].
Qed.
End Dicts.

(** ** Dimensions of a sheet under writes *)
Section Dimensions.
Import Py Sheet.
Context {C : Type}.
Implicit Types (m : gmap (nat * nat) C).

Lemma max_column_attained m :
  max_column m = 1 ∨ ∃ r, is_Some (m !! (r, max_column m)).
Proof.
  unfold max_column.
  destruct (decide (map_to_list m = [])) as [E|E]; [left; rewrite E; simpl; lia|].
  destruct (max_list_with_attained (λ kv : nat * nat * C, kv.1.2) _ E)
    as ([[r c] v] & Hin & Hmax).
  cbn [fst snd] in Hmax. apply elem_of_map_to_list in Hin.
  rewrite <- Hmax.
  destruct (decide (c = 0)) as [->|Hc]; [left; lia|].
  right. exists r. replace (c `max` 1) with c by lia. by eexists.
Qed.

Lemma max_column_insert m r c v :
  max_column (<[(r, c) := v]> m) = max_column m `max` c.
Proof.
  apply Nat.le_antisymm.
  - apply max_column_le; [pose proof (max_column_pos m); lia|].
    intros r' c' Hs. destruct (decide ((r, c) = (r', c'))) as [[= <- <-]|Hne]; [lia|].
    rewrite lookup_insert_ne in Hs by done.
    pose proof (max_column_ge m r' c' Hs). lia.
  - apply Nat.max_lub.
    + destruct (max_column_attained m) as [->|[r' Hr']];
        [apply max_column_pos|].
      apply (max_column_ge _ r').
      destruct (decide ((r, c) = (r', max_column m))) as [->|Hne].
      * rewrite lookup_insert_eq. by eexists.
      * by rewrite lookup_insert_ne.
    + apply (max_column_ge _ r). rewrite lookup_insert_eq. by eexists.
Qed.
End Dimensions.

(** ** Merging labels *)
Section Merge.
Import Py Sheet Inventory.
Implicit Types (ks l existing new : list value) (k : value).

Lemma dict_of_keys {V} (kvs : list (value * V)) (d : dict V) :
  dict_keys (foldl (λ d kv, dict_set d kv.1 kv.2) d kvs) =
  foldl add_key (dict_keys d) kvs.*1.
Proof.
  revert d. induction kvs as [|[k v] kvs IH]; intros d; [done|].
  cbn [foldl fmap list_fmap fst snd]. rewrite IH. by rewrite dict_keys_set.
Qed.

Lemma merge_labels_keys existing new :
  _merge_labels existing new = foldl add_key (foldl add_key [] existing) new.
Proof.
  unfold _merge_labels, dict_of. rewrite dict_of_keys.
  rewrite <- list_fmap_compose. cbn [dict_keys fmap list_fmap].
  rewrite <- foldl_app. f_equal. by rewrite list_fmap_id.
Qed.

Lemma add_keys_prefix ks l : ks `prefix_of` foldl add_key ks l.
Proof.
  revert ks. induction l as [|k l IH]; intros ks; [done|].
  cbn [foldl]. etrans; [|apply IH]. unfold add_key.
  case_decide; [done|]. by apply prefix_app_r.
Qed.

Lemma add_keys_covers ks l k :
  key_norm k ∈ key_norm <$> ks ∨ k ∈ l →
  key_norm k ∈ key_norm <$> foldl add_key ks l.
Proof.
  revert ks. induction l as [|k' l IH]; intros ks.
  - intros [H|H]; [done|by apply elem_of_nil in H].
  - intros H. cbn [foldl]. apply IH. unfold add_key.
    destruct H as [H|[->|H]%elem_of_cons].
    + left. case_decide; [done|]. rewrite fmap_app. apply elem_of_app. by left.
    + left. case_decide; [done|]. rewrite fmap_app. apply elem_of_app. right.
      cbn. left.
    + by right.
Qed.

(** Stored keys are pairwise distinct as keys. *)
Lemma add_keys_NoDup ks l :
  NoDup (key_norm <$> ks) → NoDup (key_norm <$> foldl add_key ks l).
Proof.
  revert ks. induction l as [|k l IH]; intros ks Hks; [done|].
  cbn [foldl]. apply IH. unfold add_key. case_decide as Hin; [done|].
  rewrite fmap_app. apply NoDup_app. split; [done|]. split.
  - intros x Hx [->|?%elem_of_nil]%elem_of_cons; done.
  - apply NoDup_singleton.
Qed.

Lemma add_keys_id ks : NoDup (key_norm <$> ks) → foldl add_key [] ks = ks.
Proof.
  intros Hnd.
  enough (∀ pre, NoDup (key_norm <$> (pre ++ ks)) → foldl add_key pre ks = pre ++ ks)
    as H by (by apply (H [])).
  clear Hnd. induction ks as [|k ks IH]; intros pre Hnd; [by rewrite app_nil_r|].
  cbn [foldl]. unfold add_key at 2. rewrite decide_False.
  - rewrite IH; rewrite <- app_assoc; done.
  - rewrite fmap_app in Hnd. apply NoDup_app in Hnd as (_ & Hd & _).
    intros Hin. apply (Hd _ Hin). cbn. left.
Qed.

Lemma merge_labels_length existing new :
  length (foldl add_key [] existing) ≤ length (_merge_labels existing new).
Proof.
  rewrite merge_labels_keys. apply prefix_length, add_keys_prefix.
Qed.
End Merge.

(** ** Realignment *)
Section Realign.
Import Py Sheet Inventory.
Implicit Types (ws : gmap (nat * nat) (option value)).

Lemma touched_refl (cmax N : nat) ws : touched cmax N ws ws.
Proof. repeat split; auto. Qed.

Lemma touched_trans (cmax N : nat) ws1 ws2 ws3 :
  touched cmax N ws1 ws2 → touched cmax N ws2 ws3 → touched cmax N ws1 ws3.
Proof.
  intros (K1 & A1 & V1) (K2 & A2 & V2). repeat split.
  - auto.
  - intros r c H. destruct (A2 r c H) as [H'|H']; [|by right]. by apply A1.
  - intros r c. destruct (V2 r c) as [E2|(? & ? & H2)].
    + rewrite E2. apply V1.
    + right. repeat split; try done.
Qed.

Lemma touched_set_cell (cmax N : nat) ws r c v :
  2 ≤ r → 2 ≤ c ≤ cmax → (v = None ∨ r ≤ N) →
  touched cmax N ws (set_cell ws r c v).
Proof.
  intros Hr Hc Hv. unfold set_cell. repeat split.
  - intros r' c' H. destruct (decide ((r, c) = (r', c'))) as [<-|Hne].
    + rewrite lookup_insert_eq. by eexists.
    + by rewrite lookup_insert_ne.
  - intros r' c' H. destruct (decide ((r, c) = (r', c'))) as [[= <- <-]|Hne].
    + by right.
    + left. by rewrite lookup_insert_ne in H.
  - intros r' c'. fold (set_cell ws r c v). rewrite cell_value_set_cell.
    case_decide as Heq; [|by left]. injection Heq as <- <-.
    right. split; [done|]. split; [lia|]. destruct Hv as [->|?]; auto.
Qed.

Lemma touched_foldl {A : Type} (cmax N : nat) ws (l : list A)
    (step : gmap (nat * nat) (option value) → A → gmap (nat * nat) (option value)) :
  (∀ ws a, a ∈ l → touched cmax N ws (step ws a)) →
  touched cmax N ws (foldl step ws l).
Proof.
  revert ws. induction l as [|a l IH]; intros ws H; [apply touched_refl|].
  cbn [foldl]. eapply touched_trans; [apply H; left|].
  apply IH. intros ws' a' Ha'. apply H. by right.
Qed.

Lemma touched_foldM {A : Type} (cmax N : nat) ws (l : list A)
    (step : gmap (nat * nat) (option value) → A → result (gmap (nat * nat) (option value))) :
  (∀ ws a, a ∈ l → ∃ ws', step ws a = Ok ws' ∧ touched cmax N ws ws') →
  ∃ ws', foldM step ws l = Ok ws' ∧ touched cmax N ws ws'.
Proof.
  revert ws. induction l as [|a l IH]; intros ws H.
  - exists ws. split; [done|apply touched_refl].
  - destruct (H ws a) as (ws1 & E1 & T1); [left|].
    destruct (IH ws1) as (ws2 & E2 & T2).
    { intros ws' a' Ha'. apply H. by right. }
    exists ws2. rewrite foldM_cons, E1. split; [exact E2|].
    by eapply touched_trans.
Qed.

(** The keys of [values_to_move] are among the existing labels. *)
Lemma values_to_move_keys ws col (il : list (nat * value)) (d : dict value) k :
  k ∈ dict_keys
        (foldl (λ (d : dict value) (il : nat * value),
                  match cell_value ws il.1 col with
                  | Some cell_value => dict_set d il.2 cell_value
                  | None => d
                  end) d il) →
  k ∈ dict_keys d ∨ k ∈ il.*2.
Proof.
  revert d. induction il as [|[idx label] il IH]; intros d Hk; [by left|].
  cbn [foldl fst snd] in Hk. apply IH in Hk as [Hk|Hk].
  - destruct (cell_value ws idx col) as [v|]; [|by left].
    rewrite dict_keys_set in Hk. case_decide; [by left|].
    apply elem_of_app in Hk as [?|Hk]; [by left|].
    apply list_elem_of_singleton in Hk as ->.
    right. cbn. left.
  - right. cbn. by right.
Qed.

Lemma enumerate_snd {A} k (l : list A) : (enumerate k l).*2 = l.
Proof.
  revert k. induction l as [|a l IH]; intros k; [done|].
  rewrite enumerate_cons. cbn. by rewrite IH.
Qed.

Lemma enumerate_fst_ge {A} k (l : list A) idx a :
  (idx, a) ∈ enumerate k l → k ≤ idx < k + length l.
Proof.
  intros [Hk Hl]%elem_of_enumerate. apply lookup_lt_Some in Hl. lia.
Qed.

(** Every row stored in [label_to_new_row] is the row of a label. *)
Lemma label_to_new_row_range all_labels k (r : nat) :
  dict_get (dict_of ((λ il : nat * value, (il.2, il.1 + 2)) <$> enumerate 0 all_labels)) k
    = Some r →
  2 ≤ r ≤ length all_labels + 1.
Proof.
  unfold dict_of.
  enough (∀ (kvs : list (value * nat)) (d : dict nat),
            (∀ kv, kv ∈ kvs → 2 ≤ kv.2 ≤ length all_labels + 1) →
            (∀ k r, dict_get d k = Some r → 2 ≤ r ≤ length all_labels + 1) →
            ∀ k r, dict_get (foldl (λ d kv, dict_set d kv.1 kv.2) d kvs) k = Some r →
                   2 ≤ r ≤ length all_labels + 1) as H.
  { apply H; [|done].
    intros kv Hkv. apply list_elem_of_fmap in Hkv as ([idx label] & -> & Hin).
    apply enumerate_fst_ge in Hin. cbn. lia. }
  clear. induction kvs as [|[k0 v0] kvs IH]; intros d Hkvs Hd k r; [apply Hd|].
  cbn [foldl fst snd]. apply IH.
  - intros kv Hin. apply Hkvs. by right.
  - intros k' r'. rewrite dict_get_set. case_decide; [|apply Hd].
    intros [= <-]. apply (Hkvs (k0, v0)). left.
Qed.

Lemma label_to_new_row_covers all_labels k :
  k ∈ all_labels →
  is_Some (dict_get (dict_of ((λ il : nat * value, (il.2, il.1 + 2))
                                <$> enumerate 0 all_labels)) k).
Proof.
  intros Hin. apply dict_get_Some. unfold dict_of. rewrite dict_of_keys.
  apply add_keys_covers. right.
  rewrite <- list_fmap_compose.
  replace ((fst ∘ λ il : nat * value, (il.2, il.1 + 2)) <$> enumerate 0 all_labels)
    with ((enumerate 0 all_labels).*2) by (by apply list_fmap_ext).
  by rewrite enumerate_snd.
Qed.

Lemma dict_get_norm {V} (d : dict V) k k' :
  key_norm k = key_norm k' → dict_get d k = dict_get d k'.
Proof.
  intros E. induction d as [|[k0 v0] d IH]; [done|]. cbn [dict_get].
  destruct (key_eqb k0 k) eqn:E1.
  - apply key_eqb_norm in E1. rewrite (proj2 (key_eqb_norm k0 k')); [done|congruence].
  - apply key_eqb_false in E1. rewrite (proj2 (key_eqb_false k0 k')); [done|congruence].
Qed.

(** One column of the realignment succeeds and stays within the frame. *)
Lemma realign_column_touched ws existing_labels all_labels col (cmax : nat) :
  2 ≤ col ≤ cmax →
  (∀ k, k ∈ existing_labels → key_norm k ∈ key_norm <$> all_labels) →
  ∃ ws',
    realign_column existing_labels
      (dict_of ((λ il : nat * value, (il.2, il.1 + 2)) <$> enumerate 0 all_labels))
      ws col = Ok ws' ∧
    touched cmax (length all_labels + 1) ws ws'.
Proof.
  intros Hcol Hcover. unfold realign_column. cbn zeta.
  lazymatch goal with
  | |- ∃ _, foldM _ ?c ?v = _ ∧ _ => set (values_to_move := v); set (cleared := c)
  end.
  assert (Tc : touched cmax (length all_labels + 1) ws cleared).
  { apply touched_foldl. intros ws' row Hrow. apply elem_of_seq in Hrow.
    apply touched_set_cell; [lia|done|by left]. }
  destruct (touched_foldM cmax (length all_labels + 1) cleared values_to_move
              (λ ws lv,
                 match dict_get (dict_of ((λ il : nat * value, (il.2, il.1 + 2))
                                            <$> enumerate 0 all_labels)) lv.1 with
                 | Some new_row => Ok (set_cell ws new_row col (Some lv.2))
                 | None => Raise KeyError
                 end)) as (ws' & E & T).
  - intros ws0 [k v] Hin. cbn [fst snd].
    assert (Hk : k ∈ existing_labels).
    { assert (k ∈ dict_keys values_to_move) as Hkk
        by (apply list_elem_of_fmap; by exists (k, v)).
      apply values_to_move_keys in Hkk as [Hkk|Hkk]; [by apply elem_of_nil in Hkk|].
      by rewrite enumerate_snd in Hkk. }
    apply Hcover in Hk. apply list_elem_of_fmap in Hk as (k' & Hnorm & Hk').
    destruct (label_to_new_row_covers all_labels k' Hk') as [r Hr].
    rewrite (dict_get_norm _ k k' Hnorm), Hr.
    apply label_to_new_row_range in Hr.
    eexists. split; [done|]. apply touched_set_cell; [lia|done|by right; lia].
  - exists ws'. split; [done|]. by eapply touched_trans.
Qed.

Lemma realign_touched ws existing_labels all_labels :
  (∀ k, k ∈ existing_labels → key_norm k ∈ key_norm <$> all_labels) →
  ∃ ws',
    _realign_existing_columns ws existing_labels all_labels = Ok ws' ∧
    touched (max_column ws) (length all_labels + 1) ws ws'.
Proof.
  intros Hcover. unfold _realign_existing_columns. cbn zeta.
  apply touched_foldM. intros ws0 col Hcol. apply elem_of_seq in Hcol.
  apply realign_column_touched; [|done].
  pose proof (max_column_pos ws). lia.
Qed.

Lemma touched_max_column (N : nat) ws ws' :
  touched (max_column ws) N ws ws' → max_column ws' = max_column ws.
Proof.
  intros (K & A & _). apply Nat.le_antisymm.
  - apply max_column_le; [apply max_column_pos|].
    intros r c H. destruct (A r c H) as [H'|H']; [|lia].
    by apply (max_column_ge ws r c).
  - apply max_column_le; [apply max_column_pos|].
    intros r c H. apply (max_column_ge ws' r c). by apply K.
Qed.

Lemma touched_header_row (cmax N : nat) ws ws' c :
  touched cmax N ws ws' → cell_value ws' 1 c = cell_value ws 1 c.
Proof. intros (_ & _ & V). destruct (V 1 c) as [?|(? & _)]; [done|lia]. Qed.

Lemma touched_label_column (cmax N : nat) ws ws' r :
  touched cmax N ws ws' → cell_value ws' r 1 = cell_value ws r 1.
Proof. intros (_ & _ & V). destruct (V r 1) as [?|(_ & ? & _)]; [done|lia]. Qed.
End Realign.

(** ** Appending an event *)
Section Append.
Import Py Sheet Inventory.
Implicit Types (ws : gmap (nat * nat) (option value)) (st : option file).

Lemma history_sheet_loaded st :
  _get_or_create_sheet (_load_or_create_workbook st) (sheet_names "history") =
  load (Spec.ledger st).
Proof.
  unfold _get_or_create_sheet, _load_or_create_workbook, Spec.ledger.
  destruct st as [f|]; cbn [mbind option_bind sheets load_workbook].
  - rewrite lookup_fmap. destruct (file_sheets f !! _); [done|].
    cbn. unfold load. by rewrite fmap_empty.
  - rewrite lookup_empty. cbn. unfold load. by rewrite fmap_empty.
Qed.

Lemma merge_covers existing new k :
  k ∈ existing → key_norm k ∈ key_norm <$> _merge_labels existing new.
Proof.
  intros Hk. rewrite merge_labels_keys. apply add_keys_covers. left.
  apply add_keys_covers. by right.
Qed.

(** The sheet written by an append: the ledger as loaded, realigned
    within its frame, then the labels, then the new column. *)
Lemma append_run labels stock_values column_header st :
  let h := Spec.ledger st in
  let all_labels := _merge_labels (_get_existing_labels (load h)) labels in
  ∃ ws1 f',
    _update_inventory_history_internal labels stock_values column_header st
      = Ok (Some f') ∧
    touched (max_column h) (length all_labels + 1) (load h) ws1 ∧
    Spec.ledger (Some f') =
    save (_add_inventory_column (_write_labels_to_column ws1 all_labels) all_labels
            (dict_of (zip labels stock_values)) column_header).
Proof.
  intros h all_labels. unfold _update_inventory_history_internal. cbn zeta.
  rewrite history_sheet_loaded. fold h.
  replace (0 <? max_row (load h)) with true
    by (symmetry; apply Nat.ltb_lt; pose proof (max_row_pos (load h)); lia).
  fold all_labels.
  assert (Hre : ∃ ws1,
             (if length (_get_existing_labels (load h)) <? length all_labels
              then _realign_existing_columns (load h)
                     (_get_existing_labels (load h)) all_labels
              else Ok (load h)) = Ok ws1 ∧
             touched (max_column h) (length all_labels + 1) (load h) ws1).
  { destruct (length (_get_existing_labels (load h)) <? length all_labels).
    - rewrite <- max_column_load. apply realign_touched.
      intros k Hk. by apply merge_covers.
    - exists (load h). split; [done|apply touched_refl]. }
  destruct Hre as (ws1 & -> & T). cbn [mbind result_bind].
  eexists ws1, _. split; [reflexivity|]. split; [done|].
  unfold Spec.ledger. cbn [mbind option_bind].
  rewrite saved_sheet_set by (repeat constructor).
  by rewrite decide_True.
Qed.

Lemma add_inventory_column_cell ws all_labels label_to_stock column_header r c :
  cell_value (_add_inventory_column ws all_labels label_to_stock column_header) r c =
  if decide (c = max_column ws + 1) then
    if decide (r = 1) then Some (VStr column_header)
    else match all_labels !! (r - 2) with
         | Some label =>
             if decide (2 ≤ r)
             then default (cell_value ws r c) (Some <$> dict_get label_to_stock label)
             else cell_value ws r c
         | None => cell_value ws r c
         end
  else cell_value ws r c.
Proof.
  unfold _add_inventory_column.
  replace (0 <? max_column ws) with true
    by (symmetry; apply Nat.ltb_lt; pose proof (max_column_pos ws); lia).
  rewrite (foldl_ext_in _
             (λ ws' (il : nat * value),
                match Some <$> dict_get label_to_stock il.2 with
                | Some v => set_cell ws' il.1 (max_column ws + 1) v
                | None => ws'
                end))
    by (intros ws' il _; by destruct (dict_get label_to_stock il.2)).
  rewrite (cell_value_foldl_column
             (λ il : nat * value, Some <$> dict_get label_to_stock il.2)).
  rewrite cell_value_set_cell. cbn [snd].
  destruct (all_labels !! (r - 2)) eqn:E; repeat case_decide; simplify_eq;
    try done; try lia; try tauto.
Qed.

Lemma cell_value_Some_key ws r c v : cell_value ws r c = Some v → is_Some (ws !! (r, c)).
Proof. unfold cell_value. destruct (ws !! (r, c)); [by eexists|done]. Qed.

Lemma max_column_write_labels ws labels :
  max_column (_write_labels_to_column ws labels) = max_column ws.
Proof.
  unfold _write_labels_to_column, set_cell.
  enough (∀ (l : list (nat * value)) ws0,
            max_column (foldl (λ ws il, <[(il.1, 1) := Some il.2]> ws) ws0 l)
            = max_column ws0) as H.
  { rewrite H, max_column_insert. pose proof (max_column_pos ws). lia. }
  induction l as [|il l IH]; intros ws0; [done|].
  cbn [foldl]. rewrite IH, max_column_insert. pose proof (max_column_pos ws0). lia.
Qed.

(** The new column of an append stands right of every column of the
    ledger, and the header row is otherwise as before. *)
Lemma append_event_headers labels stock_values column_header st :
  ∃ st',
    _update_inventory_history_internal labels stock_values column_header st = Ok st' ∧
    max_column (Spec.ledger st') = max_column (Spec.ledger st) + 1 ∧
    Spec.event_headers st' = Spec.event_headers st ++ [Some (VStr column_header)] ∧
    ∀ i label,
      _merge_labels (Spec.ledger_labels st) labels !! i = Some label →
      Spec.ledger st' !! (i + 2, max_column (Spec.ledger st) + 1) =
      dict_get (dict_of (zip labels stock_values)) label.
Proof.
  destruct (append_run labels stock_values column_header st)
    as (ws1 & f' & Hrun & T & Hledger). cbn zeta in T, Hledger.
  exists (Some f'). split; [done|].
  set (h := Spec.ledger st) in *.
  set (all_labels := _merge_labels _ labels) in *.
  set (ws2 := _write_labels_to_column ws1 all_labels) in *.
  assert (Hmc1 : max_column ws1 = max_column h).
  { rewrite <- max_column_load. apply (touched_max_column (length all_labels + 1)).
    by rewrite max_column_load. }
  assert (Hmc2 : max_column ws2 = max_column h)
    by (unfold ws2; by rewrite max_column_write_labels).
  assert (Hcell : ∀ r c,
             Spec.ledger (Some f') !! (r, c) =
             if decide (c = max_column h + 1) then
               if decide (r = 1) then Some (VStr column_header)
               else match all_labels !! (r - 2) with
                    | Some label =>
                        if decide (2 ≤ r)
                        then default (cell_value ws2 r c)
                               (Some <$> dict_get (dict_of (zip labels stock_values)) label)
                        else cell_value ws2 r c
                    | None => cell_value ws2 r c
                    end
             else cell_value ws2 r c).
  { intros r c. rewrite Hledger, lookup_save, add_inventory_column_cell.
    by rewrite Hmc2. }
  assert (Hbeyond : ∀ r c, max_column h < c → cell_value ws2 r c = None).
  { intros r c Hc. pose proof (max_column_pos h).
    unfold ws2. rewrite cell_value_write_labels_other by lia.
    destruct (cell_value ws1 r c) as [v|] eqn:E; [|done].
    apply cell_value_Some_key in E. apply max_column_ge in E. lia. }
  assert (Hmax : max_column (Spec.ledger (Some f')) = max_column h + 1).
  { apply Nat.le_antisymm.
    - apply max_column_le; [lia|]. intros r c [v Hv].
      rewrite Hcell in Hv. case_decide; [lia|].
      destruct (decide (c ≤ max_column h)) as [|Hgt]; [lia|].
      rewrite Hbeyond in Hv by lia. done.
    - apply (max_column_ge _ 1). rewrite Hcell.
      rewrite !decide_True by done. by eexists. }
  split; [done|]. split.
  - unfold Spec.event_headers. fold h. rewrite Hmax.
    pose proof (max_column_pos h) as Hpos.
    replace (max_column h + 1 - 1) with (S (max_column h - 1)) by lia.
    rewrite seq_S, fmap_app. cbn [fmap list_fmap].
    replace (2 + (max_column h - 1)) with (max_column h + 1) by lia.
    f_equal.
    + apply list_fmap_ext. intros i c Hc.
      apply lookup_seq in Hc as [-> Hi].
      rewrite Hcell. rewrite decide_False by lia.
      unfold ws2. rewrite cell_value_write_labels_other by lia.
      rewrite (touched_header_row _ _ _ _ _ T). apply cell_value_load.
    + rewrite Hcell. by rewrite !decide_True.
  - intros i label Hi. rewrite Hcell.
    rewrite decide_True by done. rewrite decide_False by lia.
    replace (i + 2 - 2) with i by lia.
    fold (Spec.ledger_labels st) in all_labels. fold all_labels in Hi.
    rewrite Hi. rewrite decide_True by lia.
    rewrite Hbeyond by lia. by destruct (dict_get _ _).
Qed.

(** C1 at a concrete ledger: appending Sale 1 with A = 10 and then
    Sale 1 again with A = 7 leaves two columns headed [Sale 1], the
    first still holding 10; the count of event columns grew and the
    headers are no longer unique. *)
Lemma reprocessed_sale_is_duplicated :
  ∃ st1 st2,
    update_inventory_history [VStr "A"] [VNum (float_of_Z 10)] "1" None = Ok st1 ∧
    update_inventory_history [VStr "A"] [VNum (float_of_Z 7)] "1" st1 = Ok st2 ∧
    Spec.event_headers st1 = [Some (VStr "Sale 1")] ∧
    Spec.event_headers st2 = [Some (VStr "Sale 1"); Some (VStr "Sale 1")] ∧
    Spec.ledger st2 !! (2, 2) = Some (VNum (float_of_Z 10)) ∧
    Spec.ledger st2 !! (2, 3) = Some (VNum (float_of_Z 7)) ∧
    ¬ (length (Spec.event_headers st2) ≤ length (Spec.event_headers st1) ∧
       NoDup (Spec.event_headers st2)).
Proof.
  eexists _, _. split; [by vm_compute|]. split; [by vm_compute|].
  split; [by vm_compute|]. split; [by vm_compute|].
  split; [by vm_compute|]. split; [by vm_compute|].
  intros [Hlen _]. vm_compute in Hlen. lia.
Qed.
End Append.

(** ** The label set of the ledger *)
Section LabelSet.
Import Py Sheet Inventory.
Implicit Types (ws : gmap (nat * nat) (option value)) (st : option file).
Implicit Types (h : gmap (nat * nat) value) (labels prior : list value).

Lemma get_existing_labels_elem ws label :
  label ∈ _get_existing_labels ws ↔
  accepted label ∧ ∃ r, 2 ≤ r ≤ max_row ws ∧ cell_value ws r 1 = Some label.
Proof.
  unfold _get_existing_labels, column_A_below_header, accepted.
  rewrite list_elem_of_omap. split.
  - intros (c & Hc & Hg). apply list_elem_of_fmap in Hc as (r & -> & Hr).
    apply elem_of_seq in Hr.
    destruct (label_guard (cell_value ws r 1)) eqn:E; [|done].
    rewrite Hg in E. split; [done|]. exists r. split; [lia|done].
  - intros (Hg & r & Hr & Hc). exists (Some label). split.
    + apply list_elem_of_fmap. exists r. split; [done|]. apply elem_of_seq. lia.
    + by rewrite Hg.
Qed.

Lemma omap_guard_all (cells : list (option value)) labels :
  Forall accepted labels → cells = Some <$> labels →
  omap (λ c : option value, if label_guard c then c else None) cells = labels.
Proof.
  intros Hacc ->. induction Hacc as [|l labels Hl _ IH]; [done|].
  cbn [fmap list_fmap omap list_omap]. unfold accepted in Hl. rewrite Hl.
  cbn. by f_equal.
Qed.

Lemma lists_labels_read h labels :
  lists_labels h labels → Forall accepted labels →
  _get_existing_labels (load h) = labels.
Proof.
  intros [Hrows Hmax] Hacc. unfold _get_existing_labels, column_A_below_header.
  apply omap_guard_all; [done|]. rewrite max_row_load.
  assert (Hlen : max_row h - 1 = length labels).
  { destruct (decide (length labels = 0)) as [E|E].
    - pose proof (max_row_pos h). lia.
    - destruct (lookup_lt_is_Some_2 labels (length labels - 1)) as [l Hl]; [lia|].
      apply Hrows in Hl.
      pose proof (max_row_ge h (length labels - 1 + 2) 1 (mk_is_Some _ _ Hl)). lia. }
  rewrite Hlen. apply list_eq. intros i.
  rewrite !list_lookup_fmap.
  destruct (labels !! i) as [l|] eqn:E.
  - rewrite lookup_seq_lt by (by eapply lookup_lt_Some).
    cbn [fmap option_fmap option_map]. rewrite cell_value_load.
    replace (2 + i) with (i + 2) by lia. by rewrite (Hrows _ _ E).
  - apply lookup_ge_None in E. rewrite lookup_seq_ge by lia. done.
Qed.

Lemma add_keys_accepted prior labels :
  Forall accepted prior → Forall accepted labels →
  Forall accepted (foldl add_key prior labels).
Proof.
  intros Hp Hl. revert prior Hp.
  induction Hl as [|l labels Hl _ IH]; intros prior Hp; [done|].
  cbn [foldl]. apply IH. unfold add_key. case_decide; [done|].
  apply Forall_app. split; [done|]. by constructor.
Qed.

Lemma ordered_union_keys prior labels :
  Spec.ordered_union prior labels = foldl add_key prior labels.
Proof.
  unfold Spec.ordered_union. revert prior.
  induction labels as [|l labels IH]; intros prior; [done|].
  cbn [foldl]. rewrite <- IH. f_equal. unfold add_key.
  destruct (existsb (key_eqb l) prior) eqn:E.
  - rewrite decide_True; [done|]. apply existsb_exists in E as (x & Hx & Hk).
    apply key_eqb_norm in Hk. rewrite Hk. apply list_elem_of_fmap.
    exists x. split; [done|]. by apply list_elem_of_In.
  - rewrite decide_False; [done|]. intros Hin.
    apply list_elem_of_fmap in Hin as (x & Hk & Hx).
    apply not_true_iff_false in E. apply E. apply existsb_exists.
    exists x. split; [by apply list_elem_of_In|]. by apply key_eqb_norm.
Qed.

(** An append to a ledger that lists [prior] leaves a ledger that lists
    the merge of [prior] with the labels of the event. *)
Lemma append_lists_labels labels stock_values column_header st prior :
  lists_labels (Spec.ledger st) prior → Forall accepted prior →
  NoDup (key_norm <$> prior) →
  ∃ st',
    _update_inventory_history_internal labels stock_values column_header st = Ok st' ∧
    lists_labels (Spec.ledger st') (foldl add_key prior labels).
Proof.
  intros Hlist Hacc Hnd.
  destruct (append_run labels stock_values column_header st)
    as (ws1 & f' & Hrun & T & Hledger). cbn zeta in T, Hledger.
  exists (Some f'). split; [done|].
  rewrite (lists_labels_read _ _ Hlist Hacc) in T, Hledger.
  rewrite merge_labels_keys, (add_keys_id _ Hnd) in T, Hledger.
  set (h := Spec.ledger st) in *.
  set (all_labels := foldl add_key prior labels) in *.
  set (ws2 := _write_labels_to_column ws1 all_labels) in *.
  assert (Hlen : length prior ≤ length all_labels)
    by apply prefix_length, add_keys_prefix.
  destruct Hlist as [_ Hmax]. destruct T as (_ & _ & Tv).
  split.
  - intros i label Hi. rewrite Hledger, lookup_save, add_inventory_column_cell.
    pose proof (max_column_pos ws2). rewrite decide_False by lia.
    by apply cell_value_write_labels_row.
  - apply max_row_le; [lia|]. intros r c [v Hv].
    rewrite Hledger, lookup_save in Hv.
    assert (H2 : ∀ v, cell_value ws2 r c = Some v → r ≤ length all_labels + 1).
    { intros v' Hv'. unfold ws2 in Hv'. rewrite cell_value_write_labels in Hv'.
      assert (H1 : cell_value ws1 r c = Some v' → r ≤ length all_labels + 1).
      { intros H1. destruct (Tv r c) as [E|(_ & _ & [E|E])].
        - rewrite E, cell_value_load in H1.
          pose proof (max_row_ge h r c (mk_is_Some _ _ H1)). lia.
        - congruence.
        - done. }
      case_decide; [|auto]. case_decide; [lia|].
      destruct (all_labels !! (r - 2)) eqn:E; [|auto].
      apply lookup_lt_Some in E. lia. }
    rewrite add_inventory_column_cell in Hv.
    case_decide; [|eauto]. case_decide; [lia|].
    destruct (all_labels !! (r - 2)) eqn:E; [|eauto].
    apply lookup_lt_Some in E. lia.
Qed.

(** Appends of events whose labels are all accepted, starting from no
    file: each succeeds, and the ledger lists the labels merged so far. *)
Lemma appendEvents_lists_labels (evs : list Spec.event) :
  Forall (λ ev, Forall accepted (Spec.ev_labels ev)) evs →
  ∃ st labels,
    Spec.appendEvents evs None = Ok st ∧
    lists_labels (Spec.ledger st) labels ∧
    Forall accepted labels ∧ NoDup (key_norm <$> labels).
Proof.
  induction evs as [|ev evs IH] using rev_ind; intros Hevs.
  - exists None, []. split; [done|]. split; [|split; constructor].
    split; [by intros i l ?|]. unfold Spec.ledger. cbn.
    unfold max_row. rewrite map_to_list_empty. simpl. lia.
  - apply Forall_app in Hevs as [Hevs Hev]. rewrite Forall_singleton in Hev.
    destruct (IH Hevs) as (st & labels & Hrun & Hlist & Hacc & Hnd).
    unfold Spec.appendEvents in *. rewrite foldM_app, Hrun. cbn [mbind result_bind].
    rewrite foldM_cons.
    assert (Hstep : ∃ st', Spec.appendEvent ev st = Ok st' ∧
               lists_labels (Spec.ledger st') (foldl add_key labels (Spec.ev_labels ev))).
    { unfold Spec.appendEvent. destruct (Spec.ev_kind ev);
        by apply append_lists_labels. }
    destruct Hstep as (st' & -> & Hlist'). cbn [mbind result_bind]. rewrite foldM_nil.
    exists st', (foldl add_key labels (Spec.ev_labels ev)).
    split; [done|]. split; [done|]. split.
    + by apply add_keys_accepted.
    + by apply add_keys_NoDup.
Qed.
(** Column A after an append holds the merged labels from row 2 on. *)
Lemma append_label_rows labels stock_values column_header st :
  ∃ st',
    _update_inventory_history_internal labels stock_values column_header st = Ok st' ∧
    ∀ i label,
      _merge_labels (Spec.ledger_labels st) labels !! i = Some label →
      Spec.ledger st' !! (i + 2, 1) = Some label.
Proof.
  destruct (append_run labels stock_values column_header st)
    as (ws1 & f' & Hrun & _ & Hledger). cbn zeta in Hledger.
  exists (Some f'). split; [done|]. intros i label Hi.
  rewrite Hledger, lookup_save, add_inventory_column_cell.
  set (ws2 := _write_labels_to_column _ _).
  pose proof (max_column_pos ws2). rewrite decide_False by lia.
  by apply cell_value_write_labels_row.
Qed.

Lemma appendEvent_internal (ev : Spec.event) st :
  ∃ column_header,
    Spec.appendEvent ev st =
    _update_inventory_history_internal (Spec.ev_labels ev) (Spec.ev_quantities ev)
      column_header st.
Proof. unfold Spec.appendEvent. destruct (Spec.ev_kind ev); by eexists. Qed.

(** The label column of the differences sheet is the label set read
    back from the ledger. *)
Lemma update_sales_differences_labels st f2 d :
  update_sales_differences st = Ok (Some f2) →
  file_sheets f2 !! sheet_names "differences" = Some d →
  ∀ r, 2 ≤ r → d !! (r, 1) = Spec.ledger_labels st !! (r - 2).
Proof.
  intros Hrun Hd r Hr. destruct st as [f|]; [|done].
  destruct (file_sheets f !! sheet_names "history") as [h|] eqn:Hh.
  - destruct (read_inventory_columns (load h)) as [cols|e] eqn:Hcols.
    + destruct (update_sales_differences_run f h cols Hh Hcols)
        as (f' & d' & Hrun' & Hd' & _ & _ & _ & Hlabels).
      rewrite Hrun in Hrun'. injection Hrun' as ->.
      rewrite Hd in Hd'. injection Hd' as ->.
      rewrite (Hlabels r Hr). unfold Spec.ledger_labels, Spec.ledger.
      cbn [mbind option_bind]. by rewrite Hh.
    + unfold update_sales_differences in Hrun.
      rewrite (get_sheet_load _ _ _ Hh) in Hrun. cbn [mbind result_bind] in Hrun.
      by rewrite Hcols in Hrun.
  - unfold update_sales_differences in Hrun.
    by rewrite (get_sheet_load_None _ _ Hh) in Hrun.
Qed.

Lemma storable_text_value (s : string) :
  s ≠ "" → legal_text s = true → storable (VStr s).
Proof. by split. Qed.

Lemma storable_whole_number (n : Z) :
  (Z.abs n < 10 ^ 15)%Z → storable (VNum (float_of_Z n)).
Proof. intros Hn. by exists n. Qed.

Lemma plain_events_accepted (evs : list Spec.event) :
  Forall plain_event evs → Forall (λ e, Forall accepted (Spec.ev_labels e)) evs.
Proof. intros H. eapply Forall_impl; [exact H|]. by intros ev [_ Hacc]. Qed.

(** C4 (as amended).  For every sequence of appends from the empty
    store in which every label, quantity and sale number is stored as it
    is and every label is one the read-back of column A keeps (truthy
    and not the text [Label]), every append succeeds and the label set of
    the ledger after it is the order-preserving union of the label set
    before it and the labels of the event: the prior labels stay, in
    their order, as a prefix, and the labels not yet present follow in
    first-seen order. *)
Theorem label_set_ordered_union (evs : list Spec.event) (ev : Spec.event) :
  Forall plain_event (evs ++ [ev]) →
  ∃ st st',
    Spec.appendEvents evs None = Ok st ∧
    Spec.appendEvent ev st = Ok st' ∧
    Spec.appendEvents (evs ++ [ev]) None = Ok st' ∧
    Spec.ledger_labels st' =
    Spec.ordered_union (Spec.ledger_labels st) (Spec.ev_labels ev) ∧
    Spec.ledger_labels st `prefix_of` Spec.ledger_labels st'.
Proof.
  intros Hall. apply plain_events_accepted, Forall_app in Hall as [Hevs Hev].
  rewrite Forall_singleton in Hev.
  destruct (appendEvents_lists_labels evs Hevs)
    as (st & prior & Hrun & Hlist & Hacc & Hnd).
  destruct (appendEvent_internal ev st) as [column_header Hint].
  destruct (append_lists_labels (Spec.ev_labels ev) (Spec.ev_quantities ev)
              column_header st prior Hlist Hacc Hnd) as (st' & Hstep & Hlist').
  rewrite <- Hint in Hstep.
  exists st, st'. split; [done|]. split; [done|]. split.
  { unfold Spec.appendEvents in *. rewrite foldM_app, Hrun. cbn [mbind result_bind].
    rewrite foldM_cons, Hstep. cbn [mbind result_bind]. by rewrite foldM_nil. }
  unfold Spec.ledger_labels.
  rewrite (lists_labels_read _ _ Hlist Hacc).
  rewrite (lists_labels_read _ _ Hlist' (add_keys_accepted _ _ Hacc Hev)).
  split; [by rewrite ordered_union_keys|apply add_keys_prefix].
Qed.

Lemma plain_sale_B : plain_event sale_B.
Proof.
  split; [split; [|split]|].
  - repeat constructor; by vm_compute.
  - repeat constructor. by apply (storable_whole_number 5).
  - reflexivity.
  - by repeat constructor.
Qed.

Lemma plain_sale_A_B : plain_event sale_A_B.
Proof.
  split; [split; [|split]|].
  - repeat constructor; by vm_compute.
  - constructor; [by apply (storable_whole_number 8)|].
    constructor; [by apply (storable_whole_number 3)|constructor].
  - reflexivity.
  - by repeat constructor.
Qed.

Lemma label_set_ordered_union_witness :
  ∃ st st',
    Spec.appendEvents [sale_B] None = Ok st ∧
    Spec.appendEvent sale_A_B st = Ok st' ∧
    Spec.appendEvents ([sale_B] ++ [sale_A_B]) None = Ok st' ∧
    Spec.ledger_labels st' =
    Spec.ordered_union (Spec.ledger_labels st) (Spec.ev_labels sale_A_B) ∧
    Spec.ledger_labels st `prefix_of` Spec.ledger_labels st'.
Proof.
  apply (label_set_ordered_union [sale_B] sale_A_B).
  constructor; [apply plain_sale_B|].
  constructor; [apply plain_sale_A_B|constructor].
Defined.

(** C4 at a concrete event: an append of the labels [A] and [Label] to
    the empty store succeeds, yet the label set read back is [A] alone,
    not the union; after a further append of [B] the text [Label] is
    gone from column A itself. *)
Lemma label_named_Label_is_lost :
  ∃ st1 st2,
    Spec.appendEvent sale_A_Label None = Ok st1 ∧
    Spec.appendEvent sale_B st1 = Ok st2 ∧
    Spec.ledger_labels None = [] ∧
    Spec.ordered_union [] (Spec.ev_labels sale_A_Label) = [VStr "A"; VStr "Label"] ∧
    Spec.ledger_labels st1 = [VStr "A"] ∧
    Spec.ledger_labels st1 ≠
    Spec.ordered_union (Spec.ledger_labels None) (Spec.ev_labels sale_A_Label) ∧
    Spec.ledger st1 !! (3, 1) = Some (VStr "Label") ∧
    Spec.ledger st2 !! (3, 1) = Some (VStr "B").
Proof.
  eexists _, _. split; [by vm_compute|]. split; [by vm_compute|].
  split; [by vm_compute|]. split; [by vm_compute|]. split; [by vm_compute|].
  split; [by vm_compute|]. split; by vm_compute.
Qed.

(** C10 (as amended).  The label set read back from the ledger holds
    exactly the labels of the rows below the header whose cell in column
    A is truthy and not the text [Label]; an empty cell, the number 0,
    the empty string and the text [Label] are left out.  So an append of
    storable values whose labels include such a label succeeds and
    writes the label into column A with its quantity beside it, but the
    label is not in the label set that the next append and the next
    recompute read back, and the differences sheet has no row for it.
    Whether the row stays in the ledger sheet depends on the next
    append. *)
Theorem rejected_label_is_dropped st (ev : Spec.event) label :
  label ∈ Spec.ev_labels ev → label_guard (Some label) = false →
  storable_event ev →
  label_guard None = false ∧
  label_guard (Some (VNum (float_of_Z 0))) = false ∧
  label_guard (Some (VStr "")) = false ∧
  label_guard (Some (VStr "Label")) = false ∧
  ∃ st',
    Spec.appendEvent ev st = Ok st' ∧
    (∃ r l, 2 ≤ r ∧ Spec.ledger st' !! (r, 1) = Some l ∧ key_eqb label l = true ∧
            Spec.ledger st' !! (r, max_column (Spec.ledger st) + 1) =
            dict_get (dict_of (zip (Spec.ev_labels ev) (Spec.ev_quantities ev))) l) ∧
    (∀ l, l ∈ Spec.ledger_labels st' ↔
          label_guard (Some l) = true ∧
          ∃ r, 2 ≤ r ≤ max_row (Spec.ledger st') ∧ Spec.ledger st' !! (r, 1) = Some l) ∧
    (label ∉ Spec.ledger_labels st') ∧
    (∀ f2 d, update_sales_differences st' = Ok (Some f2) →
             file_sheets f2 !! sheet_names "differences" = Some d →
             ∀ r, 2 ≤ r → d !! (r, 1) ≠ Some label).
Proof.
  intros Hin Hrej _. do 4 (split; [done|]).
  assert (Hout : ∀ st0, label ∉ Spec.ledger_labels st0).
  { intros st0 H. apply get_existing_labels_elem in H as [Hacc _].
    unfold accepted in Hacc. congruence. }
  destruct (appendEvent_internal ev st) as [column_header Hint].
  destruct (append_label_rows (Spec.ev_labels ev) (Spec.ev_quantities ev)
              column_header st) as (st' & Hrun & Hrows).
  destruct (append_event_headers (Spec.ev_labels ev) (Spec.ev_quantities ev)
              column_header st) as (st2 & Hrun2 & _ & _ & Hcol).
  rewrite Hrun in Hrun2. injection Hrun2 as <-.
  rewrite <- Hint in Hrun. exists st'. split; [done|]. split; [|split; [|split]].
  - assert (Hk : key_norm label ∈
                 key_norm <$> _merge_labels (Spec.ledger_labels st) (Spec.ev_labels ev)).
    { rewrite merge_labels_keys. apply add_keys_covers. by right. }
    apply list_elem_of_fmap in Hk as (l & Hk & Hl).
    apply list_elem_of_lookup in Hl as [i Hi].
    exists (i + 2), l. split; [lia|]. split; [by apply Hrows|].
    split; [by apply key_eqb_norm|by apply Hcol].
  - intros l. unfold Spec.ledger_labels. rewrite get_existing_labels_elem.
    rewrite max_row_load. unfold accepted.
    split; intros (? & r & ? & Hc); (split; [done|]); exists r; (split; [done|]).
    + by rewrite cell_value_load in Hc.
    + by rewrite cell_value_load.
  - apply Hout.
  - intros f2 d Hrun2 Hd r Hr Hcell.
    rewrite (update_sales_differences_labels _ _ _ Hrun2 Hd r Hr) in Hcell.
    apply (Hout st'). by eapply list_elem_of_lookup_2.
Qed.

Lemma storable_sale_A_Label : storable_event sale_A_Label.
Proof.
  split; [|split].
  - repeat constructor; by vm_compute.
  - constructor; [by apply (storable_whole_number 1)|].
    constructor; [by apply (storable_whole_number 2)|constructor].
  - reflexivity.
Qed.

Lemma rejected_label_is_dropped_witness :
  ∃ st',
    Spec.appendEvent sale_A_Label None = Ok st' ∧
    (∃ r l, 2 ≤ r ∧ Spec.ledger st' !! (r, 1) = Some l ∧
            key_eqb (VStr "Label") l = true ∧
            Spec.ledger st' !! (r, max_column (Spec.ledger None) + 1) =
            dict_get (dict_of (zip (Spec.ev_labels sale_A_Label)
                                   (Spec.ev_quantities sale_A_Label))) l) ∧
    (VStr "Label" ∉ Spec.ledger_labels st') ∧
    (∀ f2 d, update_sales_differences st' = Ok (Some f2) →
             file_sheets f2 !! sheet_names "differences" = Some d →
             ∀ r, 2 ≤ r → d !! (r, 1) ≠ Some (VStr "Label")).
Proof.
  destruct (rejected_label_is_dropped None sale_A_Label (VStr "Label"))
    as (_ & _ & _ & _ & st' & Hrun & Hrow & _ & Hout & Hdiff).
  - apply list_elem_of_further, list_elem_of_here.
  - reflexivity.
  - apply storable_sale_A_Label.
  - exists st'. split; [exact Hrun|]. split; [exact Hrow|]. split; [exact Hout|exact Hdiff].
Defined.

(** C10 at a concrete ledger: Sale 1 records 1 for [A] and 2 for
    [Label]; the append of Sale 2 with [A] alone adds no label, so
    nothing is realigned, and the row of [Label] is in the ledger as
    before, with its quantity 2. *)
Lemma rejected_row_survives_append :
  ∃ st1 st2,
    Spec.appendEvent sale_A_Label None = Ok st1 ∧
    Spec.appendEvent sale_A st1 = Ok st2 ∧
    VStr "Label" ∈ Spec.ev_labels sale_A_Label ∧
    label_guard (Some (VStr "Label")) = false ∧
    Spec.ledger st1 !! (3, 1) = Some (VStr "Label") ∧
    Spec.ledger st1 !! (3, 2) = Some (VNum (float_of_Z 2)) ∧
    Spec.ledger st2 !! (3, 1) = Some (VStr "Label") ∧
    Spec.ledger st2 !! (3, 2) = Some (VNum (float_of_Z 2)) ∧
    Spec.event_headers st2 = [Some (VStr "Sale 1"); Some (VStr "Sale 2")].
Proof.
  eexists _, _. split; [by vm_compute|]. split; [by vm_compute|].
  split; [apply list_elem_of_further, list_elem_of_here|].
  split; [done|]. split; [by vm_compute|]. split; [by vm_compute|].
  split; [by vm_compute|]. split; by vm_compute.
Qed.

(** C3 at a concrete ledger: Sale 1 records 1 for [Label] and 2 for
    [A]; the append of Sale 2 with the new label [B] reads the label set
    back without [Label], takes the value of row 2 for [A], and so
    records 1 for [A] in the column of Sale 1, where 2 was recorded. *)
Lemma realignment_moves_value_across_labels :
  ∃ st1 st2,
    Spec.appendEvent sale_Label_A None = Ok st1 ∧
    Spec.appendEvent sale_B st1 = Ok st2 ∧
    Spec.ledger_labels st1 = [VStr "A"] ∧
    Spec.ledger_labels st2 = [VStr "A"; VStr "B"] ∧
    Spec.event_headers st1 = [Some (VStr "Sale 1")] ∧
    Spec.recorded st1 (VStr "A") 2 = Some (VNum (float_of_Z 2)) ∧
    Spec.recorded st2 (VStr "A") 2 = Some (VNum (float_of_Z 1)).
Proof.
  eexists _, _. split; [by vm_compute|]. split; [by vm_compute|].
  split; [by vm_compute|]. split; [by vm_compute|]. split; [by vm_compute|].
  split; by vm_compute.
Qed.
(** C8 (as amended).  For a ledger whose event headers parse and whose
    column A lists proper labels and nothing else, so that every label
    stands in the row the engines take for it, the difference engine
    succeeds whatever the cells hold.  In the column of each qualifying
    adjacent pair, the cell in the row of a label is the first event's
    value of that row minus the second's when both are whole numbers,
    and is absent when one of the two is missing or no number. *)
Theorem difference_cells_spec f h inventory_columns labels :
  file_sheets f !! sheet_names "history" = Some h →
  read_inventory_columns (load h) = Ok inventory_columns →
  lists_labels h labels → Forall proper_label labels →
  ∃ f' d,
    update_sales_differences (Some f) = Ok (Some f') ∧
    file_sheets f' !! sheet_names "differences" = Some d ∧
    ∀ k e i label,
      Spec.emitted inventory_columns !! k = Some e →
      labels !! i = Some label →
      h !! (i + 2, 1) = Some label ∧
      d !! (i + 2, 1) = Some label ∧
      (∀ x y, Spec.numeric (h !! (i + 2, col e.1.1)) = Some x →
              Spec.numeric (h !! (i + 2, col e.1.2)) = Some y →
              whole x → whole y →
              d !! (i + 2, k + 2) = Some (VNum (fsub x y))) ∧
      (Spec.numeric (h !! (i + 2, col e.1.1)) = None ∨
       Spec.numeric (h !! (i + 2, col e.1.2)) = None →
       d !! (i + 2, k + 2) = None).
Proof.
  intros Hh Hcols Hlist Hprop.
  assert (Hacc : Forall accepted labels).
  { eapply Forall_impl; [exact Hprop|]. by intros l [_ H]. }
  destruct (update_sales_differences_run f h _ Hh Hcols)
    as (f' & d & Hrun & Hd & _ & Hlabels & Hcells & _).
  rewrite (lists_labels_read _ _ Hlist Hacc) in Hlabels, Hcells.
  exists f', d. split; [done|]. split; [done|].
  intros k e i label He Hi.
  split; [by apply (proj1 Hlist)|]. split; [by apply Hlabels|].
  assert (Hcell : d !! (i + 2, k + 2) =
            VNum <$> Spec.difference_cell (h !! (i + 2, col e.1.1))
                       (h !! (i + 2, col e.1.2))).
  { rewrite Hcells by lia. replace (k + 2 - 2) with k by lia. rewrite He.
    cbn [mbind option_bind]. unfold pair_cell.
    rewrite decide_False by lia. replace (i + 2 - 2) with i by lia. rewrite Hi.
    rewrite decide_True by lia.
    by destruct (Spec.difference_cell _ _). }
  rewrite Hcell. unfold Spec.difference_cell. split.
  - intros x y -> -> _ _. done.
  - intros [->| ->]; [done|]. by destruct (Spec.numeric _).
Qed.

Lemma difference_cells_spec_witness :
  ∃ f' d,
    update_sales_differences (Some file_1_3_4) = Ok (Some f') ∧
    file_sheets f' !! sheet_names "differences" = Some d ∧
    d !! (2, 1) = Some (VStr "A") ∧
    d !! (2, 2) = Some (VNum (fsub (float_of_Z 8) (float_of_Z 5))).
Proof.
  assert (H1 : file_sheets file_1_3_4 !! sheet_names "history" = Some ledger_1_3_4)
    by (vm_compute; reflexivity).
  assert (H2 : read_inventory_columns (load ledger_1_3_4) =
               Ok [ {| col := 2; header := "Sale 1"; kind := Sale 1 |};
                    {| col := 3; header := "Sale 3"; kind := Sale 3 |};
                    {| col := 4; header := "Sale 4"; kind := Sale 4 |} ])
    by (vm_compute; reflexivity).
  assert (H3 : lists_labels ledger_1_3_4 [VStr "A"]).
  { split; [|by vm_compute].
    intros i label Hi. destruct i as [|i]; [|by destruct i].
    injection Hi as <-. by vm_compute. }
  assert (H4 : Forall proper_label [VStr "A"])
    by (repeat constructor; by vm_compute).
  destruct (difference_cells_spec file_1_3_4 ledger_1_3_4 _ [VStr "A"] H1 H2 H3 H4)
    as (f' & d & Hrun & Hd & Hc).
  exists f', d. split; [exact Hrun|]. split; [exact Hd|].
  assert (He : Spec.emitted
                 [ {| col := 2; header := "Sale 1"; kind := Sale 1 |};
                   {| col := 3; header := "Sale 3"; kind := Sale 3 |};
                   {| col := 4; header := "Sale 4"; kind := Sale 4 |} ] !! 0 =
               Some ({| col := 3; header := "Sale 3"; kind := Sale 3 |},
                     {| col := 4; header := "Sale 4"; kind := Sale 4 |},
                     "Difference Sale 3 - Sale 4"))
    by (vm_compute; reflexivity).
  destruct (Hc 0 _ 0 (VStr "A") He eq_refl) as (_ & Hlabel & Hcell & _).
  split; [exact Hlabel|].
  apply (Hcell (float_of_Z 8) (float_of_Z 5)).
  - by vm_compute.
  - by vm_compute.
  - by exists 8%Z.
  - by exists 5%Z.
Defined.

(** C8 at a concrete ledger: the label 0 stands in row 2 above the
    label [C] in row 3.  The label set read back is [C] alone, so the
    engine takes row 2 for [C]: the difference written for [C] is
    9 - 4 = 5, from the cells of the other row, and not 100 - 50, the
    difference of the two values recorded for [C]. *)
Lemma difference_taken_from_row_above :
  ∃ f' d,
    update_sales_differences (Some file_zero_above) = Ok (Some f') ∧
    file_sheets f' !! sheet_names "differences" = Some d ∧
    _get_existing_labels (load ledger_zero_above) = [VStr "C"] ∧
    ledger_zero_above !! (3, 1) = Some (VStr "C") ∧
    ledger_zero_above !! (3, 2) = Some (VNum (float_of_Z 100)) ∧
    ledger_zero_above !! (3, 3) = Some (VNum (float_of_Z 50)) ∧
    d !! (1, 2) = Some (VStr "Difference Sale 1 - Sale 2") ∧
    d !! (2, 1) = Some (VStr "C") ∧
    d !! (2, 2) = Some (VNum (float_of_Z 5)) ∧
    d !! (3, 1) = None ∧
    d !! (3, 2) = None ∧
    d !! (2, 2) ≠ VNum <$> Spec.difference_cell (ledger_zero_above !! (3, 2))
                             (ledger_zero_above !! (3, 3)).
Proof.
  eexists _, _. split; [by vm_compute|]. split; [by vm_compute|].
  do 9 (split; [by vm_compute|]). by vm_compute.
Qed.

End LabelSet.

(** ** Predictions *)
Section Predictions.
Import Py Sheet Inventory.
Implicit Types (ws : gmap (nat * nat) (option value)) (labels : list value).

Lemma well_formed_cells_numeric s r c a :
  well_formed_cells s → Spec.numeric (s !! (r, c)) = Some a →
  valid_binary prec emax a = true.
Proof.
  intros Hs Ha. destruct (s !! (r, c)) as [v|] eqn:E; [|done].
  specialize (Hs _ _ E). unfold well_formed in Hs. cbn in Ha.
  destruct (to_float v); by simplify_eq.
Qed.

Lemma predict_row_total idx current avg_use a ws fills :
  to_float avg_use = Ok a →
  valid_binary prec emax a = true → valid_binary prec emax current = true →
  ∃ fills',
    predict_row idx current (Some avg_use) (ws, fills) =
    Ok (set_cell (set_cell ws idx 3 (Some (VNum (round2 (fmul a (float_of_Z 7))))))
          idx 4 (Some (status current (fmul a (float_of_Z 7)))),
        fills').
Proof.
  intros Ha Hva Hvc. unfold predict_row, status. rewrite Ha.
  set (prediction := fmul a (float_of_Z 7)).
  assert (Hvp : valid_binary prec emax prediction = true).
  { unfold prediction.
    change (float_of_Z 7) with (S754_finite false 7881299347898368 (-50)).
    by apply fmul_normal_valid. }
  destruct (fge current prediction) eqn:Hge; [by eexists|].
  destruct (shortage_color_total prediction current Hvp Hvc Hge) as [[color ->]| ->];
    by eexists.
Qed.

Lemma read_current_stock_total ws latest_col labels :
  (∀ r v x, cell_value ws r latest_col = Some v → to_float v = Ok x →
            valid_binary prec emax x = true) →
  ∃ current_stock_map,
    read_current_stock ws latest_col labels = Ok current_stock_map ∧
    ∀ k x, dict_get current_stock_map k = Some x → valid_binary prec emax x = true.
Proof.
  intros Hws. unfold read_current_stock.
  assert (Hnil : ∀ k x, dict_get ([] : dict float) k = Some x →
                        valid_binary prec emax x = true) by done.
  revert Hnil. generalize ([] : dict float). generalize (enumerate 2 labels).
  induction l as [|il l IH]; intros d Hd.
  - by exists d.
  - rewrite foldM_cons.
    destruct (cell_value ws il.1 latest_col) as [stock|] eqn:E;
      [|cbn [mbind result_bind]; by apply IH].
    destruct (to_float stock) as [x|e] eqn:Ex.
    + cbn [mbind result_bind]. apply IH. intros k y. rewrite dict_get_set.
      case_decide; [|by apply Hd]. intros [= <-]. by eapply Hws.
    + rewrite (to_float_raise _ _ Ex). cbn [mbind result_bind]. by apply IH.
Qed.

Lemma prediction_loop current_stock_map avg_ws (l : list (nat * value)) ws fills :
  (∀ k x, dict_get current_stock_map k = Some x → valid_binary prec emax x = true) →
  (∀ r a, Spec.numeric (cell_value avg_ws r 2) = Some a →
          valid_binary prec emax a = true) →
  ∃ fills',
    foldM (λ (state : gmap (nat * nat) (option value) * gmap (nat * nat) string) il,
             let '(pred_ws, fills) := state in
             let pred_ws := set_cell pred_ws il.1 1 (Some il.2) in
             let current :=
               default (float_of_Z 0) (dict_get current_stock_map il.2) in
             let pred_ws := set_cell pred_ws il.1 2 (Some (VNum current)) in
             let avg_use := cell_value avg_ws il.1 2 in
             predict_row il.1 current avg_use (pred_ws, fills))
          (ws, fills) l =
    Ok (foldl (prediction_cells current_stock_map avg_ws) ws l, fills').
Proof.
  intros Hmap Havg. revert ws fills.
  induction l as [|il l IH]; intros ws fills; [by eexists|].
  rewrite foldM_cons. cbn [foldl].
  set (current := default (float_of_Z 0) (dict_get current_stock_map il.2)).
  assert (Hvc : valid_binary prec emax current = true).
  { unfold current. destruct (dict_get current_stock_map il.2) eqn:E; [|done].
    by eapply Hmap. }
  assert (Hstep : ∃ fills1,
    predict_row il.1 current (cell_value avg_ws il.1 2)
      (set_cell (set_cell ws il.1 1 (Some il.2)) il.1 2 (Some (VNum current)), fills) =
    Ok (prediction_cells current_stock_map avg_ws ws il, fills1)).
  { unfold prediction_cells. fold current.
    destruct (cell_value avg_ws il.1 2) as [avg_use|] eqn:Ec;
      [|by eexists].
    destruct (to_float avg_use) as [a|e] eqn:Ea.
    - assert (Hn : Spec.numeric (cell_value avg_ws il.1 2) = Some a).
      { rewrite Ec. cbn. by rewrite Ea. }
      rewrite Ec in Hn. rewrite Hn.
      apply predict_row_total; [done| |done].
      apply (Havg il.1). by rewrite Ec.
    - assert (Hn : Spec.numeric (Some avg_use) = None) by (cbn; by rewrite Ea).
      rewrite Hn. unfold predict_row. rewrite Ea.
      rewrite (to_float_raise _ _ Ea). by eexists. }
  destruct Hstep as [fills1 Hstep]. cbn zeta. fold current.
  rewrite Hstep. cbn [mbind result_bind]. apply IH.
Qed.

Lemma cell_value_prediction_cells current_stock_map avg_ws ws il r c :
  cell_value (prediction_cells current_stock_map avg_ws ws il) r c =
  if decide (r = il.1) then
    let current := default (float_of_Z 0) (dict_get current_stock_map il.2) in
    let prediction := (λ a, fmul a (float_of_Z 7)) <$>
                      Spec.numeric (cell_value avg_ws il.1 2) in
    if decide (c = 1) then Some il.2
    else if decide (c = 2) then Some (VNum current)
    else if decide (c = 3)
         then default (cell_value ws r c) ((λ p, Some (VNum (round2 p))) <$> prediction)
    else if decide (c = 4)
         then default (cell_value ws r c) ((λ p, Some (status current p)) <$> prediction)
    else cell_value ws r c
  else cell_value ws r c.
Proof.
  unfold prediction_cells. cbn zeta.
  destruct (Spec.numeric (cell_value avg_ws il.1 2)) as [a|];
    cbn [fmap option_fmap option_map default];
    rewrite !cell_value_set_cell;
    repeat case_decide; simplify_eq; try done; try lia.
Qed.
(** C7 (as amended).  When the average and ledger sheets hold
    well-formed binary64 numbers, [update_predictions] succeeds, and for
    every label with an average entry [a] the projection cell holds
    [a * 7] rounded to two decimals, while the status is decided on the
    product [a * 7] itself, not on its rounding: it is the text
    [Adequate Stock] exactly when the current stock is at least [a * 7]
    (equality included), and otherwise the number [a * 7 - current]
    rounded to two decimals. *)
Theorem prediction_status_spec f avg h :
  file_sheets f !! sheet_names "average" = Some avg →
  file_sheets f !! sheet_names "history" = Some h →
  well_formed_cells avg → well_formed_cells h →
  ∃ f' pred,
    update_predictions (Some f) = Ok (Some f') ∧
    file_sheets f' !! sheet_names "predictions" = Some pred ∧
    ∀ i label a,
      _get_existing_labels (load avg) !! i = Some label →
      Spec.numeric (avg !! (i + 2, 2)) = Some a →
      ∃ current,
        let prediction := fmul a (float_of_Z 7) in
        pred !! (i + 2, 1) = Some label ∧
        pred !! (i + 2, 2) = Some (VNum current) ∧
        pred !! (i + 2, 3) = Some (VNum (round2 prediction)) ∧
        pred !! (i + 2, 4) =
        Some (if fge current prediction then VStr "Adequate Stock"
              else VNum (round2 (fsub prediction current))).
Proof.
  intros Havg Hh Wavg Wh. unfold update_predictions.
  rewrite (get_sheet_load _ _ _ Havg), (get_sheet_load _ _ _ Hh).
  cbn [mbind result_bind].
  set (labels := _get_existing_labels (load avg)).
  destruct (read_current_stock_total (load h) (max_column (load h)) labels)
    as (current_stock_map & -> & Hmap).
  { intros r v x Hc Hx. rewrite cell_value_load in Hc.
    specialize (Wh _ _ Hc). unfold well_formed in Wh. by rewrite Hx in Wh. }
  cbn [mbind result_bind].
  set (base := set_cell _ 1 4 _).
  destruct (prediction_loop current_stock_map (load avg) (enumerate 2 labels) base ∅ Hmap)
    as [fills' Hloop].
  { intros r a Ha. rewrite cell_value_load in Ha.
    exact (well_formed_cells_numeric avg r 2 a Wavg Ha). }
  cbn zeta in Hloop. rewrite Hloop. cbn [mbind result_bind].
  eexists _, _. split; [reflexivity|].
  set (final := foldl _ base _).
  assert (Hsaved : ∀ wb fl name,
    file_sheets (save_workbook (_organize_sheets
      {| sheets := sheets (set_sheet wb (sheet_names "predictions") final);
         fills := fl |})) !! name =
    file_sheets (save_workbook (_organize_sheets
      (set_sheet wb (sheet_names "predictions") final))) !! name) by done.
  rewrite Hsaved, saved_sheet_set by (repeat constructor).
  rewrite decide_True by done. split; [reflexivity|].
  intros i label a Hi Ha.
  exists (default (float_of_Z 0) (dict_get current_stock_map label)).
  assert (Hcell : ∀ c,
    cell_value final (i + 2) c =
    let current := default (float_of_Z 0) (dict_get current_stock_map label) in
    let prediction := fmul a (float_of_Z 7) in
    if decide (c = 1) then Some label
    else if decide (c = 2) then Some (VNum current)
    else if decide (c = 3) then Some (VNum (round2 prediction))
    else if decide (c = 4) then Some (status current prediction)
    else cell_value base (i + 2) c).
  { intros c. unfold final.
    rewrite (cell_value_foldl_rows _
      (λ il c old,
         let current := default (float_of_Z 0) (dict_get current_stock_map il.2) in
         let prediction := (λ a, fmul a (float_of_Z 7)) <$>
                           Spec.numeric (cell_value (load avg) il.1 2) in
         if decide (c = 1) then Some il.2
         else if decide (c = 2) then Some (VNum current)
         else if decide (c = 3)
              then default old ((λ p, Some (VNum (round2 p))) <$> prediction)
         else if decide (c = 4)
              then default old ((λ p, Some (status current p)) <$> prediction)
         else old)).
    2:{ intros ws il r c'. by rewrite cell_value_prediction_cells. }
    replace (i + 2 - 2) with i by lia. rewrite Hi.
    rewrite decide_True by lia. cbn [fst snd]. cbn zeta.
    rewrite cell_value_load, Ha. done. }
  cbn zeta. rewrite !lookup_save, !Hcell. cbn zeta.
  repeat (split; [done|]). done.
Qed.

Lemma prediction_status_spec_witness :
  ∃ f' pred,
    update_predictions (Some file_tenths) = Ok (Some f') ∧
    file_sheets f' !! sheet_names "predictions" = Some pred ∧
    ∀ i label a,
      _get_existing_labels (load average_tenth) !! i = Some label →
      Spec.numeric (average_tenth !! (i + 2, 2)) = Some a →
      ∃ current,
        let prediction := fmul a (float_of_Z 7) in
        pred !! (i + 2, 1) = Some label ∧
        pred !! (i + 2, 2) = Some (VNum current) ∧
        pred !! (i + 2, 3) = Some (VNum (round2 prediction)) ∧
        pred !! (i + 2, 4) =
        Some (if fge current prediction then VStr "Adequate Stock"
              else VNum (round2 (fsub prediction current))).
Proof.
  apply (prediction_status_spec file_tenths average_tenth ledger_seven_tenths).
  - reflexivity.
  - reflexivity.
  - apply (bool_decide_unpack _). vm_compute. reflexivity.
  - apply (bool_decide_unpack _). vm_compute. reflexivity.
Defined.

(** C7 at a concrete ledger: sales 1 and 2 record the stocks 0.8 and
    0.7 for [A], so the average use is 0.1 and the product by 7 is
    0.7000000000000001.  The projection cell holds 0.7 and the current
    stock is 0.7, so the stock is at least the projection, yet the
    status is not the text but the number 0.0. *)
Lemma status_ignores_rounded_projection :
  ∃ f pred current projection,
    (st ← Spec.appendEvents [sale_eight_tenths; sale_seven_tenths] None;
     st ← update_sales_differences st;
     st ← update_average_use st;
     update_predictions st) = Ok (Some f) ∧
    (file_sheets f !! sheet_names "average" ≫= (.!! (2, 2)))
      = Some (VNum (float_of_ratio false 1 10)) ∧
    file_sheets f !! sheet_names "predictions" = Some pred ∧
    pred !! (2, 2) = Some (VNum current) ∧
    pred !! (2, 3) = Some (VNum projection) ∧
    current = float_of_ratio false 7 10 ∧
    projection = float_of_ratio false 7 10 ∧
    fge current projection = true ∧
    pred !! (2, 4) = Some (VNum (S754_zero false)) ∧
    pred !! (2, 4) ≠ Some (VStr "Adequate Stock").
Proof.
  eexists _, _, _, _. split; [by vm_compute|]. split; [by vm_compute|].
  split; [by vm_compute|]. split; [by vm_compute|]. split; [by vm_compute|].
  split; [by vm_compute|]. split; [by vm_compute|]. split; [by vm_compute|].
  split; by vm_compute.
Qed.
End Predictions.

(** ** Quotients and roundings are well-formed *)
Section Quotients.
Import Py.
Local Open Scope Z_scope.

Lemma shr_fexp_canonical_nonneg m e l :
  0 ≤ m → e ≤ fexp prec emax (Zdigits2 m + e) →
  let '(mrs, e') := shr_fexp prec emax m e l in
  0 ≤ shr_m mrs ∧
  (0 < shr_m mrs → fexp prec emax (Zdigits2 (shr_m mrs) + e') = e') ∧
  (shr_m mrs = 0 → e' = emin prec emax).
Proof.
  intros Hm He. destruct (Z.eq_dec m 0) as [->|Hne].
  - pose proof (shr_fexp_spec 0 e l ltac:(lia)) as H. cbn zeta in H.
    destruct (shr_fexp prec emax 0 e l) as [mrs e'].
    cbn [Zdigits2] in H, He. unfold fexp, emin, prec, emax in *.
    destruct H as [H0 [(Hn & Hq & ->)|(Hn & Hq & ->)]];
      rewrite Hq; rewrite ?Z.div_0_l by (apply Z.pow_nonzero; lia);
      (split; [lia|]); (split; [lia|]); intros _; lia.
  - apply shr_fexp_canonical; [lia|done].
Qed.

Lemma binary_round_aux_valid_nonneg sx mx ex lx :
  0 ≤ mx → ex ≤ fexp prec emax (Zdigits2 mx + ex) →
  valid_binary prec emax (binary_round_aux prec emax sx mx ex lx) = true.
Proof.
  intros Hmx Hex. unfold binary_round_aux.
  pose proof (shr_fexp_canonical_nonneg mx ex lx Hmx Hex) as H1.
  destruct (shr_fexp prec emax mx ex lx) as [mrs1 e1].
  destruct H1 as (H0 & Hcan1 & Hzero1).
  set (m2 := round_nearest_even _ _).
  pose proof (round_nearest_even_bounds (shr_m mrs1) (loc_of_shr_record mrs1)) as Hm2.
  fold m2 in Hm2.
  assert (He1 : e1 ≤ fexp prec emax (Zdigits2 m2 + e1)).
  { destruct (Z.eq_dec (shr_m mrs1) 0) as [Ez|Nz].
    - rewrite (Hzero1 Ez). apply fexp_emin.
    - rewrite <- (Hcan1 ltac:(lia)) at 1. apply fexp_mono.
      pose proof (Zdigits2_mono (shr_m mrs1) m2 ltac:(lia)). lia. }
  pose proof (shr_fexp_canonical_nonneg m2 e1 loc_Exact ltac:(lia) He1) as H3.
  destruct (shr_fexp prec emax m2 e1 loc_Exact) as [mrs3 e3].
  destruct H3 as (H30 & Hcan3 & _).
  destruct (shr_m mrs3) as [|p|p] eqn:E3; [done| |done].
  destruct (e3 <=? emax - prec) eqn:Hle; [|done].
  cbn [valid_binary]. unfold bounded, canonical_mantissa.
  rewrite Hle, andb_true_r. apply Z.eqb_eq.
  apply (Hcan3 ltac:(lia)).
Qed.

(** The quotient the division hands to the rounding carries no more
    precision than the format asks for. *)
Lemma SFdiv_core_precision m1 e1 m2 e2 :
  0 < m1 → 0 < m2 →
  let '(q, e', l) := SFdiv_core_binary prec emax m1 e1 m2 e2 in
  0 ≤ q ∧ e' ≤ fexp prec emax (Zdigits2 q + e').
Proof.
  intros H1 H2. unfold SFdiv_core_binary.
  set (d1 := Zdigits2 m1). set (d2 := Zdigits2 m2).
  set (e' := Z.min _ _).
  assert (He' : e' ≤ fexp prec emax (d1 + e1 - (d2 + e2)) ∧ e' ≤ e1 - e2)
    by (unfold e'; lia).
  set (s := e1 - e2 - e'). assert (Hs0 : 0 ≤ s) by (unfold s; lia).
  set (m' := match s with 0 => m1 | Z.pos _ => Z.shiftl m1 s | Z.neg _ => 0 end).
  assert (Hm' : m' = m1 * 2 ^ s).
  { unfold m'. destruct s eqn:Es; [simpl; lia| |lia].
    by rewrite Z.shiftl_mul_pow2. }
  clearbody m'. subst m'.
  change (IntDef.Z.div_eucl (m1 * 2 ^ s) m2) with (Z.div_eucl (m1 * 2 ^ s) m2).
  pose proof (Z_div_mod (m1 * 2 ^ s) m2 ltac:(lia)) as Hdiv.
  destruct (Z.div_eucl (m1 * 2 ^ s) m2) as [q r].
  destruct Hdiv as [Hq Hr].
  assert (Hps : 0 < 2 ^ s) by (apply Z.pow_pos_nonneg; lia).
  assert (Hq0 : 0 ≤ q) by nia.
  split; [done|].
  destruct (Z.eq_dec q 0) as [->|Hqne].
  - (* the quotient vanishes only where the format bottoms out *)
    cbn [Zdigits2]. rewrite Z.add_0_l.
    assert (Hlt : m1 * 2 ^ s < m2) by lia.
    pose proof (Zdigits2_lower m1 H1) as Hl1. fold d1 in Hl1.
    pose proof (Zdigits2_upper m2 ltac:(lia)) as Hu2. fold d2 in Hu2.
    pose proof (Zdigits2_pos m1 H1) as Hp1. fold d1 in Hp1.
    pose proof (Zdigits2_pos m2 H2) as Hp2. fold d2 in Hp2.
    assert (Hds : d1 - 1 + s < d2).
    { destruct (Z_lt_le_dec (d1 - 1 + s) d2) as [|Hge]; [done|]. exfalso.
      assert (2 ^ d2 ≤ 2 ^ (d1 - 1 + s)) by (apply Z.pow_le_mono_r; lia).
      rewrite Z.pow_add_r in * by lia. nia. }
    unfold fexp, emin, prec, emax in *. unfold s in Hds. lia.
  - assert (Hd : d1 + s - d2 ≤ Zdigits2 q).
    { pose proof (Zdigits2_pos q ltac:(lia)) as Hpq.
      destruct (Z_lt_le_dec (Zdigits2 q) (d1 + s - d2)) as [Hlt|]; [|done]. exfalso.
      pose proof (Zdigits2_upper q Hq0) as Huq.
      pose proof (Zdigits2_lower m1 H1) as Hl1. fold d1 in Hl1.
      pose proof (Zdigits2_upper m2 ltac:(lia)) as Hu2. fold d2 in Hu2.
      pose proof (Zdigits2_pos m1 H1) as Hp1. fold d1 in Hp1.
      pose proof (Zdigits2_pos m2 H2) as Hp2. fold d2 in Hp2.
      assert (Hq1 : q + 1 ≤ 2 ^ (d1 + s - d2 - 1)).
      { assert (2 ^ Zdigits2 q ≤ 2 ^ (d1 + s - d2 - 1))
          by (apply Z.pow_le_mono_r; lia). lia. }
      assert (Hb : m1 * 2 ^ s < 2 ^ (d1 + s - d2 - 1) * 2 ^ d2) by nia.
      rewrite <- Z.pow_add_r in Hb by lia.
      replace (d1 + s - d2 - 1 + d2) with (d1 - 1 + s) in Hb by lia.
      rewrite Z.pow_add_r in Hb by lia. nia. }
    etrans; [apply (proj1 He')|]. apply fexp_mono. unfold s in Hd. lia.
Qed.

Lemma fdiv_valid x y : valid_binary prec emax (fdiv x y) = true.
Proof.
  destruct x as [sx|sx| |sx mx ex], y as [sy|sy| |sy my ey]; try done.
  cbn [fdiv SFdiv].
  pose proof (SFdiv_core_precision (Z.pos mx) ex (Z.pos my) ey ltac:(lia) ltac:(lia)) as H.
  destruct (SFdiv_core_binary prec emax (Z.pos mx) ex (Z.pos my) ey) as [[q e'] l].
  destruct H as [Hq He]. by apply binary_round_aux_valid_nonneg.
Qed.

(** [round(x, 2)] of a well-formed number is well-formed. *)
Lemma round2_valid x :
  valid_binary prec emax x = true → valid_binary prec emax (round2 x) = true.
Proof.
  intros Hx. destruct x as [s|s| |s m e]; try done.
  unfold round2. destruct (hundredths m e); try done. apply fdiv_valid.
Qed.
Lemma round2_valid_any x : valid_binary prec emax (round2 x) = true.
Proof.
  destruct x as [s|s| |s m e]; try done.
  unfold round2. destruct (hundredths m e); try done. apply fdiv_valid.
Qed.
End Quotients.

(** ** Realignment of a well-formed ledger *)
Section RealignSame.
Import Py Sheet Inventory.
Implicit Types (ws : gmap (nat * nat) (option value)) (st : option file).
Implicit Types (prior labels : list value).

Lemma dict_set_fresh {V} (d : dict V) k (v : V) :
  key_norm k ∉ key_norm <$> dict_keys d → dict_set d k v = d ++ [(k, v)].
Proof.
  unfold dict_keys. induction d as [|[k' v'] d IH]; [done|].
  cbn [fmap list_fmap fst dict_set]. intros Hnin.
  rewrite (proj2 (key_eqb_false k' k)).
  - cbn. f_equal. apply IH. intros H. apply Hnin. by right.
  - intros E. apply Hnin. rewrite E. left.
Qed.

Lemma dict_of_NoDup {V} (kvs : list (value * V)) :
  NoDup (key_norm <$> kvs.*1) → dict_of kvs = kvs.
Proof.
  unfold dict_of. intros Hnd.
  enough (∀ d, NoDup (key_norm <$> (d ++ kvs).*1) →
               foldl (λ d kv, dict_set d kv.1 kv.2) d kvs = d ++ kvs) as H
    by (by apply (H [])).
  clear Hnd. induction kvs as [|[k v] kvs IH]; intros d Hnd; [by rewrite app_nil_r|].
  cbn [foldl fst snd]. rewrite dict_set_fresh.
  - rewrite IH; rewrite <- app_assoc; done.
  - rewrite !fmap_app in Hnd. apply NoDup_app in Hnd as (_ & Hd & _).
    intros Hin. apply (Hd _ Hin). cbn. left.
Qed.

Lemma dict_get_lookup {V} (d : list (value * V)) i k (v : V) :
  NoDup (key_norm <$> d.*1) → d !! i = Some (k, v) → dict_get d k = Some v.
Proof.
  revert i. induction d as [|[k' v'] d IH]; intros i Hnd Hi; [done|].
  cbn [fmap list_fmap fst] in Hnd. apply NoDup_cons in Hnd as [Hnin Hnd].
  destruct i as [|i]; cbn in Hi.
  - injection Hi as -> ->. cbn [dict_get]. by rewrite key_eqb_refl.
  - cbn [dict_get]. rewrite (proj2 (key_eqb_false k' k)); [by eapply IH|].
    intros E. apply Hnin. rewrite E. apply list_elem_of_fmap. exists k.
    split; [done|]. apply list_elem_of_fmap. exists (k, v). split; [done|].
    by eapply list_elem_of_lookup_2.
Qed.

(** With pairwise distinct labels, [label_to_new_row] sends each label
    to the row of its position. *)
Lemma label_to_new_row_lookup all_labels i label :
  NoDup (key_norm <$> all_labels) → all_labels !! i = Some label →
  dict_get (dict_of ((λ il : nat * value, (il.2, il.1 + 2)) <$> enumerate 0 all_labels))
    label = Some (i + 2).
Proof.
  intros Hnd Hi.
  assert (Hkeys : ((λ il : nat * value, (il.2, il.1 + 2)) <$> enumerate 0 all_labels).*1
                  = all_labels).
  { rewrite <- list_fmap_compose. rewrite <- (enumerate_snd 0 all_labels) at 2.
    by apply list_fmap_ext. }
  rewrite dict_of_NoDup by (by rewrite Hkeys).
  apply (dict_get_lookup _ i); [by rewrite Hkeys|].
  rewrite list_lookup_fmap.
  by rewrite enumerate_lookup, Hi.
Qed.

(** With pairwise distinct labels, [values_to_move] lists the labels
    whose cell in the column is not empty, in order, with that cell. *)
Lemma values_to_move_list ws col (l : list (nat * value)) (d : dict value) :
  NoDup (key_norm <$> (dict_keys d ++ l.*2)) →
  foldl (λ (d : dict value) (il : nat * value),
           match cell_value ws il.1 col with
           | Some cell_value => dict_set d il.2 cell_value
           | None => d
           end) d l =
  d ++ omap (λ il : nat * value, (λ v, (il.2, v)) <$> cell_value ws il.1 col) l.
Proof.
  revert d. induction l as [|[idx label] l IH]; intros d Hnd; [by rewrite app_nil_r|].
  cbn [foldl fst snd omap list_omap]. cbn [fmap list_fmap snd] in Hnd.
  destruct (cell_value ws idx col) as [v|] eqn:E;
    cbn [fmap option_fmap option_map].
  - rewrite dict_set_fresh.
    + rewrite IH; [by rewrite <- app_assoc|].
      replace (dict_keys (d ++ [(label, v)]) ++ l.*2)
        with (dict_keys d ++ label :: l.*2); [done|].
      unfold dict_keys. rewrite (fmap_app fst). cbn [fmap list_fmap fst].
      by rewrite <- app_assoc.
    + rewrite fmap_app in Hnd. apply NoDup_app in Hnd as (_ & Hd & _).
      intros Hin. apply (Hd _ Hin). cbn. left.
  - apply IH. rewrite fmap_app in *. cbn [fmap list_fmap] in Hnd.
    apply NoDup_app in Hnd as (H1 & H2 & H3). apply NoDup_cons in H3 as [_ H3].
    apply NoDup_app. split; [done|]. split; [|done].
    intros x Hx Hx'. apply (H2 x Hx). by right.
Qed.

(** Writing the moved values back, when every label is sent to the row
    it was read from. *)
Lemma write_back_own_rows (label_to_new_row : dict nat) wsO col
    (l : list (nat * value)) ws :
  (∀ il, il ∈ l → dict_get label_to_new_row il.2 = Some il.1) →
  foldM (λ ws (lv : value * value),
           match dict_get label_to_new_row lv.1 with
           | Some new_row => Ok (set_cell ws new_row col (Some lv.2))
           | None => Raise KeyError
           end)
        ws (omap (λ il : nat * value, (λ v, (il.2, v)) <$> cell_value wsO il.1 col) l) =
  Ok (foldl (λ ws (il : nat * value),
               match (λ v, Some v) <$> cell_value wsO il.1 col with
               | Some v => set_cell ws il.1 col v
               | None => ws
               end) ws l).
Proof.
  revert ws. induction l as [|[idx label] l IH]; intros ws Hl; [done|].
  cbn [omap list_omap foldl fst snd].
  destruct (cell_value wsO idx col) as [v|] eqn:E;
    cbn [fmap option_fmap option_map].
  - rewrite foldM_cons. cbn [fst snd].
    pose proof (Hl (idx, label) ltac:(left)) as Hd. cbn [fst snd] in Hd. rewrite Hd.
    cbn [mbind result_bind fst snd]. apply IH. intros il Hil. apply Hl. by right.
  - apply IH. intros il Hil. apply Hl. by right.
Qed.

Lemma cell_value_clear_rows ws col (rows : list nat) r c :
  cell_value (foldl (λ ws row, set_cell ws row col None) ws rows) r c =
  if decide (c = col ∧ r ∈ rows) then None else cell_value ws r c.
Proof.
  revert ws. induction rows as [|row rows IH]; intros ws; cbn [foldl].
  - rewrite decide_False; [done|]. intros [_ H]. by apply elem_of_nil in H.
  - rewrite IH, cell_value_set_cell.
    destruct (decide (c = col ∧ r ∈ rows)) as [[-> Hin]|Hn].
    + rewrite decide_True; [done|]. split; [done|by right].
    + destruct (decide ((row, col) = (r, c))) as [[= -> ->]|Hne].
      * rewrite decide_True; [done|]. split; [done|left].
      * rewrite decide_False; [done|].
        intros [-> [->|Hin]%elem_of_cons]; [done|]. apply Hn. done.
Qed.

(** One column of the realignment leaves every cell value as it was,
    when each existing label is sent to its own row and the sheet has no
    value below the rows of the labels. *)
Lemma realign_column_same ws prior (label_to_new_row : dict nat) col :
  NoDup (key_norm <$> prior) →
  (∀ i label, prior !! i = Some label →
              dict_get label_to_new_row label = Some (i + 2)) →
  (∀ r v, cell_value ws r col = Some v → r ≤ length prior + 1) →
  ∃ ws',
    realign_column prior label_to_new_row ws col = Ok ws' ∧
    ∀ r c, cell_value ws' r c = cell_value ws r c.
Proof.
  intros Hnd Hrow Hbelow. unfold realign_column. cbn zeta.
  rewrite (values_to_move_list ws col (enumerate 2 prior) [])
    by (cbn; by rewrite enumerate_snd).
  rewrite app_nil_l, (write_back_own_rows label_to_new_row ws col).
  2:{ intros [idx label] [Hk Hl]%elem_of_enumerate. cbn [fst snd].
      rewrite (Hrow _ _ Hl). f_equal. lia. }
  eexists. split; [reflexivity|]. intros r c.
  rewrite (cell_value_foldl_column
             (λ il : nat * value, (λ v, Some v) <$> cell_value ws il.1 col) col).
  rewrite cell_value_clear_rows.
  destruct (prior !! (r - 2)) as [label|] eqn:E.
  - destruct (decide (2 ≤ r ∧ c = col)) as [[Hr ->]|Hn].
    + cbn [fst]. destruct (cell_value ws r col) as [v|] eqn:Ev; [done|].
      cbn. by case_decide.
    + rewrite decide_False; [done|]. intros [-> Hin%elem_of_seq]. apply Hn. lia.
  - case_decide as Hc; [|done]. destruct Hc as [-> Hin%elem_of_seq].
    destruct (cell_value ws r col) as [v|] eqn:Ev; [|done].
    apply Hbelow in Ev. apply lookup_ge_None in E. lia.
Qed.

Lemma realign_same ws prior all_labels :
  NoDup (key_norm <$> all_labels) → prior `prefix_of` all_labels →
  (∀ r c v, cell_value ws r c = Some v → r ≤ length prior + 1) →
  ∃ ws',
    _realign_existing_columns ws prior all_labels = Ok ws' ∧
    ∀ r c, cell_value ws' r c = cell_value ws r c.
Proof.
  intros Hnd [extra ->] Hbelow. unfold _realign_existing_columns. cbn zeta.
  generalize (seq 2 (max_column ws - 1)). intros cols.
  enough (∀ ws0, (∀ r c, cell_value ws0 r c = cell_value ws r c) →
            ∃ ws',
              foldM (realign_column prior
                       (dict_of ((λ il : nat * value, (il.2, il.1 + 2))
                                   <$> enumerate 0 (prior ++ extra)))) ws0 cols = Ok ws' ∧
              ∀ r c, cell_value ws' r c = cell_value ws r c) as H by (by apply H).
  induction cols as [|col cols IH]; intros ws0 H0; [by exists ws0|].
  destruct (realign_column_same ws0 prior
              (dict_of ((λ il : nat * value, (il.2, il.1 + 2))
                          <$> enumerate 0 (prior ++ extra))) col) as (ws1 & E1 & H1).
  - rewrite fmap_app in Hnd. by apply NoDup_app in Hnd as (? & _).
  - intros i label Hi. apply label_to_new_row_lookup; [done|].
    by apply lookup_app_l_Some.
  - intros r v Hv. rewrite H0 in Hv. by eapply Hbelow.
  - rewrite foldM_cons, E1. cbn [mbind result_bind]. apply IH.
    intros r c. by rewrite H1, H0.
Qed.
(** Column A of a ledger that lists [labels], as the list of its cells
    below the header. *)
Lemma lists_labels_column (h : gmap (nat * nat) value) labels :
  lists_labels h labels →
  (λ r, h !! (r, 1)) <$> seq 2 (max_row h - 1) = Some <$> labels.
Proof.
  intros [Hrows Hmax].
  assert (Hlen : max_row h - 1 = length labels).
  { destruct (decide (length labels = 0)) as [E|E].
    - pose proof (max_row_pos h). lia.
    - destruct (lookup_lt_is_Some_2 labels (length labels - 1)) as [l Hl]; [lia|].
      apply Hrows in Hl.
      pose proof (max_row_ge h (length labels - 1 + 2) 1 (mk_is_Some _ _ Hl)). lia. }
  rewrite Hlen. apply list_eq. intros i. rewrite !list_lookup_fmap.
  destruct (labels !! i) as [l|] eqn:E.
  - rewrite lookup_seq_lt by (by eapply lookup_lt_Some).
    cbn [fmap option_fmap option_map].
    replace (2 + i) with (i + 2) by lia. by rewrite (Hrows _ _ E).
  - apply lookup_ge_None in E. rewrite lookup_seq_ge by lia. done.
Qed.

(** The value recorded for a listed label is the cell in the row of its
    first occurrence. *)
Lemma recorded_listed st labels i label c :
  lists_labels (Spec.ledger st) labels →
  labels !! i = Some label → (∀ j, j < i → labels !! j ≠ Some label) →
  Spec.recorded st label c = Spec.ledger st !! (i + 2, c).
Proof.
  intros Hlist Hi Hfirst. unfold Spec.recorded.
  rewrite (lists_labels_column _ _ Hlist).
  assert (Hf : list_find (λ v, v = Some label) (Some <$> labels) = Some (i, Some label)).
  { apply list_find_Some. split; [by rewrite list_lookup_fmap, Hi|].
    split; [done|]. intros j y Hj Hlt ->.
    rewrite list_lookup_fmap in Hj. apply (Hfirst j Hlt).
    destruct (labels !! j) as [x|]; cbn in Hj; by simplify_eq. }
  by rewrite Hf.
Qed.

(** An append to a well-formed ledger: the sheet that is written is the
    ledger as it was, with the labels and the new column on top. *)
Lemma append_run_same labels stock_values column_header st prior :
  lists_labels (Spec.ledger st) prior → Forall accepted prior →
  NoDup (key_norm <$> prior) →
  ∃ ws1 f',
    _update_inventory_history_internal labels stock_values column_header st
      = Ok (Some f') ∧
    (∀ r c, cell_value ws1 r c = Spec.ledger st !! (r, c)) ∧
    Spec.ledger (Some f') =
    save (_add_inventory_column
            (_write_labels_to_column ws1 (foldl add_key prior labels))
            (foldl add_key prior labels)
            (dict_of (zip labels stock_values)) column_header).
Proof.
  intros Hlist Hacc Hnd. unfold _update_inventory_history_internal. cbn zeta.
  rewrite history_sheet_loaded. set (h := Spec.ledger st) in *.
  replace (0 <? max_row (load h)) with true
    by (symmetry; apply Nat.ltb_lt; pose proof (max_row_pos (load h)); lia).
  rewrite (lists_labels_read _ _ Hlist Hacc).
  rewrite merge_labels_keys, (add_keys_id _ Hnd).
  set (all_labels := foldl add_key prior labels).
  assert (Hre : ∃ ws1,
             (if length prior <? length all_labels
              then _realign_existing_columns (load h) prior all_labels
              else Ok (load h)) = Ok ws1 ∧
             ∀ r c, cell_value ws1 r c = h !! (r, c)).
  { destruct (length prior <? length all_labels).
    - destruct (realign_same (load h) prior all_labels) as (ws1 & E & H1).
      + by apply add_keys_NoDup.
      + apply add_keys_prefix.
      + intros r c v Hv. rewrite cell_value_load in Hv.
        pose proof (max_row_ge h r c (mk_is_Some _ _ Hv)).
        destruct Hlist as [_ Hmax]. lia.
      + exists ws1. split; [done|]. intros r c. by rewrite H1, cell_value_load.
    - exists (load h). split; [done|]. intros r c. apply cell_value_load. }
  destruct Hre as (ws1 & -> & H1). cbn [mbind result_bind].
  eexists ws1, _. split; [reflexivity|]. split; [done|].
  unfold Spec.ledger. cbn [mbind option_bind].
  rewrite saved_sheet_set by (repeat constructor).
  by rewrite decide_True.
Qed.
Lemma NoDup_first (l : list value) i j x :
  NoDup (key_norm <$> l) → l !! i = Some x → j < i → l !! j ≠ Some x.
Proof.
  intros Hnd Hi Hlt Hj. apply NoDup_fmap_1 in Hnd.
  pose proof (NoDup_lookup _ _ _ _ Hnd Hi Hj). lia.
Qed.

(** An append to a ledger that lists its labels leaves every cell of
    the existing event columns as it was. *)
Lemma append_keeps_cells labels stock_values column_header st prior :
  lists_labels (Spec.ledger st) prior → Forall accepted prior →
  NoDup (key_norm <$> prior) →
  ∃ st',
    _update_inventory_history_internal labels stock_values column_header st = Ok st' ∧
    ∀ r c, 2 ≤ c ≤ max_column (Spec.ledger st) →
           Spec.ledger st' !! (r, c) = Spec.ledger st !! (r, c).
Proof.
  intros Hlist Hacc Hnd.
  destruct (append_run_same labels stock_values column_header st prior Hlist Hacc Hnd)
    as (ws1 & f' & Hstep & H1 & Hledger).
  exists (Some f'). split; [done|].
  set (all_labels := foldl add_key prior labels) in *.
  set (ws2 := _write_labels_to_column ws1 all_labels) in *.
  intros r c Hc. rewrite Hledger, lookup_save, add_inventory_column_cell.
  assert (Hmc : max_column (Spec.ledger st) ≤ max_column ws2).
  { unfold ws2. rewrite max_column_write_labels.
    destruct (max_column_attained (Spec.ledger st)) as [E|[r0 [v Hv]]];
      [rewrite E; apply max_column_pos|].
    apply (max_column_ge ws1 r0). apply (cell_value_Some_key _ _ _ v).
    by rewrite H1. }
  rewrite decide_False by lia.
  unfold ws2. rewrite cell_value_write_labels_other by lia. apply H1.
Qed.

Lemma proper_labels_accepted (labels : list value) :
  Forall proper_label labels → Forall accepted labels.
Proof. intros H. eapply Forall_impl; [exact H|]. by intros l [_ Hacc]. Qed.

(** C1 (as amended).  An append of a sale whose number already heads a
    column of the ledger, with a header, labels and quantities that the
    ledger stores as they are, succeeds and does not write into that column:
    the event goes into a new column to the right of all existing ones,
    headed [Sale n] too.  The headers of the existing event columns stay
    as they are, the number of event columns grows by one, the headers
    are no longer unique, and the new column holds the quantity of each
    label the event lists and nothing for the others.  Where column A of
    the ledger lists proper, distinct labels and nothing else, every
    cell of the existing event columns stays as it was. *)
Theorem append_sale_adds_column labels stock_values (sale_number : string) st :
  Some (VStr ("Sale " ++ sale_number)) ∈ Spec.event_headers st →
  legal_text ("Sale " ++ sale_number) = true →
  Forall storable labels → Forall storable stock_values →
  ∃ st',
    update_inventory_history labels stock_values sale_number st = Ok st' ∧
    Spec.event_headers st' =
    Spec.event_headers st ++ [Some (VStr ("Sale " ++ sale_number))] ∧
    length (Spec.event_headers st') = length (Spec.event_headers st) + 1 ∧
    ¬ NoDup (Spec.event_headers st') ∧
    (∀ i label,
        _merge_labels (Spec.ledger_labels st) labels !! i = Some label →
        Spec.ledger st' !! (i + 2, max_column (Spec.ledger st) + 1) =
        dict_get (dict_of (zip labels stock_values)) label) ∧
    (∀ prior,
        lists_labels (Spec.ledger st) prior → Forall proper_label prior →
        NoDup (key_norm <$> prior) →
        ∀ r c, 2 ≤ c ≤ max_column (Spec.ledger st) →
               Spec.ledger st' !! (r, c) = Spec.ledger st !! (r, c)).
Proof.
  intros Hin _ _ _. unfold update_inventory_history.
  destruct (append_event_headers labels stock_values ("Sale " ++ sale_number) st)
    as (st' & Hrun & _ & Hh & Hcol).
  exists st'. split; [done|]. split; [done|]. rewrite Hh.
  split; [rewrite length_app; simpl; lia|]. split; [|split; [done|]].
  - intros Hnd. apply NoDup_app in Hnd as (_ & Hd & _).
    apply (Hd _ Hin). left.
  - intros prior Hlist Hprop Hnd.
    destruct (append_keeps_cells labels stock_values ("Sale " ++ sale_number) st prior
                Hlist (proper_labels_accepted _ Hprop) Hnd) as (st2 & Hrun2 & Hcells).
    rewrite Hrun in Hrun2. by injection Hrun2 as <-.
Qed.

Lemma append_sale_adds_column_witness :
  ∃ st',
    update_inventory_history [VStr "A"] [VNum (float_of_Z 6)] "3" (Some file_1_3_4)
      = Ok st' ∧
    Spec.event_headers st' =
    Spec.event_headers (Some file_1_3_4) ++ [Some (VStr "Sale 3")] ∧
    ¬ NoDup (Spec.event_headers st') ∧
    (∀ r c, 2 ≤ c ≤ max_column (Spec.ledger (Some file_1_3_4)) →
            Spec.ledger st' !! (r, c) = Spec.ledger (Some file_1_3_4) !! (r, c)).
Proof.
  destruct (append_sale_adds_column [VStr "A"] [VNum (float_of_Z 6)] "3"
              (Some file_1_3_4))
    as (st' & Hrun & Hh & _ & Hdup & _ & Hcells).
  - apply (list_elem_of_lookup_2 _ 1). by vm_compute.
  - reflexivity.
  - repeat constructor; by vm_compute.
  - repeat constructor. by apply (storable_whole_number 6).
  - exists st'. split; [exact Hrun|]. split; [exact Hh|]. split; [exact Hdup|].
    apply (Hcells [VStr "A"]).
    + split; [|by vm_compute].
      intros i label Hi. destruct i as [|i]; [|by destruct i].
      injection Hi as <-. by vm_compute.
    + repeat constructor; by vm_compute.
    + repeat constructor. intros H. by apply elem_of_nil in H.
Defined.

(** X1.  Appending to a ledger built by appends of storable events with
    accepted labels leaves every cell of the existing event columns as
    it was, so the value recorded for an existing label in an existing
    event column is the same before and after. *)
Theorem append_keeps_records (evs : list Spec.event) (ev : Spec.event) :
  Forall plain_event (evs ++ [ev]) →
  ∃ st st',
    Spec.appendEvents evs None = Ok st ∧
    Spec.appendEvent ev st = Ok st' ∧
    (∀ r c, 2 ≤ c ≤ max_column (Spec.ledger st) →
            Spec.ledger st' !! (r, c) = Spec.ledger st !! (r, c)) ∧
    (∀ label c, label ∈ Spec.ledger_labels st →
                2 ≤ c ≤ max_column (Spec.ledger st) →
                Spec.recorded st' label c = Spec.recorded st label c).
Proof.
  intros Hall. apply plain_events_accepted, Forall_app in Hall as [Hevs Hev].
  rewrite Forall_singleton in Hev.
  destruct (appendEvents_lists_labels evs Hevs)
    as (st & prior & Hrun & Hlist & Hacc & Hnd).
  destruct (appendEvent_internal ev st) as [column_header Hint].
  destruct (append_keeps_cells (Spec.ev_labels ev) (Spec.ev_quantities ev)
              column_header st prior Hlist Hacc Hnd) as (st' & Hstep & Hcells).
  destruct (append_lists_labels (Spec.ev_labels ev) (Spec.ev_quantities ev)
              column_header st prior Hlist Hacc Hnd) as (st2 & Hstep2 & Hlist').
  rewrite Hstep in Hstep2. injection Hstep2 as <-.
  rewrite <- Hint in Hstep.
  exists st, st'. split; [done|]. split; [done|].
  set (all_labels := foldl add_key prior (Spec.ev_labels ev)) in *.
  split; [done|]. intros label c Hin Hc.
  unfold Spec.ledger_labels in Hin. rewrite (lists_labels_read _ _ Hlist Hacc) in Hin.
  apply list_elem_of_lookup in Hin as [i Hi].
  rewrite (recorded_listed st prior i label c Hlist Hi)
    by (intros j Hj; by eapply NoDup_first).
  assert (Hi' : all_labels !! i = Some label).
  { destruct (add_keys_prefix prior (Spec.ev_labels ev)) as [extra E].
    fold all_labels in E. rewrite E. by apply lookup_app_l_Some. }
  rewrite (recorded_listed st' all_labels i label c Hlist' Hi').
  - by apply Hcells.
  - intros j Hj. eapply NoDup_first; [|done..]. by apply add_keys_NoDup.
Qed.

Lemma append_keeps_records_witness :
  ∃ st st',
    Spec.appendEvents [sale_B] None = Ok st ∧
    Spec.appendEvent sale_A_B st = Ok st' ∧
    (∀ r c, 2 ≤ c ≤ max_column (Spec.ledger st) →
            Spec.ledger st' !! (r, c) = Spec.ledger st !! (r, c)) ∧
    (∀ label c, label ∈ Spec.ledger_labels st →
                2 ≤ c ≤ max_column (Spec.ledger st) →
                Spec.recorded st' label c = Spec.recorded st label c).
Proof.
  apply (append_keeps_records [sale_B] sale_A_B).
  constructor; [apply plain_sale_B|].
  constructor; [apply plain_sale_A_B|constructor].
Defined.
End RealignSame.

(** ** Merged label lists *)
Section MergeLabels.
Import Py Sheet Inventory.
Implicit Types (existing new : list value).

Lemma add_keys_elem (ks l : list value) x :
  x ∈ foldl add_key ks l → x ∈ ks ∨ x ∈ l.
Proof.
  revert ks. induction l as [|k l IH]; intros ks Hx; [by left|].
  cbn [foldl] in Hx. apply IH in Hx as [Hx|Hx]; [|right; by right].
  unfold add_key in Hx. case_decide; [by left|].
  apply elem_of_app in Hx as [?|Hx]; [by left|].
  apply list_elem_of_singleton in Hx as ->. right. left.
Qed.

(** X2.  On labels without NaN, [_merge_labels] returns a list without
    two equal keys, made of the labels of its two arguments and covering
    them all; existing labels that are already distinct stay in front, in
    their order; merging a merged list again changes nothing. *)
Theorem merge_labels_spec existing new :
  nan_free existing → nan_free new →
  let merged := _merge_labels existing new in
  (∀ i j a b, merged !! i = Some a → merged !! j = Some b →
              key_eqb a b = true → i = j) ∧
  (∀ a, a ∈ merged → a ∈ existing ∨ a ∈ new) ∧
  (∀ a, a ∈ existing ∨ a ∈ new → ∃ b, b ∈ merged ∧ key_eqb a b = true) ∧
  ((∀ i j a b, existing !! i = Some a → existing !! j = Some b →
               key_eqb a b = true → i = j) →
   existing `prefix_of` merged) ∧
  _merge_labels merged [] = merged ∧
  _merge_labels merged new = merged.
Proof.
  intros _ _. cbn zeta. rewrite merge_labels_keys.
  set (merged := foldl add_key (foldl add_key [] existing) new).
  assert (Hnd : NoDup (key_norm <$> merged)).
  { unfold merged. apply add_keys_NoDup, add_keys_NoDup. constructor. }
  split; [|split; [|split; [|split; [|split]]]].
  - intros i j a b Hi Hj Hk. apply key_eqb_norm in Hk.
    apply (NoDup_lookup _ i j (key_norm a) Hnd).
    + by rewrite list_lookup_fmap, Hi.
    + by rewrite list_lookup_fmap, Hj, Hk.
  - intros a Ha. apply add_keys_elem in Ha as [Ha|Ha]; [|by right].
    apply add_keys_elem in Ha as [Ha|Ha]; [by apply elem_of_nil in Ha|by left].
  - intros a Ha.
    assert (Hk : key_norm a ∈ key_norm <$> merged).
    { unfold merged. apply add_keys_covers. destruct Ha as [Ha|Ha]; [left|by right].
      apply add_keys_covers. by right. }
    apply list_elem_of_fmap in Hk as (b & Hk & Hb).
    exists b. split; [done|]. by apply key_eqb_norm.
  - intros Hdistinct.
    assert (Hnde : NoDup (key_norm <$> existing)).
    { apply NoDup_alt. intros i j x Hi Hj. rewrite list_lookup_fmap in Hi, Hj.
      destruct (existing !! i) as [a|] eqn:Ea; [|done].
      destruct (existing !! j) as [b|] eqn:Eb; [|done].
      cbn in Hi, Hj. apply (Hdistinct i j a b Ea Eb).
      apply key_eqb_norm. congruence. }
    unfold merged. rewrite (add_keys_id _ Hnde). apply add_keys_prefix.
  - rewrite merge_labels_keys. cbn [foldl]. by apply add_keys_id.
  - rewrite merge_labels_keys, (add_keys_id _ Hnd).
    assert (Hcov : ∀ k, k ∈ new → key_norm k ∈ key_norm <$> merged).
    { intros k Hk. unfold merged. apply add_keys_covers. by right. }
    clearbody merged. clear Hnd. induction new as [|k l IH]; [done|].
    cbn [foldl]. unfold add_key at 2.
    rewrite decide_True by (apply Hcov; left).
    apply IH. intros k' Hk'. apply Hcov. by right.
Qed.

Lemma merge_labels_spec_witness :
  let merged := _merge_labels [VStr "B"] [VStr "A"; VStr "B"] in
  [VStr "B"] `prefix_of` merged ∧ _merge_labels merged [VStr "A"; VStr "B"] = merged.
Proof.
  intros merged.
  destruct (merge_labels_spec [VStr "B"] [VStr "A"; VStr "B"])
    as (_ & _ & _ & Hpre & _ & Hagain).
  - by repeat constructor.
  - by repeat constructor.
  - split; [|exact Hagain]. apply Hpre.
    intros i j a b Hi Hj _. destruct i as [|i]; [|by destruct i].
    destruct j as [|j]; [done|by destruct j].
Defined.
End MergeLabels.
(** ** Which sheets an operation writes *)
Section Sheets.
Import Py Sheet Inventory.
Implicit Types (st : option file) (f : file).

Lemma saved_sheets_after st key ws name :
  key ∈ ["predictions"; "history"; "differences"; "average"] →
  file_sheets (save_workbook (_organize_sheets
    (set_sheet (_load_or_create_workbook st) (sheet_names key) ws))) !! name =
  if decide (name = sheet_names key) then Some (save ws)
  else if str_in name desired_order then f ← st; file_sheets f !! name else None.
Proof.
  intros Hkey. rewrite saved_sheet_set by done.
  case_decide; [done|]. destruct (str_in name desired_order); [|done].
  destruct st as [f|]; cbn [_load_or_create_workbook load_workbook sheets mbind option_bind].
  - rewrite lookup_fmap. destruct (file_sheets f !! name); [|done].
    cbn. by rewrite save_load.
  - by rewrite lookup_empty.
Qed.

Lemma rewrites_only_saved st key ws :
  key ∈ ["predictions"; "history"; "differences"; "average"] →
  rewrites_only key st
    (Some (save_workbook (_organize_sheets
       (set_sheet (_load_or_create_workbook st) (sheet_names key) ws)))).
Proof.
  intros Hkey. eexists. split; [done|]. split.
  - rewrite saved_sheets_after, decide_True by done. by eexists.
  - intros name Hne. by rewrite saved_sheets_after, decide_False.
Qed.

Lemma append_rewrites_history labels stock_values column_header st st' :
  _update_inventory_history_internal labels stock_values column_header st = Ok st' →
  rewrites_only "history" st st'.
Proof.
  unfold _update_inventory_history_internal. cbn zeta. intros H.
  destruct (if _ <? _ then _realign_existing_columns _ _ _ else _) as [ws|e]; [|done].
  cbn [mbind result_bind] in H. injection H as <-.
  apply rewrites_only_saved. repeat constructor.
Qed.

Lemma differences_rewrites st st' :
  update_sales_differences st = Ok st' → rewrites_only "differences" st st'.
Proof.
  unfold update_sales_differences. intros H. destruct st as [f|]; [|done].
  destruct (get_sheet _ _) as [history_ws|]; [|done]. cbn [mbind result_bind] in H.
  destruct (read_inventory_columns _) as [cols|]; [|done]. cbn [mbind result_bind] in H.
  destruct (foldM _ _ _) as [[diff_ws k]|]; [|done]. cbn [mbind result_bind] in H.
  injection H as <-.
  apply (rewrites_only_saved (Some f) "differences"). repeat constructor.
Qed.

Lemma average_rewrites st st' :
  update_average_use st = Ok st' → rewrites_only "average" st st'.
Proof.
  unfold update_average_use. intros H. destruct st as [f|]; [|done].
  destruct (get_sheet _ _) as [diff_ws|]; [|done]. cbn [mbind result_bind] in H.
  destruct (foldM _ _ _) as [avg_ws|]; [|done]. cbn [mbind result_bind] in H.
  injection H as <-.
  apply (rewrites_only_saved (Some f) "average"). repeat constructor.
Qed.

Lemma predictions_rewrites st st' :
  update_predictions st = Ok st' → rewrites_only "predictions" st st'.
Proof.
  unfold update_predictions. intros H. destruct st as [f|]; [|done].
  destruct (get_sheet _ (sheet_names "average")) as [avg_ws|]; [|done].
  cbn [mbind result_bind] in H.
  destruct (get_sheet _ (sheet_names "history")) as [history_ws|]; [|done].
  cbn [mbind result_bind] in H.
  destruct (read_current_stock _ _ _) as [current_stock_map|]; [|done].
  cbn [mbind result_bind] in H.
  destruct (foldM _ _ _) as [[pred_ws fills]|]; [|done]. cbn [mbind result_bind] in H.
  injection H as <-.
  destruct (rewrites_only_saved (Some f) "predictions" pred_ws) as (f' & [= <-] & Hs & Ho);
    [repeat constructor|].
  eexists. split; [done|]. split; [exact Hs|exact Ho].
Qed.

(** X3.  Each of the four update operations, when it succeeds, rewrites its
    own sheet only: the other sheets of the four known names are kept as
    they were, and the file has no sheet of any other name. *)
Theorem updates_rewrite_own_sheet st st' :
  (∀ labels stock_values column_header,
      _update_inventory_history_internal labels stock_values column_header st = Ok st' →
      rewrites_only "history" st st') ∧
  (update_sales_differences st = Ok st' → rewrites_only "differences" st st') ∧
  (update_average_use st = Ok st' → rewrites_only "average" st st') ∧
  (update_predictions st = Ok st' → rewrites_only "predictions" st st').
Proof.
  split; [intros; by eapply append_rewrites_history|].
  split; [apply differences_rewrites|].
  split; [apply average_rewrites|apply predictions_rewrites].
Qed.
End Sheets.
(** ** The entry points *)
Section EntryPoints.
Import Py Sheet Inventory.
Implicit Types (st : option file) (w : world).

Lemma rewrites_only_ledger key st st' :
  rewrites_only key st st' → sheet_names key ≠ sheet_names "history" →
  Spec.ledger st' = Spec.ledger st.
Proof.
  intros (f' & -> & _ & Ho) Hne. unfold Spec.ledger. cbn [mbind option_bind].
  rewrite Ho by done. done.
Qed.

Lemma on_output_keeps_ledger (op : option file → result (option file)) key w :
  (∀ st st', op st = Ok st' → rewrites_only key st st') →
  sheet_names key ≠ sheet_names "history" →
  tables (on_output op w).2 = tables w ∧
  Spec.ledger (output (on_output op w).2) = Spec.ledger (output w).
Proof.
  intros Hop Hne. unfold on_output.
  destruct (op (output w)) as [st'|e] eqn:E; [|done].
  split; [done|]. cbn [snd output].
  apply (rewrites_only_ledger key); [by apply Hop|done].
Qed.

Lemma io_bind_snd {A B} (m : io A) (k : A → io B) w :
  (io_bind m k w).2 = (m w).2 ∨ ∃ a, (io_bind m k w).2 = (k a (m w).2).2.
Proof.
  unfold io_bind. destruct (m w) as [[a|e] w']; [right; by exists a|by left].
Qed.

(** The three calls of [recompute] never change the ledger sheet or the
    input files, whether they succeed or one of them raises. *)
Lemma recompute_calls_keep_ledger w :
  tables (recompute w).2 = tables w ∧
  Spec.ledger (output (recompute w).2) = Spec.ledger (output w) ∧
  (output w = None → recompute w = (Raise FileNotFoundError, w)) ∧
  (∀ f, output w = Some f → file_sheets f !! sheet_names "history" = None →
        recompute w = (Raise KeyError, w)).
Proof.
  assert (H1 := λ w, on_output_keeps_ledger update_sales_differences "differences" w
                       differences_rewrites ltac:(done)).
  assert (H2 := λ w, on_output_keeps_ledger update_average_use "average" w
                       average_rewrites ltac:(done)).
  assert (H3 := λ w, on_output_keeps_ledger update_predictions "predictions" w
                       predictions_rewrites ltac:(done)).
  split; [|split; [|split]].
  - unfold recompute, io_bind.
    destruct (on_output update_sales_differences w) as [[[]|e] w1] eqn:E1;
      pose proof (H1 w) as [T1 _]; rewrite E1 in T1; [|done].
    destruct (on_output update_average_use w1) as [[[]|e] w2] eqn:E2;
      pose proof (H2 w1) as [T2 _]; rewrite E2 in T2; cbn [snd] in *; [|congruence].
    pose proof (H3 w2) as [T3 _]. congruence.
  - unfold recompute, io_bind.
    destruct (on_output update_sales_differences w) as [[[]|e] w1] eqn:E1;
      pose proof (H1 w) as [_ T1]; rewrite E1 in T1; [|done].
    destruct (on_output update_average_use w1) as [[[]|e] w2] eqn:E2;
      pose proof (H2 w1) as [_ T2]; rewrite E2 in T2; cbn [snd] in *; [|congruence].
    pose proof (H3 w2) as [_ T3]. congruence.
  - intros Hw. unfold recompute, io_bind, on_output. by rewrite Hw.
  - intros f Hw Hh. unfold recompute, io_bind, on_output. rewrite Hw.
    cbn [update_sales_differences]. by rewrite (get_sheet_load_None _ _ Hh).
Qed.

(** X4.  [ExcelLoaderGUI.recompute] never raises: it ends with a dialog.
    It never changes the ledger sheet or the input files, whether its
    three calls succeed or one of them raises; without an output file
    the dialog is the error dialog for [FileNotFoundError], and without
    a ledger sheet the one for [KeyError], and then everything is left
    as it was. *)
Theorem recompute_keeps_ledger w :
  let run := ExcelLoaderGUI.recompute w in
  (∃ dialog, run.1 = Ok dialog) ∧
  tables run.2 = tables w ∧
  Spec.ledger (output run.2) = Spec.ledger (output w) ∧
  (output w = None →
   run = (Ok (ExcelLoaderGUI.showerror "Error" FileNotFoundError), w)) ∧
  (∀ f, output w = Some f → file_sheets f !! sheet_names "history" = None →
        run = (Ok (ExcelLoaderGUI.showerror "Error" KeyError), w)).
Proof.
  cbn zeta. destruct (recompute_calls_keep_ledger w) as (Ht & Hl & Hnone & Hkey).
  unfold ExcelLoaderGUI.recompute.
  split; [destruct (recompute w) as [[[]|e] w']; by eexists|].
  split; [by destruct (recompute w) as [[[]|e] w']|].
  split; [by destruct (recompute w) as [[[]|e] w']|].
  split.
  - intros Hw. by rewrite (Hnone Hw).
  - intros f Hw Hh. by rewrite (Hkey f Hw Hh).
Qed.

(** X5.  [process_inventory] and [process_restock] raise before they write
    anything when the input file does not exist ([FileNotFoundError]) or
    lacks one of the two named columns ([ValueError] listing the absent
    ones): the output file is left as it was, and is not created. *)
Theorem process_fails_before_writing w (input_file sale_number : string)
    (label_column stock_column : string) :
  (tables w !! input_file = None →
   process_inventory input_file sale_number label_column stock_column w
     = (Raise FileNotFoundError, w) ∧
   process_restock input_file label_column stock_column w
     = (Raise FileNotFoundError, w)) ∧
  (∀ df, tables w !! input_file = Some df →
         label_column ∉ df_columns df ∨ stock_column ∉ df_columns df →
         let missing := filter (λ col, col ∉ df_columns df) [label_column; stock_column] in
         missing ≠ [] ∧
         process_inventory input_file sale_number label_column stock_column w
           = (Raise (ValueError missing), w) ∧
         process_restock input_file label_column stock_column w
           = (Raise (ValueError missing), w)).
Proof.
  split.
  - intros Hw. unfold process_inventory, process_restock, io_bind, input_exists.
    rewrite Hw. rewrite bool_decide_eq_false_2 by (by intros [??]). done.
  - intros df Hw Hmiss. cbn zeta.
    assert (Hf : filter (λ col, str_in col (df_columns df) = false)
                   [label_column; stock_column] =
                 filter (λ col, col ∉ df_columns df) [label_column; stock_column]).
    { apply list_filter_iff. intros col. apply str_in_false. }
    assert (Hne : filter (λ col, col ∉ df_columns df) [label_column; stock_column] ≠ []).
    { intros E. destruct Hmiss as [Hm|Hm].
      - assert (label_column ∈ filter (λ col, col ∉ df_columns df)
                                 [label_column; stock_column]) as Hin
          by (apply list_elem_of_filter; split; [done|left]).
        rewrite E in Hin. by apply elem_of_nil in Hin.
      - assert (stock_column ∈ filter (λ col, col ∉ df_columns df)
                                 [label_column; stock_column]) as Hin
          by (apply list_elem_of_filter; split; [done|right; left]).
        rewrite E in Hin. by apply elem_of_nil in Hin. }
    split; [done|].
    assert (Hex : extract_columns input_file [label_column; stock_column] w =
                  (Raise (ValueError (filter (λ col, col ∉ df_columns df)
                                        [label_column; stock_column])), w)).
    { unfold extract_columns, extract_from. rewrite Hw. cbn zeta. rewrite Hf.
      destruct (filter (λ col, col ∉ df_columns df) _) as [|m ms]; [by destruct Hne|done]. }
    unfold process_inventory, process_restock, io_bind, input_exists.
    rewrite Hw. rewrite bool_decide_eq_true_2 by (by eexists). cbn [negb].
    by rewrite Hex.
Qed.

Lemma process_fails_before_writing_witness :
  let w := {| tables := {[ "in.xlsx" := {| df_columns := ["Label"; "Count"];
                                           df_rows := [] |} ]};
              output := None |} in
  process_inventory "in.xlsx" "1" "Label" "Stock" w = (Raise (ValueError ["Stock"]), w).
Proof.
  intros w.
  assert (H1 : tables w !! "in.xlsx" =
               Some {| df_columns := ["Label"; "Count"]; df_rows := [] |})
    by (vm_compute; reflexivity).
  assert (H2 : "Label" ∉ ["Label"; "Count"] ∨ "Stock" ∉ ["Label"; "Count"]).
  { right. intros H. repeat (apply elem_of_cons in H as [H|H]; [done|]).
    by apply elem_of_nil in H. }
  pose proof (proj2 (process_fails_before_writing w "in.xlsx" "1" "Label" "Stock")
                _ H1 H2) as (_ & H & _).
  exact H.
Defined.
End EntryPoints.
(** ** How the difference engine reads appended columns *)
Section ReadBack.
Import Py Sheet Inventory.
Implicit Types (st : option file).

Lemma foldM_ext_in {St A : Type} (f g : St → A → result St) (s : St) (l : list A) :
  (∀ s a, a ∈ l → f s a = g s a) → foldM f s l = foldM g s l.
Proof.
  revert s. induction l as [|a l IH]; intros s H; [done|].
  rewrite !foldM_cons, H by left. destruct (g s a); [|done].
  cbn [mbind result_bind]. apply IH. intros s' a' Ha'. apply H. by right.
Qed.

Lemma header_of_sale (sale_number : string) (c : nat) :
  parse_header c (Some (VStr ("Sale " ++ sale_number))) =
  n ← int_of_string (replace sale_number "Sale " "");
  Ok (Some {| col := c; header := "Sale " ++ sale_number; kind := Sale n |}).
Proof. by destruct sale_number. Qed.

(** The columns read from the ledger after an append: those read
    before it, then the parse of the new header. *)
Lemma read_columns_append labels stock_values column_header st :
  ∃ st',
    _update_inventory_history_internal labels stock_values column_header st = Ok st' ∧
    read_inventory_columns (load (Spec.ledger st')) =
    cols ← read_inventory_columns (load (Spec.ledger st));
    c ← parse_header (max_column (Spec.ledger st) + 1) (Some (VStr column_header));
    Ok (cols ++ option_list c).
Proof.
  destruct (append_event_headers labels stock_values column_header st)
    as (st' & Hrun & Hmax & Hh & _).
  exists st'. split; [done|]. unfold read_inventory_columns.
  rewrite !max_column_load, Hmax.
  pose proof (max_column_pos (Spec.ledger st)) as Hpos.
  replace (max_column (Spec.ledger st) + 1 - 1)
    with (S (max_column (Spec.ledger st) - 1)) by lia.
  rewrite seq_S, foldM_app.
  replace (2 + (max_column (Spec.ledger st) - 1))
    with (max_column (Spec.ledger st) + 1) by lia.
  assert (Hlast : Spec.ledger st' !! (1, max_column (Spec.ledger st) + 1)
                  = Some (VStr column_header)).
  { assert (Hl : Spec.event_headers st' !! (max_column (Spec.ledger st) - 1)
                 = Some (Some (VStr column_header))).
    { rewrite Hh. rewrite lookup_app_r; unfold Spec.event_headers;
        rewrite length_fmap, length_seq; [|done].
      by rewrite Nat.sub_diag. }
    unfold Spec.event_headers in Hl. rewrite list_lookup_fmap in Hl.
    rewrite Hmax in Hl. rewrite lookup_seq_lt in Hl by lia.
    cbn [fmap option_fmap option_map] in Hl.
    replace (2 + (max_column (Spec.ledger st) - 1))
      with (max_column (Spec.ledger st) + 1) in Hl by lia. by injection Hl. }
  rewrite (foldM_ext_in _
    (λ inventory_columns col,
       c ← parse_header col (cell_value (load (Spec.ledger st)) 1 col);
       Ok (inventory_columns ++ option_list c))).
  2:{ intros cols col Hcol. apply elem_of_seq in Hcol.
      rewrite !cell_value_load.
      assert (Hl : Spec.event_headers st' !! (col - 2)
                   = Spec.event_headers st !! (col - 2)).
      { rewrite Hh. rewrite lookup_app_l; [done|].
        unfold Spec.event_headers. rewrite length_fmap, length_seq. lia. }
      unfold Spec.event_headers in Hl. rewrite !list_lookup_fmap in Hl.
      rewrite Hmax in Hl. rewrite !lookup_seq_lt in Hl by lia.
      cbn [fmap option_fmap option_map] in Hl.
      replace (2 + (col - 2)) with col in Hl by lia. injection Hl as ->. done. }
  destruct (foldM _ [] _) as [cols|e]; [|done]. cbn [mbind result_bind].
  rewrite foldM_cons, cell_value_load, Hlast.
  destruct (parse_header _ _) as [c|e]; [|done]. by cbn.
Qed.

Lemma differences_raise st e :
  is_Some (st ≫= λ f, file_sheets f !! sheet_names "history") →
  read_inventory_columns (load (Spec.ledger st)) = Raise e →
  update_sales_differences st = Raise e.
Proof.
  intros Hs Hr. destruct st as [f|]; [|by destruct Hs].
  cbn [mbind option_bind] in Hs. destruct Hs as [h Hh].
  unfold Spec.ledger in Hr. cbn [mbind option_bind] in Hr. rewrite Hh in Hr.
  unfold update_sales_differences. rewrite (get_sheet_load _ _ _ Hh).
  cbn [mbind result_bind]. change (default ∅ (Some h)) with h in Hr. by rewrite Hr.
Qed.

Lemma append_has_ledger labels stock_values column_header st st' :
  _update_inventory_history_internal labels stock_values column_header st = Ok st' →
  is_Some (st' ≫= λ f, file_sheets f !! sheet_names "history").
Proof.
  intros H. apply append_rewrites_history in H as (f' & -> & Hs & _). done.
Qed.

(** X6.  When the headers of the ledger parse and the labels and
    quantities of the event are stored as they are, the column of an
    appended restock is read by the difference engine as a restock, and
    the column of an appended sale whose header is a legal text as the
    sale whose number [int] reads from the text given as sale number;
    when [int] raises on that text the append still succeeds, and the
    difference engine raises the same exception on the ledger it left. *)
Theorem appended_column_read_back st labels stock_values cols :
  read_inventory_columns (load (Spec.ledger st)) = Ok cols →
  Forall storable labels → Forall storable stock_values →
  let c := max_column (Spec.ledger st) + 1 in
  (∃ st',
      _update_inventory_history_restock labels stock_values st = Ok st' ∧
      read_inventory_columns (load (Spec.ledger st')) =
      Ok (cols ++ [{| col := c; header := "Restock"; kind := Restock |}])) ∧
  (∀ sale_number : string, legal_text ("Sale " ++ sale_number) = true → ∃ st',
      update_inventory_history labels stock_values sale_number st = Ok st' ∧
      read_inventory_columns (load (Spec.ledger st')) =
      (n ← int_of_string (replace sale_number "Sale " "");
       Ok (cols ++ [{| col := c; header := "Sale " ++ sale_number; kind := Sale n |}])) ∧
      ∀ e, int_of_string (replace sale_number "Sale " "") = Raise e →
           update_sales_differences st' = Raise e).
Proof.
  intros Hcols _ _. cbn zeta. split.
  - destruct (read_columns_append labels stock_values "Restock" st)
      as (st' & Hrun & Hread).
    exists st'. split; [done|]. by rewrite Hread, Hcols.
  - intros sale_number _.
    destruct (read_columns_append labels stock_values ("Sale " ++ sale_number) st)
      as (st' & Hrun & Hread).
    exists st'. split; [done|].
    rewrite Hcols in Hread. cbn [mbind result_bind] in Hread.
    rewrite header_of_sale in Hread.
    assert (Hr : read_inventory_columns (load (Spec.ledger st')) =
                 n ← int_of_string (replace sale_number "Sale " "");
                 Ok (cols ++ [{| col := max_column (Spec.ledger st) + 1;
                                 header := "Sale " ++ sale_number; kind := Sale n |}])).
    { rewrite Hread. by destruct (int_of_string _). }
    split; [done|]. intros e He. apply differences_raise.
    + by eapply append_has_ledger.
    + by rewrite Hr, He.
Qed.

Lemma appended_column_read_back_witness :
  ∃ st',
    update_inventory_history [VStr "A"] [VNum (float_of_Z 3)] "abc" None = Ok st' ∧
    update_sales_differences st' = Raise (ValueError ["abc"]).
Proof.
  assert (H : read_inventory_columns (load (Spec.ledger None)) = Ok [])
    by (vm_compute; reflexivity).
  assert (Hl : Forall storable [VStr "A"]) by (repeat constructor; by vm_compute).
  assert (Hq : Forall storable [VNum (float_of_Z 3)])
    by (repeat constructor; by apply (storable_whole_number 3)).
  destruct (proj2 (appended_column_read_back None [VStr "A"] [VNum (float_of_Z 3)] []
                     H Hl Hq) "abc" eq_refl) as (st' & Hrun & _ & Hraise).
  exists st'. split; [exact Hrun|]. apply Hraise. vm_compute. reflexivity.
Defined.

(** X7.  A ledger whose headers the difference engine cannot read stays
    unreadable: every further append succeeds, and the difference engine
    raises the same exception afterwards. *)
Theorem unreadable_header_persists st (ev : Spec.event) e :
  read_inventory_columns (load (Spec.ledger st)) = Raise e →
  ∃ st',
    Spec.appendEvent ev st = Ok st' ∧
    read_inventory_columns (load (Spec.ledger st')) = Raise e ∧
    update_sales_differences st' = Raise e.
Proof.
  intros Hr. destruct (appendEvent_internal ev st) as [column_header Hint].
  destruct (read_columns_append (Spec.ev_labels ev) (Spec.ev_quantities ev)
              column_header st) as (st' & Hrun & Hread).
  exists st'. rewrite Hint. split; [done|].
  rewrite Hr in Hread. cbn [mbind result_bind] in Hread. split; [done|].
  apply differences_raise; [by eapply append_has_ledger|done].
Qed.

Lemma unreadable_header_persists_witness :
  ∃ st',
    Spec.appendEvent sale_B
      (Some {| file_sheets := {[ sheet_names "history" :=
                                   {[ (1, 1) := VStr "Label"; (1, 2) := VStr "Sale x" ]} ]};
               file_fills := ∅ |}) = Ok st' ∧
    read_inventory_columns (load (Spec.ledger st')) = Raise (ValueError ["x"]) ∧
    update_sales_differences st' = Raise (ValueError ["x"]).
Proof.
  apply unreadable_header_persists. vm_compute. reflexivity.
Defined.
End ReadBack.
(** ** Repeated labels in one event *)
Section RepeatedLabels.
Import Py Sheet Inventory.
Implicit Types (st : option file).

Lemma dict_get_foldl_last {V} (kvs : list (value * V)) (d : dict V) k :
  dict_get (foldl (λ d kv, dict_set d kv.1 kv.2) d kvs) k =
  match last (filter (λ kv : value * V, key_eqb kv.1 k = true) kvs) with
  | Some kv => Some kv.2
  | None => dict_get d k
  end.
Proof.
  revert d. induction kvs as [|[k0 v0] kvs IH]; intros d; [done|].
  cbn [foldl fst snd]. rewrite IH, dict_get_set. rewrite filter_cons. cbn [fst].
  destruct (decide (key_eqb k0 k = true)) as [E|E].
  - rewrite decide_True by (by apply key_eqb_norm).
    destruct (filter _ kvs) as [|kv l] eqn:Ef; [done|].
    rewrite last_cons_cons. destruct (last (kv :: l)) eqn:El; [done|]. by apply last_None in El.
  - rewrite decide_False; [done|]. intros H. by apply key_eqb_norm in H.
Qed.

(** X8.  An append of labels and quantities that the ledger stores as
    they are, under a header that is a legal text, succeeds, and its new
    column records, for each label of the merged list, the quantity of
    the last row of the event that carries this label, and nothing when
    the event has no such row. *)
Theorem append_records_last_quantity labels stock_values column_header st :
  Forall storable labels → Forall storable stock_values →
  storable (VStr column_header) →
  ∃ st',
    _update_inventory_history_internal labels stock_values column_header st = Ok st' ∧
    Spec.ledger st' !! (1, max_column (Spec.ledger st) + 1) = Some (VStr column_header) ∧
    ∀ i label,
      _merge_labels (Spec.ledger_labels st) labels !! i = Some label →
      Spec.ledger st' !! (i + 2, max_column (Spec.ledger st) + 1) =
      snd <$> last (filter (λ kv : value * value, key_eqb kv.1 label = true)
                      (zip labels stock_values)).
Proof.
  intros _ _ _.
  destruct (append_event_headers labels stock_values column_header st)
    as (st' & Hrun & Hmax & Hh & Hcol).
  exists st'. split; [done|]. split.
  - assert (Hl : Spec.event_headers st' !! (max_column (Spec.ledger st) - 1)
                 = Some (Some (VStr column_header))).
    { rewrite Hh. rewrite lookup_app_r; unfold Spec.event_headers;
        rewrite length_fmap, length_seq; [|done].
      by rewrite Nat.sub_diag. }
    pose proof (max_column_pos (Spec.ledger st)).
    unfold Spec.event_headers in Hl. rewrite list_lookup_fmap in Hl.
    rewrite Hmax in Hl. rewrite lookup_seq_lt in Hl by lia.
    cbn [fmap option_fmap option_map] in Hl.
    replace (2 + (max_column (Spec.ledger st) - 1))
      with (max_column (Spec.ledger st) + 1) in Hl by lia. by injection Hl.
  - intros i label Hi. rewrite (Hcol i label Hi). unfold dict_of.
    rewrite dict_get_foldl_last. by destruct (last _).
Qed.

Lemma append_records_last_quantity_witness :
  ∃ st',
    _update_inventory_history_internal
      [VStr "A"; VStr "B"; VStr "A"]
      [VNum (float_of_Z 1); VNum (float_of_Z 2); VNum (float_of_Z 3)]
      "Restock" None = Ok st' ∧
    Spec.ledger st' !! (1, 2) = Some (VStr "Restock") ∧
    Spec.ledger st' !! (2, 2) = Some (VNum (float_of_Z 3)).
Proof.
  destruct (append_records_last_quantity
              [VStr "A"; VStr "B"; VStr "A"]
              [VNum (float_of_Z 1); VNum (float_of_Z 2); VNum (float_of_Z 3)]
              "Restock" None) as (st' & Hrun & Hh & Hcol).
  - repeat constructor; by vm_compute.
  - constructor; [by apply (storable_whole_number 1)|].
    constructor; [by apply (storable_whole_number 2)|].
    constructor; [by apply (storable_whole_number 3)|constructor].
  - by apply storable_text_value.
  - exists st'. split; [exact Hrun|]. split; [exact Hh|].
    exact (Hcol 0 (VStr "A") eq_refl).
Defined.
End RepeatedLabels.
(** ** The labels of the analytics sheets *)
Section SheetLabels.
Import Py Sheet Inventory.
Implicit Types (f : file) (h d avg : gmap (nat * nat) value).

Lemma existing_labels_accepted (ws : gmap (nat * nat) (option value)) :
  Forall accepted (_get_existing_labels ws).
Proof.
  apply Forall_forall. intros label Hl.
  by apply get_existing_labels_elem in Hl as [? _].
Qed.

(** A sheet that lists labels its reader accepts reads back as them. *)
Lemma lists_labels_existing (s : gmap (nat * nat) value)
    (ws : gmap (nat * nat) (option value)) :
  lists_labels s (_get_existing_labels ws) →
  _get_existing_labels (load s) = _get_existing_labels ws.
Proof. intros H. apply lists_labels_read; [done|apply existing_labels_accepted]. Qed.

(** The differences sheet has no cell below the rows of the labels. *)
Lemma differences_sheet_rows f h inventory_columns :
  file_sheets f !! sheet_names "history" = Some h →
  read_inventory_columns (load h) = Ok inventory_columns →
  ∃ f' d,
    update_sales_differences (Some f) = Ok (Some f') ∧
    file_sheets f' !! sheet_names "differences" = Some d ∧
    ∀ r c, is_Some (d !! (r, c)) → r ≤ length (_get_existing_labels (load h)) + 1.
Proof.
  intros Hh Hcols. unfold update_sales_differences.
  rewrite (get_sheet_load _ _ _ Hh). cbn [mbind result_bind].
  rewrite Hcols. cbn [mbind result_bind].
  rewrite difference_loop. cbn [mbind result_bind].
  set (labels := _get_existing_labels (load h)).
  set (base := _write_labels_to_column _ labels).
  pose proof (λ r c, difference_columns h labels
                (Spec.adjacent_pairs inventory_columns) base 2 r c) as Hloop.
  cbn zeta in Hloop.
  destruct (foldl (pair_step h labels) (base, 2) _) as [diff_ws k] eqn:Efinal.
  cbn [fst snd] in Hloop.
  eexists _, _. split; [reflexivity|].
  rewrite !saved_sheet_set by (repeat constructor).
  rewrite decide_True by done. split; [reflexivity|].
  intros r c [v Hv]. rewrite lookup_save in Hv.
  destruct (decide (r ≤ length labels + 1)) as [|Hgt]; [done|]. exfalso.
  assert (Hl : labels !! (r - 2) = None) by (apply lookup_ge_None; lia).
  assert (Hb : cell_value base r c = None).
  { unfold base. rewrite cell_value_write_labels, Hl.
    destruct (decide (c = 1)); [|apply cell_value_cleared_sheet; lia].
    destruct (decide (r = 1)); [lia|apply cell_value_cleared_sheet; lia]. }
  destruct (Hloop r c) as [_ Hc]. rewrite Hc, Hb in Hv.
  destruct (_ !! (c - 2)) as [e|]; [|done].
  case_decide; [|done]. unfold pair_cell in Hv.
  rewrite decide_False in Hv by lia. by rewrite Hl in Hv.
Qed.

(** The average sheet, cell by cell from row 1 on. *)
Lemma average_sheet f d :
  file_sheets f !! sheet_names "differences" = Some d →
  ∃ f' avg,
    update_average_use (Some f) = Ok (Some f') ∧
    file_sheets f' !! sheet_names "average" = Some avg ∧
    ∀ r c, 1 ≤ r →
      avg !! (r, c) =
      if decide (r = 1) then
        if decide (c = 1) then Some (VStr "Label")
        else if decide (c = 2) then Some (VStr "Average Use") else None
      else
        label ← _get_existing_labels (load d) !! (r - 2);
        if decide (c = 1) then Some label
        else if decide (c = 2)
             then VNum <$> Spec.average_entry (Spec.delta_cells d r)
             else None.
Proof.
  intros Hd. unfold update_average_use.
  rewrite (get_sheet_load _ _ _ Hd). cbn [mbind result_bind].
  set (labels := _get_existing_labels (load d)).
  set (base := set_cell _ 1 2 _).
  set (g := λ il : nat * value,
         (λ x, Some (VNum x)) <$> Spec.average_entry (Spec.delta_cells d il.1)).
  rewrite (foldM_pure _
    (λ avg_ws il, match g il with
                  | Some v => set_cell avg_ws il.1 2 v
                  | None => avg_ws
                  end)).
  2:{ intros avg_ws il _. rewrite collect_differences_spec. cbn [mbind result_bind].
      unfold g, Spec.average_entry, Spec.mean, sum.
      by destruct (filter _ _). }
  cbn [mbind result_bind].
  eexists _, _. split; [reflexivity|].
  rewrite saved_sheet_set by (repeat constructor).
  rewrite decide_True by done. split; [reflexivity|].
  intros r c Hr. rewrite lookup_save, cell_value_foldl_column.
  assert (Hb : cell_value base r c =
               if decide (r = 1) then
                 if decide (c = 1) then Some (VStr "Label")
                 else if decide (c = 2) then Some (VStr "Average Use") else None
               else if decide (c = 1) then labels !! (r - 2) else None).
  { unfold base. rewrite cell_value_set_cell, cell_value_write_labels.
    rewrite cell_value_cleared_sheet by done.
    destruct (decide (r = 1)) as [->|Hr1].
    - destruct (decide (c = 1)) as [->|]; [by rewrite decide_False|].
      destruct (decide (c = 2)) as [->|]; [by rewrite decide_True|].
      rewrite decide_False; [done|]. intros [=]. done.
    - rewrite decide_False by (intros [=]; lia).
      destruct (decide (c = 1)); [|done].
      destruct (labels !! (r - 2)); [|done]. by rewrite decide_True by lia. }
  rewrite Hb. destruct (decide (r = 1)) as [->|Hr1].
  - replace (1 - 2) with 0 by lia. destruct (labels !! 0); [|done].
    rewrite decide_False by lia. done.
  - destruct (labels !! (r - 2)) as [label|] eqn:El; cbn [mbind option_bind].
    + destruct (decide (c = 2)) as [->|Hc2].
      * rewrite decide_True by lia. rewrite decide_False by lia.
        unfold g. cbn [fst]. by destruct (Spec.average_entry _).
      * rewrite decide_False by lia. destruct (decide (c = 1)); done.
    + by destruct (decide (c = 1)).
Qed.

(** X9.  Each analytics sheet lists, from row 2 on and with no row beyond,
    the labels its operation read from its source sheet, and reads back
    as that same list: the difference engine hands the labels of the
    ledger to the average engine unchanged, and the average engine
    hands them on to the predictions. *)
Theorem analytics_list_source_labels f :
  (∀ h inventory_columns,
      file_sheets f !! sheet_names "history" = Some h →
      read_inventory_columns (load h) = Ok inventory_columns →
      ∃ f' d,
        update_sales_differences (Some f) = Ok (Some f') ∧
        file_sheets f' !! sheet_names "differences" = Some d ∧
        lists_labels d (_get_existing_labels (load h)) ∧
        _get_existing_labels (load d) = _get_existing_labels (load h)) ∧
  (∀ d,
      file_sheets f !! sheet_names "differences" = Some d →
      ∃ f' avg,
        update_average_use (Some f) = Ok (Some f') ∧
        file_sheets f' !! sheet_names "average" = Some avg ∧
        lists_labels avg (_get_existing_labels (load d)) ∧
        _get_existing_labels (load avg) = _get_existing_labels (load d)).
Proof.
  split.
  - intros h cols Hh Hcols.
    destruct (update_sales_differences_run f h cols Hh Hcols)
      as (f' & d & Hrun & Hd & _ & Hrows & _ & _).
    destruct (differences_sheet_rows f h cols Hh Hcols) as (f2 & d2 & Hrun2 & Hd2 & Hmax).
    rewrite Hrun in Hrun2. injection Hrun2 as <-.
    rewrite Hd in Hd2. injection Hd2 as <-.
    assert (Hlist : lists_labels d (_get_existing_labels (load h))).
    { split; [done|]. apply max_row_le; [lia|done]. }
    exists f', d. split; [done|]. split; [done|]. split; [done|].
    by apply lists_labels_existing.
  - intros d Hd. destruct (average_sheet f d Hd) as (f' & avg & Hrun & Havg & Hcells).
    assert (Hlist : lists_labels avg (_get_existing_labels (load d))).
    { split.
      - intros i label Hi. rewrite Hcells by lia.
        rewrite decide_False by lia. replace (i + 2 - 2) with i by lia.
        rewrite Hi. cbn [mbind option_bind]. by rewrite decide_True.
      - apply max_row_le; [lia|]. intros r c [v Hv].
        destruct (decide (r = 0)) as [->|]; [lia|].
        rewrite Hcells in Hv by lia.
        destruct (decide (r = 1)) as [->|]; [lia|].
        destruct (_ !! (r - 2)) eqn:El; [|done].
        apply lookup_lt_Some in El. lia. }
    exists f', avg. split; [done|]. split; [done|]. split; [done|].
    by apply lists_labels_existing.
Qed.
End SheetLabels.
(** ** The predictions sheet *)
Section PredictionRows.
Import Py Sheet Inventory.
Implicit Types (f : file) (h avg : gmap (nat * nat) value) (labels : list value).
Implicit Types (ws : gmap (nat * nat) (option value)).

(** The loop that reads the current stock never raises; its numbers
    are well-formed when those of the rows it reads are. *)
Lemma read_current_stock_rows ws latest_col labels :
  (∀ r v x, 2 ≤ r → cell_value ws r latest_col = Some v → to_float v = Ok x →
            valid_binary prec emax x = true) →
  ∃ current_stock_map,
    read_current_stock ws latest_col labels = Ok current_stock_map ∧
    ∀ k x, dict_get current_stock_map k = Some x → valid_binary prec emax x = true.
Proof.
  intros Hws. unfold read_current_stock.
  assert (Hnil : ∀ k x, dict_get ([] : dict float) k = Some x →
                        valid_binary prec emax x = true) by done.
  assert (Hrows : ∀ il, il ∈ enumerate 2 labels → 2 ≤ il.1).
  { intros [idx a] Hin. apply elem_of_enumerate in Hin. cbn. lia. }
  revert Hnil Hrows. generalize ([] : dict float). generalize (enumerate 2 labels).
  induction l as [|il l IH]; intros d Hd Hrows.
  - by exists d.
  - rewrite foldM_cons.
    assert (Hl : ∀ il', il' ∈ l → 2 ≤ il'.1) by (intros il' ?; apply Hrows; by right).
    destruct (cell_value ws il.1 latest_col) as [stock|] eqn:E;
      [|cbn [mbind result_bind]; by apply IH].
    destruct (to_float stock) as [x|e] eqn:Ex.
    + cbn [mbind result_bind]. apply IH; [|done]. intros k y. rewrite dict_get_set.
      case_decide; [|by apply Hd]. intros [= <-].
      apply (Hws il.1 stock x); [apply Hrows; left|done..].
    + rewrite (to_float_raise _ _ Ex). cbn [mbind result_bind]. by apply IH.
Qed.

Lemma enumerate_app {A} k (l1 l2 : list A) :
  enumerate k (l1 ++ l2) = enumerate k l1 ++ enumerate (k + length l1) l2.
Proof.
  revert k. induction l1 as [|a l1 IH]; intros k.
  - cbn [app length]. by rewrite Nat.add_0_r.
  - cbn [app length]. rewrite !enumerate_cons, IH. cbn [app].
    by replace (S k + length l1) with (k + S (length l1)) by lia.
Qed.

(** The stock found for a key that no later row carries. *)
Lemma read_current_stock_step ws latest_col (l : list (nat * value)) (d : dict float) k :
  (∀ il, il ∈ l → key_norm il.2 ≠ key_norm k) →
  ∃ d',
    foldM (λ current_stock_map (il : nat * value),
             match cell_value ws il.1 latest_col with
             | Some stock =>
                 match to_float stock with
                 | Ok x => Ok (dict_set current_stock_map il.2 x)
                 | Raise e =>
                     if is_value_or_type_error e then Ok current_stock_map else Raise e
                 end
             | None => Ok current_stock_map
             end) d l = Ok d' ∧
    dict_get d' k = dict_get d k.
Proof.
  revert d. induction l as [|il l IH]; intros d Hl; [by exists d|].
  rewrite foldM_cons.
  assert (Hl' : ∀ il', il' ∈ l → key_norm il'.2 ≠ key_norm k)
    by (intros il' ?; apply Hl; by right).
  destruct (cell_value ws il.1 latest_col) as [stock|] eqn:E;
    [|cbn [mbind result_bind]; by apply IH].
  destruct (to_float stock) as [x|e] eqn:Ex.
  - cbn [mbind result_bind]. destruct (IH (dict_set d il.2 x) Hl') as (d' & -> & Hg).
    exists d'. split; [done|]. rewrite Hg, dict_get_set.
    rewrite decide_False; [done|]. apply Hl. left.
  - rewrite (to_float_raise _ _ Ex). cbn [mbind result_bind]. by apply IH.
Qed.

(** With pairwise distinct labels, the current stock of a label is the
    number in its own row of the latest column. *)
Lemma read_current_stock_lookup ws latest_col labels current_stock_map i label :
  NoDup (key_norm <$> labels) → labels !! i = Some label →
  read_current_stock ws latest_col labels = Ok current_stock_map →
  dict_get current_stock_map label = Spec.numeric (cell_value ws (i + 2) latest_col).
Proof.
  intros Hnd Hi. unfold read_current_stock.
  apply list_elem_of_split_length in Hi as (l1 & l2 & -> & ->).
  rewrite fmap_app in Hnd. cbn [fmap list_fmap] in Hnd.
  apply NoDup_app in Hnd as (_ & Hd1 & Hnd2). apply NoDup_cons in Hnd2 as [Hn2 _].
  assert (He : enumerate 2 (l1 ++ label :: l2) =
               enumerate 2 l1 ++ (length l1 + 2, label) :: enumerate (S (length l1 + 2)) l2).
  { rewrite enumerate_app, enumerate_cons. by rewrite (Nat.add_comm 2). }
  rewrite He, foldM_app.
  destruct (read_current_stock_step ws latest_col (enumerate 2 l1) [] label)
    as (d1 & -> & Hg1).
  { intros [idx a] Hin Hk. apply elem_of_enumerate in Hin as [_ Hin].
    apply (Hd1 (key_norm label)); [|left].
    apply list_elem_of_fmap. exists a. split; [done|]. by eapply list_elem_of_lookup_2. }
  cbn [mbind result_bind]. rewrite foldM_cons. cbn [fst snd].
  assert (Hl2 : ∀ il : nat * value, il ∈ enumerate (S (length l1 + 2)) l2 →
                key_norm il.2 ≠ key_norm label).
  { intros [idx a] Hin Hk. apply elem_of_enumerate in Hin as [_ Hin].
    apply Hn2. rewrite <- Hk. apply list_elem_of_fmap. exists a.
    split; [done|]. by eapply list_elem_of_lookup_2. }
  destruct (cell_value ws (length l1 + 2) latest_col) as [stock|] eqn:Ec;
    cbn [Spec.numeric mbind option_bind].
  - destruct (to_float stock) as [x|e] eqn:Ex.
    + cbn [mbind result_bind].
      destruct (read_current_stock_step ws latest_col _ (dict_set d1 label x) label Hl2)
        as (d3 & -> & Hg3).
      intros [= <-]. rewrite Hg3, dict_get_set. by rewrite decide_True.
    + rewrite (to_float_raise _ _ Ex). cbn [mbind result_bind].
      destruct (read_current_stock_step ws latest_col _ d1 label Hl2) as (d3 & -> & Hg3).
      intros [= <-]. by rewrite Hg3, Hg1.
  - cbn [mbind result_bind].
    destruct (read_current_stock_step ws latest_col _ d1 label Hl2) as (d3 & -> & Hg3).
    intros [= <-]. by rewrite Hg3, Hg1.
Qed.
Lemma NoDup_key_eqb labels :
  (∀ i j a b, labels !! i = Some a → labels !! j = Some b →
              key_eqb a b = true → i = j) →
  NoDup (key_norm <$> labels).
Proof.
  intros Hdistinct. apply NoDup_alt. intros i j x Hi Hj.
  rewrite list_lookup_fmap in Hi, Hj.
  destruct (labels !! i) as [a|] eqn:Ea; [|done].
  destruct (labels !! j) as [b|] eqn:Eb; [|done].
  cbn in Hi, Hj. apply (Hdistinct i j a b Ea Eb).
  apply key_eqb_norm. congruence.
Qed.

Lemma prediction_loop_rows current_stock_map avg_ws (l : list (nat * value)) ws fills :
  (∀ k x, dict_get current_stock_map k = Some x → valid_binary prec emax x = true) →
  (∀ il a, il ∈ l → Spec.numeric (cell_value avg_ws il.1 2) = Some a →
           valid_binary prec emax a = true) →
  ∃ fills',
    foldM (λ (state : gmap (nat * nat) (option value) * gmap (nat * nat) string) il,
             let '(pred_ws, fills) := state in
             let pred_ws := set_cell pred_ws il.1 1 (Some il.2) in
             let current :=
               default (float_of_Z 0) (dict_get current_stock_map il.2) in
             let pred_ws := set_cell pred_ws il.1 2 (Some (VNum current)) in
             let avg_use := cell_value avg_ws il.1 2 in
             predict_row il.1 current avg_use (pred_ws, fills))
          (ws, fills) l =
    Ok (foldl (prediction_cells current_stock_map avg_ws) ws l, fills').
Proof.
  intros Hmap Havg. revert ws fills.
  induction l as [|il l IH]; intros ws fills; [by eexists|].
  rewrite foldM_cons. cbn [foldl].
  set (current := default (float_of_Z 0) (dict_get current_stock_map il.2)).
  assert (Hvc : valid_binary prec emax current = true).
  { unfold current. destruct (dict_get current_stock_map il.2) eqn:E; [|done].
    by eapply Hmap. }
  assert (Hstep : ∃ fills1,
    predict_row il.1 current (cell_value avg_ws il.1 2)
      (set_cell (set_cell ws il.1 1 (Some il.2)) il.1 2 (Some (VNum current)), fills) =
    Ok (prediction_cells current_stock_map avg_ws ws il, fills1)).
  { unfold prediction_cells. fold current.
    destruct (cell_value avg_ws il.1 2) as [avg_use|] eqn:Ec;
      [|by eexists].
    destruct (to_float avg_use) as [a|e] eqn:Ea.
    - assert (Hn : Spec.numeric (cell_value avg_ws il.1 2) = Some a).
      { rewrite Ec. cbn. by rewrite Ea. }
      rewrite Ec in Hn. rewrite Hn.
      apply predict_row_total; [done| |done].
      apply (Havg il); [left|]. by rewrite Ec.
    - assert (Hn : Spec.numeric (Some avg_use) = None) by (cbn; by rewrite Ea).
      rewrite Hn. unfold predict_row. rewrite Ea.
      rewrite (to_float_raise _ _ Ea). by eexists. }
  destruct Hstep as [fills1 Hstep]. cbn zeta. fold current.
  rewrite Hstep. cbn [mbind result_bind]. apply IH.
  intros il' a Hin. apply Havg. by right.
Qed.

(** The predictions sheet, cell by cell from row 1 on. *)
Lemma predictions_sheet f avg h :
  file_sheets f !! sheet_names "average" = Some avg →
  file_sheets f !! sheet_names "history" = Some h →
  (∀ r a, 2 ≤ r → Spec.numeric (avg !! (r, 2)) = Some a →
          valid_binary prec emax a = true) →
  (∀ r v x, 2 ≤ r → h !! (r, max_column h) = Some v → to_float v = Ok x →
            valid_binary prec emax x = true) →
  ∃ f' pred current_stock_map,
    update_predictions (Some f) = Ok (Some f') ∧
    file_sheets f' !! sheet_names "predictions" = Some pred ∧
    read_current_stock (load h) (max_column h) (_get_existing_labels (load avg))
      = Ok current_stock_map ∧
    ∀ r c, 1 ≤ r →
      pred !! (r, c) =
      if decide (r = 1) then
        if decide (c = 1) then Some (VStr "Label")
        else if decide (c = 2) then Some (VStr "Current Stock")
        else if decide (c = 3) then Some (VStr "Weekly Prediction")
        else if decide (c = 4) then Some (VStr "Status") else None
      else
        label ← _get_existing_labels (load avg) !! (r - 2);
        let current := default (float_of_Z 0) (dict_get current_stock_map label) in
        let prediction := (λ a, fmul a (float_of_Z 7)) <$> Spec.numeric (avg !! (r, 2)) in
        if decide (c = 1) then Some label
        else if decide (c = 2) then Some (VNum current)
        else if decide (c = 3) then (λ p, VNum (round2 p)) <$> prediction
        else if decide (c = 4) then status current <$> prediction
        else None.
Proof.
  intros Havg Hh Wavg Wh. unfold update_predictions.
  rewrite (get_sheet_load _ _ _ Havg), (get_sheet_load _ _ _ Hh).
  cbn [mbind result_bind]. rewrite max_column_load.
  set (labels := _get_existing_labels (load avg)).
  destruct (read_current_stock_rows (load h) (max_column h) labels)
    as (current_stock_map & Hmap & Hvalid).
  { intros r v x Hr Hc Hx. rewrite cell_value_load in Hc. by eapply Wh. }
  rewrite Hmap. cbn [mbind result_bind].
  set (base := set_cell _ 1 4 _).
  destruct (prediction_loop_rows current_stock_map (load avg) (enumerate 2 labels)
              base ∅ Hvalid) as [fills' Hloop].
  { intros [idx a0] a [Hidx _]%elem_of_enumerate Ha. cbn [fst] in Ha.
    rewrite cell_value_load in Ha. by eapply Wavg. }
  cbn zeta in Hloop. rewrite Hloop. cbn [mbind result_bind].
  eexists _, _, current_stock_map. split; [reflexivity|].
  set (final := foldl _ base _).
  assert (Hsaved : ∀ wb fl name,
    file_sheets (save_workbook (_organize_sheets
      {| sheets := sheets (set_sheet wb (sheet_names "predictions") final);
         fills := fl |})) !! name =
    file_sheets (save_workbook (_organize_sheets
      (set_sheet wb (sheet_names "predictions") final))) !! name) by done.
  rewrite Hsaved, saved_sheet_set by (repeat constructor).
  rewrite decide_True by done. split; [reflexivity|]. split; [done|].
  intros r c Hr. rewrite lookup_save. unfold final.
  rewrite (cell_value_foldl_rows _
    (λ il c old,
       let current := default (float_of_Z 0) (dict_get current_stock_map il.2) in
       let prediction := (λ a, fmul a (float_of_Z 7)) <$>
                         Spec.numeric (cell_value (load avg) il.1 2) in
       if decide (c = 1) then Some il.2
       else if decide (c = 2) then Some (VNum current)
       else if decide (c = 3)
            then default old ((λ p, Some (VNum (round2 p))) <$> prediction)
       else if decide (c = 4)
            then default old ((λ p, Some (status current p)) <$> prediction)
       else old)).
  2:{ intros ws il r' c'. by rewrite cell_value_prediction_cells. }
  assert (Hb : cell_value base r c =
               if decide (r = 1) then
                 if decide (c = 1) then Some (VStr "Label")
                 else if decide (c = 2) then Some (VStr "Current Stock")
                 else if decide (c = 3) then Some (VStr "Weekly Prediction")
                 else if decide (c = 4) then Some (VStr "Status") else None
               else None).
  { unfold base. rewrite !cell_value_set_cell.
    rewrite cell_value_cleared_sheet by done.
    repeat case_decide; simplify_eq; try done; try lia. }
  rewrite Hb. destruct (decide (r = 1)) as [->|Hr1].
  - replace (1 - 2) with 0 by lia. destruct (labels !! 0); [|done].
    by rewrite decide_False by lia.
  - destruct (labels !! (r - 2)) as [label|]; [|done].
    rewrite decide_True by lia. cbn [mbind option_bind fst snd]. cbn zeta.
    rewrite cell_value_load.
    destruct (Spec.numeric (avg !! (r, 2))); cbn [fmap option_fmap option_map default];
      repeat case_decide; done.
Qed.

(** X10.  When the sheets hold well-formed numbers and the numbers in
    the latest column of the ledger are whole, [update_predictions]
    writes its four headers and one row per label of the average sheet
    and nothing below; the row of a label without an average entry has
    no projection and no status; and when the labels are pairwise
    distinct, the current stock of a label is the number in the latest
    column of the ledger in the row of the same index, or 0 when that
    cell is empty or no number. *)
Theorem prediction_rows f avg h :
  file_sheets f !! sheet_names "average" = Some avg →
  file_sheets f !! sheet_names "history" = Some h →
  well_formed_cells avg → well_formed_cells h →
  (∀ r x, 2 ≤ r → Spec.numeric (h !! (r, max_column h)) = Some x → whole x) →
  ∃ f' pred,
    update_predictions (Some f) = Ok (Some f') ∧
    file_sheets f' !! sheet_names "predictions" = Some pred ∧
    pred !! (1, 1) = Some (VStr "Label") ∧
    pred !! (1, 2) = Some (VStr "Current Stock") ∧
    pred !! (1, 3) = Some (VStr "Weekly Prediction") ∧
    pred !! (1, 4) = Some (VStr "Status") ∧
    max_row pred ≤ length (_get_existing_labels (load avg)) + 1 ∧
    ∀ i label,
      _get_existing_labels (load avg) !! i = Some label →
      pred !! (i + 2, 1) = Some label ∧
      is_Some (pred !! (i + 2, 2)) ∧
      (Spec.numeric (avg !! (i + 2, 2)) = None →
       pred !! (i + 2, 3) = None ∧ pred !! (i + 2, 4) = None) ∧
      ((∀ j k a b, _get_existing_labels (load avg) !! j = Some a →
                   _get_existing_labels (load avg) !! k = Some b →
                   key_eqb a b = true → j = k) →
       pred !! (i + 2, 2) =
       Some (VNum (default (float_of_Z 0)
                     (Spec.numeric (h !! (i + 2, max_column h)))))).
Proof.
  intros Havg Hh Wavg Wh _.
  destruct (predictions_sheet f avg h Havg Hh) as (f' & pred & map & Hrun & Hp & Hmap & Hc).
  { intros r a _ Ha. exact (well_formed_cells_numeric avg r 2 a Wavg Ha). }
  { intros r v x _ Hv Hx. specialize (Wh _ _ Hv). unfold well_formed in Wh.
    by rewrite Hx in Wh. }
  exists f', pred. split; [done|]. split; [done|].
  do 4 (split; [by rewrite Hc by lia|]). split.
  - apply max_row_le; [lia|]. intros r c [v Hv].
    destruct (decide (r = 0)) as [->|]; [lia|]. rewrite Hc in Hv by lia.
    destruct (decide (r = 1)) as [->|]; [lia|].
    destruct (_ !! (r - 2)) eqn:El; [|done]. apply lookup_lt_Some in El. lia.
  - intros i label Hi.
    assert (Hrow : ∀ c, pred !! (i + 2, c) =
      let current := default (float_of_Z 0) (dict_get map label) in
      let prediction := (λ a, fmul a (float_of_Z 7)) <$>
                        Spec.numeric (avg !! (i + 2, 2)) in
      if decide (c = 1) then Some label
      else if decide (c = 2) then Some (VNum current)
      else if decide (c = 3) then (λ p, VNum (round2 p)) <$> prediction
      else if decide (c = 4) then status current <$> prediction
      else None).
    { intros c. rewrite Hc by lia. rewrite decide_False by lia.
      replace (i + 2 - 2) with i by lia. by rewrite Hi. }
    rewrite !Hrow. cbn zeta. split; [done|]. split; [by eexists|]. split.
    + intros ->. done.
    + intros Hdistinct. apply NoDup_key_eqb in Hdistinct.
      rewrite (read_current_stock_lookup _ _ _ _ i label Hdistinct Hi Hmap).
      by rewrite cell_value_load.
Qed.

Lemma prediction_rows_witness :
  ∃ f' pred,
    update_predictions (Some file_average_1_3_4) = Ok (Some f') ∧
    file_sheets f' !! sheet_names "predictions" = Some pred ∧
    pred !! (1, 4) = Some (VStr "Status") ∧
    max_row pred ≤ length (_get_existing_labels (load average_tenth)) + 1 ∧
    pred !! (2, 1) = Some (VStr "A") ∧
    pred !! (2, 2) =
    Some (VNum (default (float_of_Z 0) (Spec.numeric (ledger_1_3_4 !! (2, max_column ledger_1_3_4))))).
Proof.
  assert (H1 : file_sheets file_average_1_3_4 !! sheet_names "average" = Some average_tenth)
    by reflexivity.
  assert (H2 : file_sheets file_average_1_3_4 !! sheet_names "history" = Some ledger_1_3_4)
    by reflexivity.
  assert (H3 : well_formed_cells average_tenth)
    by (apply (bool_decide_unpack _); vm_compute; reflexivity).
  assert (H4 : well_formed_cells ledger_1_3_4)
    by (apply (bool_decide_unpack _); vm_compute; reflexivity).
  assert (H5 : ∀ r x, 2 ≤ r →
               Spec.numeric (ledger_1_3_4 !! (r, max_column ledger_1_3_4)) = Some x →
               whole x).
  { intros r x Hr. replace (max_column ledger_1_3_4) with 4 by (by vm_compute).
    destruct (decide (r = 2)) as [->|Hne].
    - intros Hx. exists 5%Z. split; [done|]. vm_compute in Hx. by injection Hx as <-.
    - assert (E : ledger_1_3_4 !! (r, 4) = None); [|by rewrite E].
      destruct (ledger_1_3_4 !! (r, 4)) as [v|] eqn:E; [|done].
      pose proof (max_row_ge ledger_1_3_4 r 4 (mk_is_Some _ _ E)) as Hle.
      replace (max_row ledger_1_3_4) with 2 in Hle by (by vm_compute). lia. }
  destruct (prediction_rows file_average_1_3_4 average_tenth ledger_1_3_4 H1 H2 H3 H4 H5)
    as (f' & pred & Hrun & Hp & _ & _ & _ & Hs & Hm & Hrows).
  exists f', pred. split; [exact Hrun|]. split; [exact Hp|]. split; [exact Hs|].
  split; [exact Hm|].
  destruct (Hrows 0 (VStr "A")) as (Hl & _ & _ & Hcur); [by vm_compute|].
  split; [exact Hl|]. apply Hcur.
  intros j k a b Hj Hk _.
  replace (_get_existing_labels (load average_tenth)) with [VStr "A"] in Hj, Hk
    by (by vm_compute).
  destruct j as [|j]; [|by destruct j]. destruct k as [|k]; [done|by destruct k].
Defined.
End PredictionRows.

(** ** Runs that succeed *)
Section Totality.
Import Py Sheet Inventory.
Implicit Types (st : option file) (w : world) (f : file).

Lemma cell_value_beyond ws r c : max_column ws < c → cell_value ws r c = None.
Proof.
  intros Hc. unfold cell_value. destruct (ws !! (r, c)) eqn:E; [|done].
  pose proof (max_column_ge ws r c (mk_is_Some _ _ E)). lia.
Qed.

Lemma dict_of_value {V} (kvs : list (value * V)) k v :
  dict_get (dict_of kvs) k = Some v → v ∈ kvs.*2.
Proof.
  unfold dict_of. rewrite dict_get_foldl_last.
  destruct (last _) as [kv|] eqn:E; [|done]. intros [= <-].
  apply last_Some_elem_of, list_elem_of_filter in E as [_ E].
  apply list_elem_of_fmap. by exists kv.
Qed.

(** The column an append adds holds, below its header, nothing but
    quantities of the event. *)
Lemma append_new_column labels stock_values column_header st :
  ∃ f',
    _update_inventory_history_internal labels stock_values column_header st
      = Ok (Some f') ∧
    max_column (Spec.ledger (Some f')) = max_column (Spec.ledger st) + 1 ∧
    ∀ r v, 2 ≤ r →
           Spec.ledger (Some f') !! (r, max_column (Spec.ledger st) + 1) = Some v →
           v ∈ stock_values.
Proof.
  destruct (append_run labels stock_values column_header st)
    as (ws1 & f' & Hrun & T & Hledger). cbn zeta in T, Hledger.
  destruct (append_event_headers labels stock_values column_header st)
    as (st' & Hrun' & Hmax & _).
  rewrite Hrun in Hrun'. injection Hrun' as <-.
  exists f'. split; [done|]. split; [done|].
  intros r v Hr. rewrite Hledger, lookup_save, add_inventory_column_cell.
  assert (Hmc : max_column (_write_labels_to_column ws1
                  (_merge_labels (_get_existing_labels (load (Spec.ledger st))) labels))
                = max_column (Spec.ledger st)).
  { rewrite max_column_write_labels, <- max_column_load.
    apply (touched_max_column _ _ _ ltac:(by rewrite max_column_load)). }
  rewrite Hmc. rewrite decide_True by done. rewrite decide_False by lia.
  rewrite (cell_value_beyond _ r (max_column (Spec.ledger st) + 1)) by lia.
  destruct (_ !! (r - 2)) as [label|]; [|done].
  rewrite decide_True by done.
  destruct (dict_get _ label) as [x|] eqn:Ed; [|done].
  cbn. intros [= <-]. apply dict_of_value in Ed.
  apply list_elem_of_fmap in Ed as ([k x'] & -> & Hin). by apply elem_of_zip_r in Hin.
Qed.

(** The three analytics operations in a row. *)
Lemma analytics_total f h cols :
  file_sheets f !! sheet_names "history" = Some h →
  read_inventory_columns (load h) = Ok cols →
  (∀ r v x, 2 ≤ r → h !! (r, max_column h) = Some v → to_float v = Ok x →
            valid_binary prec emax x = true) →
  ∃ f1 f2 f3,
    update_sales_differences (Some f) = Ok (Some f1) ∧
    update_average_use (Some f1) = Ok (Some f2) ∧
    update_predictions (Some f2) = Ok (Some f3) ∧
    file_sheets f3 !! sheet_names "history" = Some h ∧
    ∀ key, is_Some (file_sheets f3 !! sheet_names key).
Proof.
  intros Hh Hcols Wh.
  destruct (update_sales_differences_run f h cols Hh Hcols)
    as (f1 & d & Hrun1 & Hd & Hh1 & _).
  destruct (average_sheet f1 d Hd) as (f2 & avg & Hrun2 & Havg & Hcells).
  pose proof (average_rewrites _ _ Hrun2) as (f2' & [= <-] & _ & Ho2).
  assert (Hh2 : file_sheets f2 !! sheet_names "history" = Some h).
  { rewrite Ho2 by done. exact Hh1. }
  assert (Hd2 : file_sheets f2 !! sheet_names "differences" = Some d).
  { rewrite Ho2 by done. exact Hd. }
  destruct (predictions_sheet f2 avg h Havg Hh2) as (f3 & pred & map & Hrun3 & Hp & _).
  { intros r a Hr. rewrite Hcells by lia. rewrite decide_False by lia.
    destruct (_ !! (r - 2)) as [label|]; [|done]. cbn [mbind option_bind].
    rewrite decide_False by lia. rewrite decide_True by done.
    unfold Spec.average_entry. destruct (filter _ _); [done|].
    cbn. intros [= <-]. apply round2_valid_any. }
  { exact Wh. }
  pose proof (predictions_rewrites _ _ Hrun3) as (f3' & [= <-] & _ & Ho3).
  exists f1, f2, f3. do 3 (split; [done|]).
  split; [rewrite Ho3 by done; exact Hh2|].
  intros key. unfold sheet_names at 1.
  repeat case_match; [rewrite Ho3 by done; by eexists..|by eexists].
Qed.

Lemma recompute_run w f f1 f2 f3 :
  output w = Some f →
  update_sales_differences (Some f) = Ok (Some f1) →
  update_average_use (Some f1) = Ok (Some f2) →
  update_predictions (Some f2) = Ok (Some f3) →
  recompute w = (Ok tt, {| tables := tables w; output := Some f3 |}).
Proof.
  intros Hw H1 H2 H3. unfold recompute, io_bind, on_output.
  rewrite Hw, H1. cbn [output tables]. rewrite H2. cbn [output tables]. by rewrite H3.
Qed.

(** X11.  When the output file has a ledger sheet whose event headers all
    parse, and the numbers of the ledger are well-formed, [recompute]
    succeeds: it returns normally, keeps the ledger sheet and the input
    files, and leaves a file that has all four sheets. *)
Theorem recompute_succeeds w f h cols :
  output w = Some f →
  file_sheets f !! sheet_names "history" = Some h →
  read_inventory_columns (load h) = Ok cols →
  well_formed_cells h →
  ∃ f', recompute w = (Ok tt, {| tables := tables w; output := Some f' |}) ∧
        file_sheets f' !! sheet_names "history" = Some h ∧
        ∀ key, is_Some (file_sheets f' !! sheet_names key).
Proof.
  intros Hw Hh Hcols Wh.
  destruct (analytics_total f h cols Hh Hcols) as (f1 & f2 & f3 & H1 & H2 & H3 & Hh3 & Hall).
  { intros r v x _ Hv Hx. specialize (Wh _ _ Hv). unfold well_formed in Wh.
    by rewrite Hx in Wh. }
  exists f3. split; [by eapply recompute_run|]. by split.
Qed.

Lemma recompute_succeeds_witness :
  ∃ f', recompute {| tables := ∅; output := Some file_1_3_4 |}
        = (Ok tt, {| tables := ∅; output := Some f' |}) ∧
        file_sheets f' !! sheet_names "history" = Some ledger_1_3_4.
Proof.
  assert (H1 : file_sheets file_1_3_4 !! sheet_names "history" = Some ledger_1_3_4)
    by reflexivity.
  assert (H2 : read_inventory_columns (load ledger_1_3_4) =
               Ok [ {| col := 2; header := "Sale 1"; kind := Sale 1 |};
                    {| col := 3; header := "Sale 3"; kind := Sale 3 |};
                    {| col := 4; header := "Sale 4"; kind := Sale 4 |} ])
    by (vm_compute; reflexivity).
  assert (H3 : well_formed_cells ledger_1_3_4)
    by (apply (bool_decide_unpack _); vm_compute; reflexivity).
  destruct (recompute_succeeds {| tables := ∅; output := Some file_1_3_4 |}
              file_1_3_4 ledger_1_3_4 _ eq_refl H1 H2 H3) as (f' & Hrun & Hh & _).
  exists f'. split; [exact Hrun|exact Hh].
Defined.

(** The reading of the two columns of an input file that has them. *)
Lemma extracted_run w (input_file label_column stock_column : string) df :
  tables w !! input_file = Some df →
  label_column ∈ df_columns df → stock_column ∈ df_columns df →
  ∃ labels pos,
    column_index df stock_column = Some pos ∧
    ∀ k : list value → list value → io unit,
      io_bind (input_exists input_file) (λ found,
        if negb found then io_raise FileNotFoundError else
        io_bind (extract_columns input_file [label_column; stock_column]) (λ data,
        io_bind (io_of_result (data_get data label_column)) (λ labels,
        io_bind (io_of_result (data_get data stock_column)) (λ stock,
        k labels stock)))) w =
      k labels ((λ row, row_cell row pos) <$> df_rows df) w.
Proof.
  intros Hw Hl Hs.
  destruct (column_index_Some df _ Hl) as (pl & Hpl & _).
  destruct (column_index_Some df _ Hs) as (ps & Hps & _).
  pose proof (data_get_two label_column stock_column
                ((λ row, row_cell row pl) <$> df_rows df)
                ((λ row, row_cell row ps) <$> df_rows df)) as [Hg2 Hg1].
  cbn zeta in Hg1, Hg2.
  eexists _, ps. split; [done|]. intros k.
  unfold io_bind at 1. unfold input_exists.
  rewrite bool_decide_eq_true_2 by (by eexists). cbn [negb].
  unfold io_bind at 1. unfold extract_columns. rewrite Hw. unfold extract_from.
  assert (Hnil : filter (λ col, str_in col (df_columns df) = false)
                   [label_column; stock_column] = []).
  { rewrite !filter_cons, filter_nil.
    rewrite !decide_False; [done| |]; rewrite str_in_false; tauto. }
  rewrite Hnil. cbn [length Nat.eqb negb].
  rewrite foldM_cons, (df_tolist_Some _ _ _ Hpl). cbn [mbind result_bind].
  rewrite foldM_cons, (df_tolist_Some _ _ _ Hps). cbn [mbind result_bind].
  rewrite foldM_nil.
  unfold io_bind at 1. unfold io_of_result at 1. rewrite Hg1.
  unfold io_bind at 1. unfold io_of_result at 1. rewrite Hg2.
  reflexivity.
Qed.

(** An append followed by the three analytics operations. *)
Lemma append_then_analytics labels stock_values column_header c0 cols w :
  Forall (λ v, well_formed v = true) stock_values →
  read_inventory_columns (load (Spec.ledger (output w))) = Ok cols →
  parse_header (max_column (Spec.ledger (output w)) + 1) (Some (VStr column_header))
    = Ok (Some c0) →
  ∃ f',
    io_bind (on_output (_update_inventory_history_internal labels stock_values
                          column_header))
            (λ _, recompute) w
      = (Ok tt, {| tables := tables w; output := Some f' |}) ∧
    read_inventory_columns (load (Spec.ledger (Some f'))) = Ok (cols ++ [c0]).
Proof.
  intros Wstock Hcols Hparse.
  destruct (append_new_column labels stock_values column_header (output w))
    as (f1 & Hrun & Hmax & Hcol).
  destruct (read_columns_append labels stock_values column_header (output w))
    as (st' & Hrun' & Hread).
  rewrite Hrun in Hrun'. injection Hrun' as <-.
  rewrite Hcols in Hread. cbn [mbind result_bind] in Hread.
  rewrite Hparse in Hread. cbn [mbind result_bind option_list] in Hread.
  destruct (append_has_ledger _ _ _ _ _ Hrun) as [h1 Hh1]. cbn [mbind option_bind] in Hh1.
  assert (El : Spec.ledger (Some f1) = h1)
    by (unfold Spec.ledger; cbn [mbind option_bind]; by rewrite Hh1).
  rewrite El in Hread, Hmax, Hcol.
  destruct (analytics_total f1 h1 _ Hh1 Hread)
    as (f2 & f3 & f4 & H1 & H2 & H3 & Hh4 & _).
  { intros r v x Hr Hv Hx. rewrite Hmax in Hv.
    pose proof (Hcol r v Hr Hv) as Hin.
    rewrite Forall_forall in Wstock. specialize (Wstock v Hin).
    unfold well_formed in Wstock. by rewrite Hx in Wstock. }
  exists f4. split.
  - unfold io_bind, on_output. rewrite Hrun.
    exact (recompute_run {| tables := tables w; output := Some f1 |} f1 f2 f3 f4
             eq_refl H1 H2 H3).
  - unfold Spec.ledger. cbn [mbind option_bind]. rewrite Hh4. exact Hread.
Qed.

(** X12.  When the input file has both named columns and well-formed numbers,
    and the headers of the ledger so far parse (an absent output file
    counts as an empty ledger), [process_restock] succeeds, and
    [process_inventory] succeeds for every sale number that [int]
    reads: each returns normally, leaves the input files as they were,
    and leaves a ledger whose headers parse to the earlier events
    followed by the new one. *)
Theorem submission_succeeds w (input_file label_column stock_column : string) df cols :
  tables w !! input_file = Some df →
  label_column ∈ df_columns df → stock_column ∈ df_columns df →
  Forall (Forall (λ v, well_formed v = true)) (df_rows df) →
  read_inventory_columns (load (Spec.ledger (output w))) = Ok cols →
  let c := max_column (Spec.ledger (output w)) + 1 in
  (∃ f',
      process_restock input_file label_column stock_column w
        = (Ok tt, {| tables := tables w; output := Some f' |}) ∧
      read_inventory_columns (load (Spec.ledger (Some f'))) =
        Ok (cols ++ [{| col := c; header := "Restock"; kind := Restock |}])) ∧
  (∀ (sale_number : string) n,
      int_of_string (replace sale_number "Sale " "") = Ok n →
      ∃ f',
        process_inventory input_file sale_number label_column stock_column w
          = (Ok tt, {| tables := tables w; output := Some f' |}) ∧
        read_inventory_columns (load (Spec.ledger (Some f'))) =
          Ok (cols ++ [{| col := c; header := "Sale " ++ sale_number;
                          kind := Sale n |}])).
Proof.
  intros Hw Hl Hs Wdf Hcols. cbn zeta.
  destruct (extracted_run w input_file label_column stock_column df Hw Hl Hs)
    as (labels & pos & Hpos & Hk).
  assert (Wstock : Forall (λ v, well_formed v = true)
                     ((λ row, row_cell row pos) <$> df_rows df)).
  { apply Forall_fmap. eapply Forall_impl; [exact Wdf|]. intros row Hrow. cbn.
    unfold row_cell. destruct (row !! pos) as [v|] eqn:E; [|done].
    rewrite Forall_forall in Hrow. apply Hrow. by eapply list_elem_of_lookup_2. }
  split.
  - destruct (append_then_analytics labels _ "Restock" _ cols w Wstock Hcols eq_refl)
      as (f' & Hrun & Hread).
    exists f'. split; [|exact Hread]. rewrite <- Hrun.
    exact (Hk (λ labels stock,
                 io_bind (on_output (_update_inventory_history_restock labels stock))
                         (λ _, recompute))).
  - intros sale_number n Hn.
    assert (Hp : parse_header (max_column (Spec.ledger (output w)) + 1)
                   (Some (VStr ("Sale " ++ sale_number))) =
                 Ok (Some {| col := max_column (Spec.ledger (output w)) + 1;
                             header := "Sale " ++ sale_number; kind := Sale n |}))
      by (by rewrite header_of_sale, Hn).
    destruct (append_then_analytics labels _ ("Sale " ++ sale_number) _ cols w
                Wstock Hcols Hp) as (f' & Hrun & Hread).
    exists f'. split; [|exact Hread]. rewrite <- Hrun.
    exact (Hk (λ labels stock,
                 io_bind (on_output (update_inventory_history labels stock sale_number))
                         (λ _, recompute))).
Qed.

Lemma submission_succeeds_witness :
  let w := {| tables := {[ "in.xlsx" := {| df_columns := ["Label"; "Stock"];
                                           df_rows := [[VStr "A"; VNum (float_of_Z 10)]] |} ]};
              output := None |} in
  ∃ f', process_inventory "in.xlsx" "1" "Label" "Stock" w
        = (Ok tt, {| tables := tables w; output := Some f' |}) ∧
        read_inventory_columns (load (Spec.ledger (Some f'))) =
        Ok [{| col := 2; header := "Sale 1"; kind := Sale 1 |}].
Proof.
  intros w.
  assert (H1 : tables w !! "in.xlsx" =
               Some {| df_columns := ["Label"; "Stock"];
                       df_rows := [[VStr "A"; VNum (float_of_Z 10)]] |})
    by (vm_compute; reflexivity).
  assert (H2 : "Label" ∈ ["Label"; "Stock"]) by (by left).
  assert (H3 : "Stock" ∈ ["Label"; "Stock"]) by (right; by left).
  assert (H4 : Forall (Forall (λ v, well_formed v = true))
                 [[VStr "A"; VNum (float_of_Z 10)]])
    by (repeat constructor).
  assert (H5 : read_inventory_columns (load (Spec.ledger (output w))) = Ok [])
    by (vm_compute; reflexivity).
  exact (proj2 (submission_succeeds w "in.xlsx" "Label" "Stock" _ [] H1 H2 H3 H4 H5)
           "1" 1%Z eq_refl).
Defined.
End Totality.
